(** * hctx: process bootstrap and shared-resource access of hishtory

    A shallow embedding of [client/hctx/hctx.go]: the configuration store
    ([GetConfig], [SetConfig], [InitConfig]), the datastore bootstrap
    ([OpenLocalSqliteDb]), the lazily built logger ([GetLogger]) and the
    context carrier ([WithConf], [GetConf], ...).

    Go code that touches the operating system is embedded in a state monad
    over a [World]: the file system, the package-level variables, the
    database catalogs, and a fault plan that decides which system call
    fails (or where the process dies). *)

From Stdlib Require Import ZArith String Ascii DecimalString.
From stdpp Require Import base option list strings sorting gmap.

Local Open Scope string_scope.
Local Open Scope Z_scope.

(** ** Go values *)

(** A Go slice: [None] is the nil slice, [Some []] an empty non-nil one. *)
Definition slice (A : Type) : Type := option (list A).

Definition len {A} (s : slice A) : nat :=
  match s with
  | None => 0%nat
  | Some l => length l
  end.

(** Error numbers the operating system or a library may report for reasons
    the model does not track (permissions, a full disk, a dead connection).
    That a path does not exist is decided by the file system itself, see
    [ErrNotExist]. *)
Inductive errno :=
| EACCES | EIO | ENOSPC | EROFS | EISDIR | ENOTDIR | EBUSY.

(** Go's [error] values: sentinel errors, and [fmt.Errorf] with a [%w] verb
    that wraps its (possibly nil) operand. *)
Inductive error :=
| ErrNotExist                                   (* os.ErrNotExist *)
| Errno (e : errno)
| ErrorString (msg : string)                    (* errors.New / Errorf without %w *)
| Errorf (msg : string) (wrapped : option error).

(** [errors.Is(err, os.ErrNotExist)]: follows the chain of wrapped errors. *)
Fixpoint is_ErrNotExist (err : error) : bool :=
  match err with
  | ErrNotExist => true
  | Errorf _ (Some e) => is_ErrNotExist e
  | _ => false
  end.

Definition errors_Is_ErrNotExist (err : option error) : bool :=
  match err with
  | Some e => is_ErrNotExist e
  | None => false
  end.

Definition errno_text (e : errno) : string :=
  match e with
  | EACCES => "permission denied"
  | EIO => "input/output error"
  | ENOSPC => "no space left on device"
  | EROFS => "read-only file system"
  | EISDIR => "is a directory"
  | ENOTDIR => "not a directory"
  | EBUSY => "device or resource busy"
  end.

(** [err.Error()] *)
Fixpoint error_text (err : error) : string :=
  match err with
  | ErrNotExist => "file does not exist"
  | Errno e => errno_text e
  | ErrorString msg => msg
  | Errorf msg (Some e) => msg +:+ ": " +:+ error_text e
  | Errorf msg None => msg +:+ ": %!w(<nil>)"
  end.

(** [fmt.Errorf("...: %v", err)]: formats the operand and does not wrap it. *)
Definition Errorf_v (msg : string) (err : error) : error :=
  ErrorString (msg +:+ ": " +:+ error_text err).

(** ** The configuration record *)

Record CustomColumnDefinition := {
  ColumnName : string;
  ColumnCommand : string;
}.

Record ClientConfig := {
  UserSecret : string;
  IsEnabled : bool;
  DeviceId : string;
  LastSavedHistoryLine : string;
  HaveMissedUploads : bool;
  MissedUploadTimestamp : Z;
  HaveCompletedInitialImport : bool;
  ControlRSearchEnabled : bool;
  DisplayedColumns : slice string;
  CustomColumns : slice CustomColumnDefinition;
  IsOffline : bool;
  FilterDuplicateCommands : bool;
  TimestampFormat : string;
}.

(** [ClientConfig{}] *)
Definition ClientConfig_zero : ClientConfig := {|
  UserSecret := "";
  IsEnabled := false;
  DeviceId := "";
  LastSavedHistoryLine := "";
  HaveMissedUploads := false;
  MissedUploadTimestamp := 0;
  HaveCompletedInitialImport := false;
  ControlRSearchEnabled := false;
  DisplayedColumns := None;
  CustomColumns := None;
  IsOffline := false;
  FilterDuplicateCommands := false;
  TimestampFormat := "";
|}.

Definition set_DisplayedColumns (v : slice string) (c : ClientConfig) : ClientConfig := {|
  UserSecret := UserSecret c;
  IsEnabled := IsEnabled c;
  DeviceId := DeviceId c;
  LastSavedHistoryLine := LastSavedHistoryLine c;
  HaveMissedUploads := HaveMissedUploads c;
  MissedUploadTimestamp := MissedUploadTimestamp c;
  HaveCompletedInitialImport := HaveCompletedInitialImport c;
  ControlRSearchEnabled := ControlRSearchEnabled c;
  DisplayedColumns := v;
  CustomColumns := CustomColumns c;
  IsOffline := IsOffline c;
  FilterDuplicateCommands := FilterDuplicateCommands c;
  TimestampFormat := TimestampFormat c;
|}.

Definition set_TimestampFormat (v : string) (c : ClientConfig) : ClientConfig := {|
  UserSecret := UserSecret c;
  IsEnabled := IsEnabled c;
  DeviceId := DeviceId c;
  LastSavedHistoryLine := LastSavedHistoryLine c;
  HaveMissedUploads := HaveMissedUploads c;
  MissedUploadTimestamp := MissedUploadTimestamp c;
  HaveCompletedInitialImport := HaveCompletedInitialImport c;
  ControlRSearchEnabled := ControlRSearchEnabled c;
  DisplayedColumns := DisplayedColumns c;
  CustomColumns := CustomColumns c;
  IsOffline := IsOffline c;
  FilterDuplicateCommands := FilterDuplicateCommands c;
  TimestampFormat := v;
|}.

(** ** Paths and identifiers *)

(** [path.Split]: splits immediately after the final slash; without a slash
    the directory part is empty. *)
Fixpoint path_Split (p : string) : string * string :=
  match p with
  | EmptyString => ("", "")
  | String c rest =>
      let '(d, f) := path_Split rest in
      if decide (d = "") then
        if decide (c = "/"%char) then ("/", f) else ("", String c f)
      else (String c d, f)
  end.

(** The directory a path lives in ([path.Split]'s first component). *)
Definition dir_of (p : string) : string := (path_Split p).1.

Fixpoint has_slash (s : string) : bool :=
  match s with
  | EmptyString => false
  | String c rest => if decide (c = "/"%char) then true else has_slash rest
  end.

(** [uuid.UUID] is an array of 16 bytes. *)
Definition UUID : Type := list N.

Definition hexdigit (n : N) : ascii :=
  match n with
  | 0%N => "0" | 1%N => "1" | 2%N => "2" | 3%N => "3"
  | 4%N => "4" | 5%N => "5" | 6%N => "6" | 7%N => "7"
  | 8%N => "8" | 9%N => "9" | 10%N => "a" | 11%N => "b"
  | 12%N => "c" | 13%N => "d" | 14%N => "e" | _ => "f"
  end%char.

(** [hex.Encode]: two lower-case digits per byte. *)
Fixpoint encodeHex (bs : list N) : string :=
  match bs with
  | [] => ""
  | b :: rest =>
      String (hexdigit (N.shiftr b 4)) (String (hexdigit (N.land b 15)) (encodeHex rest))
  end.

(** [UUID.String]: xxxxxxxx-xxxx-xxxx-xxxx-xxxxxxxxxxxx *)
Definition UUID_String (u : UUID) : string :=
  encodeHex (take 4 u) +:+ "-" +:+
  encodeHex (take 2 (drop 4 u)) +:+ "-" +:+
  encodeHex (take 2 (drop 6 u)) +:+ "-" +:+
  encodeHex (take 2 (drop 8 u)) +:+ "-" +:+
  encodeHex (take 6 (drop 10 u)).

(** ** The logger and the datastore, as data *)

Inductive Level :=
| PanicLevel | FatalLevel | ErrorLevel | WarnLevel | InfoLevel | DebugLevel | TraceLevel.

(** [logrus.TextFormatter], the two fields the package sets. *)
Record TextFormatter := {
  tf_TimestampFormat : string;
  tf_FullTimestamp : bool;
}.

(** [lumberjack.Logger] *)
Record lumberjack_Logger := {
  Filename : string;
  MaxSize : Z;        (* megabytes *)
  MaxBackups : Z;
  MaxAge : Z;         (* days *)
}.

Inductive Writer :=
| os_Stderr
| Lumberjack (l : lumberjack_Logger).

(** [logrus.Logger] *)
Record logrus_Logger := {
  lg_Out : Writer;
  lg_Formatter : TextFormatter;
  lg_Level : Level;
}.

(** [time.RFC3339] *)
Definition time_RFC3339 : string := "2006-01-02T15:04:05Z07:00".

(** [logrus.New()]: standard error, a default text formatter, Info level. *)
Definition logrus_New : logrus_Logger := {|
  lg_Out := os_Stderr;
  lg_Formatter := {| tf_TimestampFormat := ""; tf_FullTimestamp := false |};
  lg_Level := InfoLevel;
|}.

Definition SetFormatter (f : TextFormatter) (l : logrus_Logger) : logrus_Logger :=
  {| lg_Out := lg_Out l; lg_Formatter := f; lg_Level := lg_Level l |}.
Definition SetLevel (v : Level) (l : logrus_Logger) : logrus_Logger :=
  {| lg_Out := lg_Out l; lg_Formatter := lg_Formatter l; lg_Level := v |}.
Definition SetOutput (o : Writer) (l : logrus_Logger) : logrus_Logger :=
  {| lg_Out := o; lg_Formatter := lg_Formatter l; lg_Level := lg_Level l |}.

(** An index of the SQL catalog: its table and the columns it covers. *)
Record Index := {
  idx_table : string;
  idx_columns : list string;
}.

(** What a table declaration asks of [AutoMigrate]: the table, its columns
    and the indexes its field tags name. *)
Record Schema := {
  sch_table : string;
  sch_columns : list string;
  sch_indexes : list (string * Index);
}.

(** The catalog of one database file: tables with their columns, and
    indexes by name (index names are unique in a database). *)
Record Catalog := {
  tables : gmap string (list string);
  indexes : gmap string Index;
}.

Inductive gorm_LogLevel := gorm_Silent | gorm_Error | gorm_Warn | gorm_Info.

(** [logger.New(writer, logger.Config{...})] *)
Record gorm_Logger := {
  gl_Writer : logrus_Logger;          (* the entry [WithField("fromSQL", true)] logs through *)
  gl_SlowThreshold : Z;               (* milliseconds *)
  gl_LogLevel : gorm_LogLevel;
  gl_IgnoreRecordNotFoundError : bool;
  gl_Colorful : bool;
}.

(** [*gorm.DB]: the connection, identified by the data source it is on. *)
Record gorm_DB := {
  db_dsn : string;
  db_SkipDefaultTransaction : bool;
  db_Logger : gorm_Logger;
}.

(** The statements this package executes. *)
Inductive Stmt :=
| PragmaJournalMode (mode : string)
    (* PRAGMA journal_mode = mode *)
| CreateIndexIfNotExists (name table : string) (columns : list string).
    (* CREATE INDEX IF NOT EXISTS name ON table(columns) *)

(** ** The world *)

Record FS := {
  files : gmap string string;
  dirs : gset string;
}.

(** One entry of the fault plan decides the next system call: it goes
    through, it fails (a write possibly after [n] bytes reached the file),
    or the process dies there (a write possibly after [n] bytes). *)
Inductive fault :=
| Pass
| Fail (e : errno)
| Torn (n : nat) (e : errno)
| Crash
| CrashTorn (n : nat).

Record World := {
  w_home : string;                    (* $HOME; empty when it is not set *)
  w_fs : FS;
  w_dbs : gmap string Catalog;        (* database files *)
  w_rand : list N;                    (* bytes the random source will give *)
  w_faults : list fault;
  w_once : bool;                      (* getLoggerOnce has run *)
  w_logger : option logrus_Logger;    (* hishtoryLogger; None is nil *)
}.

Definition set_fs (fs : FS) (w : World) : World :=
  {| w_home := w_home w; w_fs := fs; w_dbs := w_dbs w; w_rand := w_rand w;
     w_faults := w_faults w; w_once := w_once w; w_logger := w_logger w |}.
Definition set_dbs (d : gmap string Catalog) (w : World) : World :=
  {| w_home := w_home w; w_fs := w_fs w; w_dbs := d; w_rand := w_rand w;
     w_faults := w_faults w; w_once := w_once w; w_logger := w_logger w |}.
Definition set_rand (r : list N) (w : World) : World :=
  {| w_home := w_home w; w_fs := w_fs w; w_dbs := w_dbs w; w_rand := r;
     w_faults := w_faults w; w_once := w_once w; w_logger := w_logger w |}.
Definition set_faults (f : list fault) (w : World) : World :=
  {| w_home := w_home w; w_fs := w_fs w; w_dbs := w_dbs w; w_rand := w_rand w;
     w_faults := f; w_once := w_once w; w_logger := w_logger w |}.
Definition set_once (b : bool) (w : World) : World :=
  {| w_home := w_home w; w_fs := w_fs w; w_dbs := w_dbs w; w_rand := w_rand w;
     w_faults := w_faults w; w_once := b; w_logger := w_logger w |}.
Definition set_logger (l : option logrus_Logger) (w : World) : World :=
  {| w_home := w_home w; w_fs := w_fs w; w_dbs := w_dbs w; w_rand := w_rand w;
     w_faults := w_faults w; w_once := w_once w; w_logger := l |}.

(** ** The monad of Go computations *)

(** A call returns, panics, or the process is gone. *)
Inductive result (A : Type) :=
| Ret (a : A)
| Panic (e : error)
| Crashed.
Arguments Ret {A} a.
Arguments Panic {A} e.
Arguments Crashed {A}.

Definition Go (A : Type) : Type := World → result A * World.

#[export] Instance Go_ret : MRet Go := λ A a w, (Ret a, w).
#[export] Instance Go_bind : MBind Go := λ A B f m w,
  match m w with
  | (Ret a, w') => f a w'
  | (Panic e, w') => (Panic e, w')
  | (Crashed, w') => (Crashed, w')
  end.

Definition panic {A} (e : error) : Go A := λ w, (Panic e, w).

(** What the fault plan says about the next system call. *)
Definition next_fault (w : World) : fault * World :=
  match w_faults w with
  | [] => (Pass, w)
  | f :: rest => (f, set_faults rest w)
  end.

Inductive verdict := Proceed | Refuse (e : errno) | Die.

Definition verdict_of (f : fault) : verdict :=
  match f with
  | Pass => Proceed
  | Fail e | Torn _ e => Refuse e
  | Crash | CrashTorn _ => Die
  end.

(** A fallible system call: [sem] is what it does when the plan lets it
    through, [failed] builds its result from the error it reports otherwise. *)
Definition syscall {A} (failed : error → A) (sem : World → A * World) : Go A := λ w,
  let '(f, w1) := next_fault w in
  match verdict_of f with
  | Proceed => let '(r, w2) := sem w1 in (Ret r, w2)
  | Refuse e => (Ret (failed (Errno e)), w1)
  | Die => (Crashed, w1)
  end.

(** ** The operating system *)

(** [*fs.PathError] *)
Definition PathError (op path : string) (err : error) : error :=
  Errorf (op +:+ " " +:+ path) (Some err).

Definition fs_write (name data : string) (fs : FS) : FS :=
  {| files := <[name := data]> (files fs); dirs := dirs fs |}.

Definition fs_exists (p : string) (fs : FS) : bool :=
  bool_decide (is_Some (files fs !! p) ∨ p ∈ dirs fs).

(** [os.UserHomeDir]: the value of $HOME, an error when it is empty. *)
Definition os_UserHomeDir : Go (string * option error) := λ w,
  if decide (w_home w = "") then (Ret ("", Some (ErrorString "$HOME is not defined")), w)
  else (Ret (w_home w, None), w).

(** [os.MkdirAll]: nothing to do when the directory exists; the model keeps
    the directory itself, parents are not tracked: [dirs] says which
    directories are known to exist, not which ones are missing, and nothing
    below bounds the directories a call may create. *)
Definition os_MkdirAll (p : string) : Go (option error) :=
  syscall Some (λ w,
    let fs := w_fs w in
    if decide (is_Some (files fs !! p)) then (Some (PathError "mkdir" p (Errno ENOTDIR)), w)
    else (None, set_fs {| files := files fs; dirs := {[p]} ∪ dirs fs |} w)).

(** [os.ReadFile] *)
Definition os_ReadFile (p : string) : Go (string * option error) :=
  syscall (λ e, ("", Some e)) (λ w,
    match files (w_fs w) !! p with
    | Some c => ((c, None), w)
    | None =>
        if decide (p ∈ dirs (w_fs w)) then (("", Some (PathError "read" p (Errno EISDIR))), w)
        else (("", Some (PathError "open" p ErrNotExist)), w)
    end).

(** Byte-wise order on names, as Go compares strings. *)
Definition string_le (a b : string) : Prop := Is_true (String.leb a b).
#[export] Instance string_le_dec a b : Decision (string_le a b) := Is_true_dec _.

(** The names in directory [p]: the last components of the paths right under it. *)
Definition dir_entries (p : string) (fs : FS) : list string :=
  let under := filter (λ k, dir_of k = p +:+ "/") (elements (dom (files fs) ∪ dirs fs)) in
  merge_sort string_le ((λ k, (path_Split k).2) <$> under).

(** [os.ReadDir]: the entries sorted by name (only their names are used). *)
Definition os_ReadDir (p : string) : Go (list string * option error) :=
  syscall (λ e, ([], Some e)) (λ w,
    if decide (p ∈ dirs (w_fs w)) then ((dir_entries p (w_fs w), None), w)
    else if decide (is_Some (files (w_fs w) !! p)) then (([], Some (PathError "readdir" p (Errno ENOTDIR))), w)
    else (([], Some (PathError "open" p ErrNotExist)), w)).

(** [os.WriteFile]: creates or truncates [name] and writes [data]. A failed
    or interrupted write may leave a prefix of [data] in the file. *)
Definition os_WriteFile (name data : string) : Go (option error) := λ w,
  let '(f, w1) := next_fault w in
  match f with
  | Pass =>
      if decide (name ∈ dirs (w_fs w1)) then (Ret (Some (PathError "open" name (Errno EISDIR))), w1)
      else (Ret None, set_fs (fs_write name data (w_fs w1)) w1)
  | Fail e => (Ret (Some (PathError "open" name (Errno e))), w1)
  | Torn n e =>
      (Ret (Some (PathError "write" name (Errno e))),
       set_fs (fs_write name (substring 0 n data) (w_fs w1)) w1)
  | Crash => (Crashed, w1)
  | CrashTorn n => (Crashed, set_fs (fs_write name (substring 0 n data) (w_fs w1)) w1)
  end.

(** [os.Rename] of a file: one atomic step that replaces [newpath]. Renaming
    directories is not used by this package and the model refuses it. *)
Definition os_Rename (oldpath newpath : string) : Go (option error) :=
  syscall Some (λ w,
    let fs := w_fs w in
    match files fs !! oldpath with
    | Some c =>
        if decide (newpath ∈ dirs fs) then (Some (PathError "rename" oldpath (Errno EISDIR)), w)
        else (None, set_fs {| files := <[newpath := c]> (delete oldpath (files fs));
                              dirs := dirs fs |} w)
    | None =>
        if decide (oldpath ∈ dirs fs) then (Some (PathError "rename" oldpath (Errno EBUSY)), w)
        else (Some (PathError "rename" oldpath ErrNotExist), w)
    end).

(** [os.Stat]; the file information is not used by this package. *)
Definition os_Stat (p : string) : Go (unit * option error) :=
  syscall (λ e, (tt, Some e)) (λ w,
    if fs_exists p (w_fs w) then ((tt, None), w)
    else ((tt, Some (PathError "stat" p ErrNotExist)), w)).

(** [uuid.NewRandom]: 16 bytes from the random source, with the version and
    variant bits set. *)
Definition uuid_NewRandom : Go (UUID * option error) :=
  syscall (λ e, ([], Some e)) (λ w,
    let bs := take 16 (w_rand w) in
    if decide (length bs = 16%nat) then
      let u := alter (λ b, N.lor (N.land b 15) 64) 6%nat bs in
      let u := alter (λ b, N.lor (N.land b 63) 128) 8%nat u in
      ((u, None), set_rand (drop 16 (w_rand w)) w)
    else (([], Some (ErrorString "unexpected EOF")), set_rand [] w)).

(** [uuid.Must] *)
Definition uuid_Must (r : UUID * option error) : Go UUID :=
  match r.2 with
  | Some e => panic e
  | None => mret r.1
  end.

(** ** ContextCarrier *)

(** A context key is an interface value: a dynamic type and a value of it.
    Keys are equal when both agree. *)
Record Key := {
  key_type : string;
  key_value : string;
}.

#[export] Instance Key_eq_dec : EqDecision Key.
Proof. solve_decision. Defined.

(** [hishtoryContextKey(s)] *)
Definition hishtoryContextKey (s : string) : Key :=
  {| key_type := "hctx.hishtoryContextKey"; key_value := s |}.

Definition contextConfigKey : Key := hishtoryContextKey "config".
Definition contextDBKey : Key := hishtoryContextKey "db".
Definition contextHomedirKey : Key := hishtoryContextKey "homedir".

(** The dynamic values this package stores in a context. A [*gorm.DB] may be
    a nil pointer, which is still a non-nil interface value. *)
Inductive any :=
| AnyClientConfig (c : ClientConfig)
| AnyGormDB (db : option gorm_DB)
| AnyString (s : string).

(** A (non-nil) [context.Context]: the background context, and frames that
    [context.WithValue] chains to their parent. A stored [None] is the nil
    interface. *)
Inductive Context :=
| Background
| valueCtx (parent : Context) (key : Key) (val : option any).

(** [context.WithValue]: a new frame; the parent is not touched. *)
Definition context_WithValue (parent : Context) (key : Key) (val : option any) : Context :=
  valueCtx parent key val.

(** [ctx.Value(key)]: the nearest frame that binds [key]; nil at the root. *)
Fixpoint Value (ctx : Context) (key : Key) : option any :=
  match ctx with
  | Background => None
  | valueCtx parent k v => if decide (k = key) then v else Value parent key
  end.

Definition type_assertion_failed : error :=
  ErrorString "interface conversion: interface {} has another dynamic type".

Definition WithConf (ctx : Context) (config : ClientConfig) : Context :=
  context_WithValue ctx contextConfigKey (Some (AnyClientConfig config)).

Definition GetConf (ctx : Context) : Go ClientConfig :=
  let v := Value ctx contextConfigKey in
  match v with
  | Some (AnyClientConfig c) => mret c
  | Some _ => panic type_assertion_failed
  | None => panic (ErrorString "failed to find config in ctx")
  end.

Definition WithDb (ctx : Context) (db : option gorm_DB) : Context :=
  context_WithValue ctx contextDBKey (Some (AnyGormDB db)).

Definition GetDb (ctx : Context) : Go (option gorm_DB) :=
  let v := Value ctx contextDBKey in
  match v with
  | Some (AnyGormDB db) => mret db
  | Some _ => panic type_assertion_failed
  | None => panic (ErrorString "failed to find db in ctx")
  end.

Definition WithHome (ctx : Context) (homedir : string) : Context :=
  context_WithValue ctx contextHomedirKey (Some (AnyString homedir)).

Definition GetHome (ctx : Context) : Go string :=
  let v := Value ctx contextHomedirKey in
  match v with
  | Some (AnyString s) => mret s
  | Some _ => panic type_assertion_failed
  | None => panic (ErrorString "failed to find homedir in ctx")
  end.

(** ** What the package imports

    Library functions and declarations of other packages that [hctx] calls
    and whose code is not part of it: [path.Join], the constants and the
    [HistoryEntry] declaration of package [data], and [encoding/json] at
    type [ClientConfig]. [json_Unmarshal data c] is [json.Unmarshal(data, &c)]:
    it returns the updated record and the error. *)
Class Platform := {
  path_Join : list string → string;
  data_GetHishtoryPath : string;
  data_CONFIG_PATH : string;
  data_DB_PATH : string;
  data_HistoryEntry : Schema;
  json_Marshal : ClientConfig → string * option error;
  json_Unmarshal : string → ClientConfig → ClientConfig * option error;
}.

Section hctx.
Context `{Platform}.

Definition MakeHishtoryDir : Go (option error) :=
  '(homedir, err) ← os_UserHomeDir;
  match err with
  | Some e => mret (Some (Errorf "failed to get user's home directory" (Some e)))
  | None =>
      let historyPath := data_GetHishtoryPath in
      err ← os_MkdirAll (path_Join [homedir; historyPath]);
      match err with
      | Some e => mret (Some (Errorf ("failed to create ~/" +:+ historyPath +:+ " dir") (Some e)))
      | None => mret None
      end
  end.

(** ** ConfigStore *)

Definition GetConfigContents : Go (string * option error) :=
  '(homedir, err) ← os_UserHomeDir;
  match err with
  | Some e => mret ("", Some (Errorf "failed to retrieve homedir" (Some e)))
  | None =>
      '(dat, err) ← os_ReadFile (path_Join [homedir; data_GetHishtoryPath; data_CONFIG_PATH]);
      match err with
      | Some _ =>
          (* [files, err := ...] declares a new [err] for this block *)
          '(files, err) ← os_ReadDir (path_Join [homedir; data_GetHishtoryPath]);
          match err with
          | Some e =>
              mret ("", Some (Errorf "failed to read config file (and failed to list too)" (Some e)))
          | None =>
              let filenames := foldl (λ acc file, acc +:+ file +:+ ", ") "" files in
              mret ("", Some (Errorf ("failed to read config file (files in HISHTORY_PATH: "
                                       +:+ filenames +:+ ")") err))
          end
      | None => mret (dat, None)
      end
  end.

Definition default_DisplayedColumns : list string :=
  ["Hostname"; "CWD"; "Timestamp"; "Runtime"; "Exit Code"; "Command"].

Definition default_TimestampFormat : string := "Jan 2 2006 15:04:05 MST".

Definition GetConfig : Go (ClientConfig * option error) :=
  '(data, err) ← GetConfigContents;
  match err with
  | Some e => mret (ClientConfig_zero, Some e)
  | None =>
      let '(config, err) := json_Unmarshal data ClientConfig_zero in
      match err with
      | Some e => mret (ClientConfig_zero, Some (Errorf "failed to parse config file" (Some e)))
      | None =>
          let config :=
            if bool_decide (DisplayedColumns config = None) || bool_decide (len (DisplayedColumns config) = 0%nat)
            then set_DisplayedColumns (Some default_DisplayedColumns) config
            else config in
          let config :=
            if bool_decide (TimestampFormat config = "")
            then set_TimestampFormat default_TimestampFormat config
            else config in
          mret (config, None)
      end
  end.

Definition SetConfig (config : ClientConfig) : Go (option error) :=
  let '(serializedConfig, err) := json_Marshal config in
  match err with
  | Some e => mret (Some (Errorf "failed to serialize config" (Some e)))
  | None =>
  '(homedir, err) ← os_UserHomeDir;
  match err with
  | Some e => mret (Some (Errorf "failed to retrieve homedir" (Some e)))
  | None =>
  err ← MakeHishtoryDir;
  match err with
  | Some e => mret (Some (Errorf "failed to create hishtory dir" (Some e)))
  | None =>
  let configPath := path_Join [homedir; data_GetHishtoryPath; data_CONFIG_PATH] in
  u ← (uuid_NewRandom ≫= uuid_Must);
  let stagedConfigPath := configPath +:+ ".tmp-" +:+ UUID_String u in
  err ← os_WriteFile stagedConfigPath serializedConfig;
  match err with
  | Some e => mret (Some (Errorf "failed to write config" (Some e)))
  | None =>
  err ← os_Rename stagedConfigPath configPath;
  match err with
  | Some e => mret (Some (Errorf "failed to replace config file with the updated version" (Some e)))
  | None => mret None
  end end end end end.

Definition InitConfig : Go (option error) :=
  '(homedir, err) ← os_UserHomeDir;
  match err with
  | Some e => mret (Some e)
  | None =>
      '(_, err) ← os_Stat (path_Join [homedir; data_GetHishtoryPath; data_CONFIG_PATH]);
      if errors_Is_ErrNotExist err then SetConfig ClientConfig_zero
      else mret err
  end.

(** ** LogSink *)

(** [sync.Once.Do] in a single thread: runs [f] the first time only; the
    once is spent also when [f] panics. *)
Definition Once_Do (f : Go unit) : Go unit := λ w,
  if w_once w then (Ret tt, w)
  else let '(r, w') := f w in (r, set_once true w').

Definition modify_logger (f : logrus_Logger → logrus_Logger) : Go unit := λ w,
  match w_logger w with
  | Some l => (Ret tt, set_logger (Some (f l)) w)
  | None => (Panic (ErrorString "invalid memory address or nil pointer dereference"), w)
  end.

(** [hishtoryLogger = l] and the read of [hishtoryLogger] *)
Definition store_hishtoryLogger (l : logrus_Logger) : Go unit := λ w,
  (Ret tt, set_logger (Some l) w).
Definition load_hishtoryLogger : Go (option logrus_Logger) := λ w,
  (Ret (w_logger w), w).

Definition GetLogger : Go (option logrus_Logger) :=
  Once_Do (
    '(homedir, err) ← os_UserHomeDir;
    match err with
    | Some e => panic (Errorf_v "failed to get user's home directory" e)
    | None =>
    err ← MakeHishtoryDir;
    match err with
    | Some e => panic e
    | None =>
    let lumberjackLogger := {|
      Filename := path_Join [homedir; data_GetHishtoryPath; "hishtory.log"];
      MaxSize := 1;
      MaxBackups := 10;
      MaxAge := 30;
    |} in
    let logFormatter := {| tf_TimestampFormat := time_RFC3339; tf_FullTimestamp := true |} in
    store_hishtoryLogger logrus_New ;;
    modify_logger (SetFormatter logFormatter) ;;
    modify_logger (SetLevel InfoLevel) ;;
    modify_logger (SetOutput (Lumberjack lumberjackLogger))
    end end) ;;
  load_hishtoryLogger.

(** ** ResourceBootstrapper *)

Definition empty_Catalog : Catalog := {| tables := ∅; indexes := ∅ |}.

(** [gorm.Open(sqlite.Open(dsn), cfg)]: mode [rwc] creates the database file
    when there is none. Database files are kept in [w_dbs], by data source,
    apart from the files of [w_fs]; what the database engine and the loggers
    write besides (journal, log lines) is not modelled, so [files] speaks of
    the configuration files only. *)
Definition gorm_Open (dsn : string) (skipDefaultTransaction : bool) (lg : gorm_Logger)
  : Go (option gorm_DB * option error) :=
  syscall (λ e, (None, Some e)) (λ w,
    let db := {| db_dsn := dsn; db_SkipDefaultTransaction := skipDefaultTransaction;
                 db_Logger := lg |} in
    match w_dbs w !! dsn with
    | Some _ => ((Some db, None), w)
    | None => ((Some db, None), set_dbs (<[dsn := empty_Catalog]> (w_dbs w)) w)
    end).

(** [db.DB()] and [tx.Ping()] *)
Definition gorm_DB_DB (db : gorm_DB) : Go (unit * option error) :=
  syscall (λ e, (tt, Some e)) (λ w, ((tt, None), w)).
Definition sql_Ping (db : gorm_DB) : Go (option error) :=
  syscall Some (λ w, (None, w)).

Definition add_index (i : string * Index) (c : Catalog) : Catalog :=
  match indexes c !! i.1 with
  | Some _ => c
  | None => {| tables := tables c; indexes := <[i.1 := i.2]> (indexes c) |}
  end.

(** [db.AutoMigrate(&T{})]: creates the table when it is missing, adds the
    columns it lacks, and creates the declared indexes that do not exist. *)
Definition migrate (s : Schema) (c : Catalog) : Catalog :=
  let cols : list string := default [] (tables c !! sch_table s) in
  let cols' := (cols ++ filter (λ x, x ∉ cols) (sch_columns s))%list in
  foldr add_index {| tables := <[sch_table s := cols']> (tables c); indexes := indexes c |}
        (sch_indexes s).

Definition with_catalog (db : gorm_DB) (f : Catalog → Catalog * option error)
  : Go (option error) :=
  syscall Some (λ w,
    match w_dbs w !! db_dsn db with
    | Some c => let '(c', err) := f c in (err, set_dbs (<[db_dsn db := c']> (w_dbs w)) w)
    | None => (Some (ErrorString "unable to open database file"), w)
    end).

Definition gorm_AutoMigrate (db : gorm_DB) (s : Schema) : Go (option error) :=
  with_catalog db (λ c, (migrate s c, None)).

(** [db.Exec(sql)]; the error is the [Error] field of the result. *)
Definition gorm_Exec (db : gorm_DB) (q : Stmt) : Go (option error) :=
  with_catalog db (λ c,
    match q with
    | PragmaJournalMode _ => (c, None)
    | CreateIndexIfNotExists name table columns =>
        match indexes c !! name with
        | Some _ => (c, None)
        | None =>
            match tables c !! table with
            | None => (c, Some (ErrorString ("no such table: " +:+ table)))
            | Some cols =>
                if decide (columns ⊆ cols)
                then (add_index (name, {| idx_table := table; idx_columns := columns |}) c, None)
                else (c, Some (ErrorString "no such column"))
            end
        end
    end).

Definition OpenLocalSqliteDb : Go (option gorm_DB * option error) :=
  '(homedir, err) ← os_UserHomeDir;
  match err with
  | Some e => mret (None, Some (Errorf "failed to get user's home directory" (Some e)))
  | None =>
  err ← MakeHishtoryDir;
  match err with
  | Some e => mret (None, Some (Errorf "failed to make hishtory dir" (Some e)))
  | None =>
  lg ← GetLogger;
  match lg with
  | None => panic (ErrorString "invalid memory address or nil pointer dereference")
  | Some lg =>
  let newLogger := {|
    gl_Writer := lg;
    gl_SlowThreshold := 100;
    gl_LogLevel := gorm_Warn;
    gl_IgnoreRecordNotFoundError := false;
    gl_Colorful := false;
  |} in
  let dbFilePath := path_Join [homedir; data_GetHishtoryPath; data_DB_PATH] in
  let dsn := "file:" +:+ dbFilePath +:+ "?mode=rwc&_journal_mode=WAL" in
  '(db, err) ← gorm_Open dsn true newLogger;
  match err with
  | Some e => mret (None, Some (Errorf "failed to connect to the DB" (Some e)))
  | None =>
  match db with
  | None => panic (ErrorString "invalid memory address or nil pointer dereference")
  | Some db =>
  '(tx, err) ← gorm_DB_DB db;
  match err with
  | Some e => mret (None, Some (Errorf "failed to get DB from gorm" (Some e)))
  | None =>
  err ← sql_Ping db;
  match err with
  | Some e => mret (None, Some (Errorf "failed to ping DB" (Some e)))
  | None =>
  (* the results of the next three calls are dropped *)
  _ ← gorm_AutoMigrate db data_HistoryEntry;
  _ ← gorm_Exec db (PragmaJournalMode "WAL");
  _ ← gorm_Exec db (CreateIndexIfNotExists "end_time_index" "history_entries" ["end_time"]);
  mret (Some db, None)
  end end end end end end end.

Definition MakeContext : Go Context :=
  let ctx := Background in
  '(config, err) ← GetConfig;
  match err with
  | Some e => panic (Errorf "failed to retrieve config" (Some e))
  | None =>
  let ctx := WithConf ctx config in
  '(db, err) ← OpenLocalSqliteDb;
  match err with
  | Some e => panic (Errorf "failed to open local DB" (Some e))
  | None =>
  let ctx := WithDb ctx db in
  '(homedir, err) ← os_UserHomeDir;
  match err with
  | Some e => panic (Errorf "failed to get homedir" (Some e))
  | None =>
  let ctx := WithHome ctx homedir in
  mret ctx
  end end end.

(** Names for the paths and values the functions above build. *)

(** The path of the configuration file for a home directory. *)
Definition configPath (home : string) : string :=
  path_Join [home; data_GetHishtoryPath; data_CONFIG_PATH].

Definition stagedConfigPath (home : string) (u : UUID) : string :=
  configPath home +:+ ".tmp-" +:+ UUID_String u.

(** The tool's directory under a home directory. *)
Definition hishtoryDir (home : string) : string :=
  path_Join [home; data_GetHishtoryPath].

(** The data source name [OpenLocalSqliteDb] opens for a home directory. *)
Definition dsn_of (home : string) : string :=
  "file:" +:+ path_Join [home; data_GetHishtoryPath; data_DB_PATH]
  +:+ "?mode=rwc&_journal_mode=WAL".

(** The handle [OpenLocalSqliteDb] returns when its logger is [lg]. *)
Definition handle_of (home : string) (lg : logrus_Logger) : gorm_DB := {|
  db_dsn := dsn_of home;
  db_SkipDefaultTransaction := true;
  db_Logger := {|
    gl_Writer := lg;
    gl_SlowThreshold := 100;
    gl_LogLevel := gorm_Warn;
    gl_IgnoreRecordNotFoundError := false;
    gl_Colorful := false;
  |};
|}.

End hctx.

(** ** A reference implementation of [encoding/json] at [ClientConfig]

    Used to run the package on concrete inputs. [Marshal] writes what
    [json.Marshal] writes for a [ClientConfig]; [Unmarshal] reads any JSON
    text into it the way [json.Unmarshal] does for documents whose objects
    name each key once. *)
Module GoJSON.

Definition DQ : ascii := "034"%char.    (* the double quote *)
Definition BSL : ascii := "092"%char.   (* the backslash *)

Definition code (c : ascii) : N := N_of_ascii c.
Definition chr (n : N) : ascii := ascii_of_N n.
Definition within (lo hi : N) (c : ascii) : bool := (lo <=? code c)%N && (code c <=? hi)%N.

(** [utf8.DecodeRune], as far as its width goes: the length of the encoding at
    the head of [s], and [0] where Go reports [RuneError] of width 1. *)
Definition utf8_size (s : string) : nat :=
  match s with
  | EmptyString => 0
  | String b0 r =>
      if within 0 127 b0 then 1
      else if within 194 223 b0 then
        match r with
        | String b1 _ => if within 128 191 b1 then 2 else 0
        | _ => 0
        end
      else if within 224 239 b0 then
        let lo := if (code b0 =? 224)%N then 160%N else 128%N in
        let hi := if (code b0 =? 237)%N then 159%N else 191%N in
        match r with
        | String b1 (String b2 _) =>
            if within lo hi b1 && within 128 191 b2 then 3 else 0
        | _ => 0
        end
      else if within 240 244 b0 then
        let lo := if (code b0 =? 240)%N then 144%N else 128%N in
        let hi := if (code b0 =? 244)%N then 143%N else 191%N in
        match r with
        | String b1 (String b2 (String b3 _)) =>
            if within lo hi b1 && within 128 191 b2 && within 128 191 b3 then 4 else 0
        | _ => 0
        end
      else 0
  end%nat.

(** [utf8.EncodeRune]; surrogates and values past U+10FFFF become U+FFFD. *)
Definition utf8_encode (r : N) : string :=
  let r := if ((55296 <=? r) && (r <=? 57343) || (1114111 <? r))%N then 65533%N else r in
  if (r <? 128)%N then String (chr r) ""
  else if (r <? 2048)%N then
    String (chr (192 + N.shiftr r 6)) (String (chr (128 + N.land r 63)) "")
  else if (r <? 65536)%N then
    String (chr (224 + N.shiftr r 12))
      (String (chr (128 + N.land (N.shiftr r 6) 63)) (String (chr (128 + N.land r 63)) ""))
  else
    String (chr (240 + N.shiftr r 18))
      (String (chr (128 + N.land (N.shiftr r 12) 63))
         (String (chr (128 + N.land (N.shiftr r 6) 63)) (String (chr (128 + N.land r 63)) ""))).

(** *** Encoding *)

Definition escaped (c : ascii) : string := String BSL (String c "").
Definition escaped_u (a b c d : ascii) : string :=
  String BSL (String "u" (String a (String b (String c (String d ""))))).

(** One ASCII byte inside a string literal, with HTML escaping on (the
    default of [json.Marshal]). *)
Definition encode_ascii (b : ascii) : string :=
  if decide (b = DQ) then escaped DQ
  else if decide (b = BSL) then escaped BSL
  else if decide (b = "008"%char) then escaped "b"
  else if decide (b = "012"%char) then escaped "f"
  else if decide (b = "010"%char) then escaped "n"
  else if decide (b = "013"%char) then escaped "r"
  else if decide (b = "009"%char) then escaped "t"
  else if (code b <? 32)%N || bool_decide (b = "<"%char) || bool_decide (b = ">"%char)
          || bool_decide (b = "&"%char)
  then escaped_u "0" "0" (hexdigit (N.shiftr (code b) 4)) (hexdigit (N.land (code b) 15))
  else String b "".

(** The body of a string literal. [skip] bytes at the head belong to a rune
    that was already looked at: they are copied when [copy], else dropped. *)
Fixpoint encode_chars (copy : bool) (skip : nat) (s : string) : string :=
  match s with
  | EmptyString => ""
  | String b r =>
      match skip with
      | S k => if copy then String b (encode_chars copy k r) else encode_chars copy k r
      | O =>
          if (code b <? 128)%N then encode_ascii b +:+ encode_chars true 0 r
          else
            match utf8_size s with
            | O => escaped_u "f" "f" "f" "d" +:+ encode_chars true 0 r
            | S k =>
                match s with
                | String "226" (String "128" (String "168" _)) =>
                    escaped_u "2" "0" "2" "8" +:+ encode_chars false k r
                | String "226" (String "128" (String "169" _)) =>
                    escaped_u "2" "0" "2" "9" +:+ encode_chars false k r
                | _ => String b (encode_chars true k r)
                end
            end
      end
  end.

Definition quoted (body : string) : string := String DQ body +:+ String DQ "".

Definition encode_string (s : string) : string := quoted (encode_chars true 0 s).

Definition encode_bool (b : bool) : string := if b then "true" else "false".

Definition encode_int (z : Z) : string := NilZero.string_of_int (Z.to_int z).

Fixpoint join (sep : string) (l : list string) : string :=
  match l with
  | [] => ""
  | [x] => x
  | x :: rest => x +:+ sep +:+ join sep rest
  end.

Definition encode_slice {A} (enc : A → string) (s : slice A) : string :=
  match s with
  | None => "null"
  | Some l => "[" +:+ join "," (enc <$> l) +:+ "]"
  end.

Definition member (name value : string) : string := quoted name +:+ ":" +:+ value.

Definition encode_object (members : list string) : string :=
  "{" +:+ join "," members +:+ "}".

Definition encode_column (c : CustomColumnDefinition) : string :=
  encode_object [
    member "column_name" (encode_string (ColumnName c));
    member "column_command" (encode_string (ColumnCommand c)) ].

(** [json.Marshal(config)]: the fields in declaration order under their
    tags. None of the field types can make it fail. *)
Definition Marshal (c : ClientConfig) : string * option error :=
  (encode_object [
     member "user_secret" (encode_string (UserSecret c));
     member "is_enabled" (encode_bool (IsEnabled c));
     member "device_id" (encode_string (DeviceId c));
     member "last_saved_history_line" (encode_string (LastSavedHistoryLine c));
     member "have_missed_uploads" (encode_bool (HaveMissedUploads c));
     member "missed_upload_timestamp" (encode_int (MissedUploadTimestamp c));
     member "have_completed_initial_import" (encode_bool (HaveCompletedInitialImport c));
     member "enable_control_r_search" (encode_bool (ControlRSearchEnabled c));
     member "displayed_columns" (encode_slice encode_string (DisplayedColumns c));
     member "custom_columns" (encode_slice encode_column (CustomColumns c));
     member "is_offline" (encode_bool (IsOffline c));
     member "filter_duplicate_commands" (encode_bool (FilterDuplicateCommands c));
     member "timestamp_format" (encode_string (TimestampFormat c)) ], None).

(** *** Decoding *)

Inductive JSON :=
| JNull
| JBool (b : bool)
| JNumber (literal : string)
| JString (s : string)
| JArray (elements : list JSON)
| JObject (members : list (string * JSON)).

Definition is_space (c : ascii) : bool :=
  bool_decide (c = " "%char) || bool_decide (c = "009"%char)
  || bool_decide (c = "010"%char) || bool_decide (c = "013"%char).

Fixpoint skip_space (s : string) : string :=
  match s with
  | String c r => if is_space c then skip_space r else s
  | EmptyString => s
  end.

Definition hexval (c : ascii) : option N :=
  if within 48 57 c then Some (code c - 48)%N
  else if within 97 102 c then Some (code c - 87)%N
  else if within 65 70 c then Some (code c - 55)%N
  else None.

(** [getu4]: the value of four hexadecimal digits. *)
Definition hex4 (a b c d : ascii) : option N :=
  x ← hexval a; y ← hexval b; z ← hexval c; t ← hexval d;
  Some (x * 4096 + y * 256 + z * 16 + t)%N.

Definition is_surrogate (r : N) : bool := (55296 <=? r)%N && (r <? 57344)%N.

(** [utf16.DecodeRune]: the rune of a surrogate pair, U+FFFD for no pair. *)
Definition utf16_pair (hi lo : N) : N :=
  if ((55296 <=? hi) && (hi <? 56320) && (56320 <=? lo) && (lo <? 57344))%N
  then ((hi - 55296) * 1024 + (lo - 56320) + 65536)%N
  else 65533%N.

Definition unescape (c : ascii) : option ascii :=
  if decide (c = DQ) then Some DQ
  else if decide (c = BSL) then Some BSL
  else if decide (c = "/"%char) then Some "/"%char
  else if decide (c = "b"%char) then Some "008"%char
  else if decide (c = "f"%char) then Some "012"%char
  else if decide (c = "n"%char) then Some "010"%char
  else if decide (c = "r"%char) then Some "013"%char
  else if decide (c = "t"%char) then Some "009"%char
  else None.

(** The body of a string literal up to its closing quote ([unquote]): the
    decoded text and what follows the literal. *)
Fixpoint decode_chars (skip : nat) (s : string) : option (string * string) :=
  match s with
  | EmptyString => None
  | String b r =>
      match skip with
      | S k => '(t, rest) ← decode_chars k r; Some (String b t, rest)
      | O =>
          if decide (b = DQ) then Some ("", r)
          else if decide (b = BSL) then
            match r with
            | String "u" (String h1 (String h2 (String h3 (String h4 r1)))) =>
                rr ← hex4 h1 h2 h3 h4;
                if is_surrogate rr then
                  match r1 with
                  | String b' (String "u" (String l1 (String l2 (String l3 (String l4 r2))))) =>
                      match (if decide (b' = BSL) then hex4 l1 l2 l3 l4 else None) with
                      | Some rr1 =>
                          if (utf16_pair rr rr1 =? 65533)%N then
                            '(t, rest) ← decode_chars 0 r1; Some (utf8_encode 65533 +:+ t, rest)
                          else
                            '(t, rest) ← decode_chars 0 r2;
                            Some (utf8_encode (utf16_pair rr rr1) +:+ t, rest)
                      | None => '(t, rest) ← decode_chars 0 r1; Some (utf8_encode 65533 +:+ t, rest)
                      end
                  | _ => '(t, rest) ← decode_chars 0 r1; Some (utf8_encode 65533 +:+ t, rest)
                  end
                else '(t, rest) ← decode_chars 0 r1; Some (utf8_encode rr +:+ t, rest)
            | String e r1 =>
                c ← unescape e; '(t, rest) ← decode_chars 0 r1; Some (String c t, rest)
            | EmptyString => None
            end
          else if (code b <? 32)%N then None
          else if (code b <? 128)%N then '(t, rest) ← decode_chars 0 r; Some (String b t, rest)
          else
            match utf8_size s with
            | O => '(t, rest) ← decode_chars 0 r; Some (utf8_encode 65533 +:+ t, rest)
            | S k => '(t, rest) ← decode_chars k r; Some (String b t, rest)
            end
      end
  end.

Definition is_digit (c : ascii) : bool := within 48 57 c.

Fixpoint span_digits (s : string) : string * string :=
  match s with
  | String c r => if is_digit c then let '(d, rest) := span_digits r in (String c d, rest) else ("", s)
  | EmptyString => ("", "")
  end.

(** A number literal: an optional minus, an integer part without leading
    zeros, an optional fraction and an optional exponent. *)
Definition scan_number (s : string) : option (string * string) :=
  let '(sign, s1) := match s with String "-" r => ("-", r) | _ => ("", s) end in
  let '(int, s2) := span_digits s1 in
  match int with
  | EmptyString => None
  | String "0" (String _ _) => None
  | _ =>
      frac ← match s2 with
             | String "." r =>
                 let '(d, rest) := span_digits r in
                 if decide (d = "") then None else Some ("." +:+ d, rest)
             | _ => Some ("", s2)
             end;
      let '(frac, s3) := frac in
      ex ← match s3 with
           | String e r =>
               if bool_decide (e = "e"%char) || bool_decide (e = "E"%char) then
                 let '(sg, r1) := match r with
                                  | String "+" r' => ("+", r')
                                  | String "-" r' => ("-", r')
                                  | _ => ("", r)
                                  end in
                 let '(d, rest) := span_digits r1 in
                 if decide (d = "") then None else Some (String e sg +:+ d, rest)
               else Some ("", s3)
           | _ => Some ("", s3)
           end;
      let '(ex, s4) := ex in
      Some (sign +:+ int +:+ frac +:+ ex, s4)
  end.

Definition strip_prefix (p s : string) : option string :=
  if String.prefix p s then Some (substring (String.length p) (String.length s - String.length p) s)
  else None.

(** One JSON value at the head of [s] (after white space), and the rest. *)
Fixpoint parse_value (fuel : nat) (s : string) : option (JSON * string) :=
  match fuel with
  | O => None
  | S fuel =>
      match skip_space s with
      | String "{" r =>
          match skip_space r with
          | String "}" r1 => Some (JObject [], r1)
          | _ => '(ms, r1) ← parse_members fuel r; Some (JObject ms, r1)
          end
      | String "[" r =>
          match skip_space r with
          | String "]" r1 => Some (JArray [], r1)
          | _ => '(vs, r1) ← parse_elements fuel r; Some (JArray vs, r1)
          end
      | String "t" _ as t => r ← strip_prefix "true" t; Some (JBool true, r)
      | String "f" _ as t => r ← strip_prefix "false" t; Some (JBool false, r)
      | String "n" _ as t => r ← strip_prefix "null" t; Some (JNull, r)
      | String c r as t =>
          if decide (c = DQ) then '(str, r1) ← decode_chars 0 r; Some (JString str, r1)
          else '(lit, r1) ← scan_number t; Some (JNumber lit, r1)
      | EmptyString => None
      end
  end
with parse_members (fuel : nat) (s : string) : option (list (string * JSON) * string) :=
  match fuel with
  | O => None
  | S fuel =>
      match skip_space s with
      | String q r =>
          if decide (q = DQ) then
            '(k, r1) ← decode_chars 0 r;
            match skip_space r1 with
            | String ":" r2 =>
                '(v, r3) ← parse_value fuel r2;
                match skip_space r3 with
                | String "," r4 => '(ms, r5) ← parse_members fuel r4; Some ((k, v) :: ms, r5)
                | String "}" r4 => Some ([(k, v)], r4)
                | _ => None
                end
            | _ => None
            end
          else None
      | EmptyString => None
      end
  end
with parse_elements (fuel : nat) (s : string) : option (list JSON * string) :=
  match fuel with
  | O => None
  | S fuel =>
      '(v, r1) ← parse_value fuel s;
      match skip_space r1 with
      | String "," r2 => '(vs, r3) ← parse_elements fuel r2; Some (v :: vs, r3)
      | String "]" r2 => Some ([v], r2)
      | _ => None
      end
  end.

(** The whole text is one value, white space around it allowed. *)
Definition parse (s : string) : option JSON :=
  '(v, rest) ← parse_value (2 * String.length s + 2) s;
  if decide (skip_space rest = "") then Some v else None.

(** Key folding ([foldName]): ASCII letters without case; the Kelvin sign
    is a k and the long s an s. *)
Fixpoint fold_name (s : string) : string :=
  match s with
  | String "226" (String "132" (String "170" r)) => String "k" (fold_name r)
  | String "197" (String "191" r) => String "s" (fold_name r)
  | String c r => String (if within 65 90 c then chr (code c + 32) else c) (fold_name r)
  | EmptyString => ""
  end.

Definition the_string (cur : string) (v : JSON) : option string :=
  match v with JString s => Some s | JNull => Some cur | _ => None end.

Definition the_bool (cur : bool) (v : JSON) : option bool :=
  match v with JBool b => Some b | JNull => Some cur | _ => None end.

(** [strconv.ParseInt(literal, 10, 64)] on a number literal. *)
Definition the_int64 (cur : Z) (v : JSON) : option Z :=
  match v with
  | JNumber lit =>
      d ← NilZero.int_of_string lit;
      let z := Z.of_int d in
      if ((-9223372036854775808 <=? z) && (z <=? 9223372036854775807))%Z then Some z else None
  | JNull => Some cur
  | _ => None
  end.

Definition the_slice {A} (elem : JSON → option A) (v : JSON) : option (slice A) :=
  match v with
  | JArray vs => Some <$> mapM elem vs
  | JNull => Some None
  | _ => None
  end.

Definition bind_column (kv : string * JSON) (c : CustomColumnDefinition)
  : option CustomColumnDefinition :=
  let k := fold_name kv.1 in
  if decide (k = "column_name") then
    s ← the_string (ColumnName c) kv.2; Some {| ColumnName := s; ColumnCommand := ColumnCommand c |}
  else if decide (k = "column_command") then
    s ← the_string (ColumnCommand c) kv.2; Some {| ColumnName := ColumnName c; ColumnCommand := s |}
  else Some c.

Definition the_column (v : JSON) : option CustomColumnDefinition :=
  let zero := {| ColumnName := ""; ColumnCommand := "" |} in
  match v with
  | JObject ms => foldl (λ acc kv, acc ≫= bind_column kv) (Some zero) ms
  | JNull => Some zero
  | _ => None
  end.

Definition bind_field (kv : string * JSON) (c : ClientConfig) : option ClientConfig :=
  let k := fold_name kv.1 in
  let v := kv.2 in
  if decide (k = "user_secret") then
    x ← the_string (UserSecret c) v;
    Some {| UserSecret := x; IsEnabled := IsEnabled c; DeviceId := DeviceId c;
            LastSavedHistoryLine := LastSavedHistoryLine c;
            HaveMissedUploads := HaveMissedUploads c;
            MissedUploadTimestamp := MissedUploadTimestamp c;
            HaveCompletedInitialImport := HaveCompletedInitialImport c;
            ControlRSearchEnabled := ControlRSearchEnabled c;
            DisplayedColumns := DisplayedColumns c; CustomColumns := CustomColumns c;
            IsOffline := IsOffline c; FilterDuplicateCommands := FilterDuplicateCommands c;
            TimestampFormat := TimestampFormat c |}
  else if decide (k = "is_enabled") then
    x ← the_bool (IsEnabled c) v;
    Some {| UserSecret := UserSecret c; IsEnabled := x; DeviceId := DeviceId c;
            LastSavedHistoryLine := LastSavedHistoryLine c;
            HaveMissedUploads := HaveMissedUploads c;
            MissedUploadTimestamp := MissedUploadTimestamp c;
            HaveCompletedInitialImport := HaveCompletedInitialImport c;
            ControlRSearchEnabled := ControlRSearchEnabled c;
            DisplayedColumns := DisplayedColumns c; CustomColumns := CustomColumns c;
            IsOffline := IsOffline c; FilterDuplicateCommands := FilterDuplicateCommands c;
            TimestampFormat := TimestampFormat c |}
  else if decide (k = "device_id") then
    x ← the_string (DeviceId c) v;
    Some {| UserSecret := UserSecret c; IsEnabled := IsEnabled c; DeviceId := x;
            LastSavedHistoryLine := LastSavedHistoryLine c;
            HaveMissedUploads := HaveMissedUploads c;
            MissedUploadTimestamp := MissedUploadTimestamp c;
            HaveCompletedInitialImport := HaveCompletedInitialImport c;
            ControlRSearchEnabled := ControlRSearchEnabled c;
            DisplayedColumns := DisplayedColumns c; CustomColumns := CustomColumns c;
            IsOffline := IsOffline c; FilterDuplicateCommands := FilterDuplicateCommands c;
            TimestampFormat := TimestampFormat c |}
  else if decide (k = "last_saved_history_line") then
    x ← the_string (LastSavedHistoryLine c) v;
    Some {| UserSecret := UserSecret c; IsEnabled := IsEnabled c; DeviceId := DeviceId c;
            LastSavedHistoryLine := x;
            HaveMissedUploads := HaveMissedUploads c;
            MissedUploadTimestamp := MissedUploadTimestamp c;
            HaveCompletedInitialImport := HaveCompletedInitialImport c;
            ControlRSearchEnabled := ControlRSearchEnabled c;
            DisplayedColumns := DisplayedColumns c; CustomColumns := CustomColumns c;
            IsOffline := IsOffline c; FilterDuplicateCommands := FilterDuplicateCommands c;
            TimestampFormat := TimestampFormat c |}
  else if decide (k = "have_missed_uploads") then
    x ← the_bool (HaveMissedUploads c) v;
    Some {| UserSecret := UserSecret c; IsEnabled := IsEnabled c; DeviceId := DeviceId c;
            LastSavedHistoryLine := LastSavedHistoryLine c;
            HaveMissedUploads := x;
            MissedUploadTimestamp := MissedUploadTimestamp c;
            HaveCompletedInitialImport := HaveCompletedInitialImport c;
            ControlRSearchEnabled := ControlRSearchEnabled c;
            DisplayedColumns := DisplayedColumns c; CustomColumns := CustomColumns c;
            IsOffline := IsOffline c; FilterDuplicateCommands := FilterDuplicateCommands c;
            TimestampFormat := TimestampFormat c |}
  else if decide (k = "missed_upload_timestamp") then
    x ← the_int64 (MissedUploadTimestamp c) v;
    Some {| UserSecret := UserSecret c; IsEnabled := IsEnabled c; DeviceId := DeviceId c;
            LastSavedHistoryLine := LastSavedHistoryLine c;
            HaveMissedUploads := HaveMissedUploads c;
            MissedUploadTimestamp := x;
            HaveCompletedInitialImport := HaveCompletedInitialImport c;
            ControlRSearchEnabled := ControlRSearchEnabled c;
            DisplayedColumns := DisplayedColumns c; CustomColumns := CustomColumns c;
            IsOffline := IsOffline c; FilterDuplicateCommands := FilterDuplicateCommands c;
            TimestampFormat := TimestampFormat c |}
  else if decide (k = "have_completed_initial_import") then
    x ← the_bool (HaveCompletedInitialImport c) v;
    Some {| UserSecret := UserSecret c; IsEnabled := IsEnabled c; DeviceId := DeviceId c;
            LastSavedHistoryLine := LastSavedHistoryLine c;
            HaveMissedUploads := HaveMissedUploads c;
            MissedUploadTimestamp := MissedUploadTimestamp c;
            HaveCompletedInitialImport := x;
            ControlRSearchEnabled := ControlRSearchEnabled c;
            DisplayedColumns := DisplayedColumns c; CustomColumns := CustomColumns c;
            IsOffline := IsOffline c; FilterDuplicateCommands := FilterDuplicateCommands c;
            TimestampFormat := TimestampFormat c |}
  else if decide (k = "enable_control_r_search") then
    x ← the_bool (ControlRSearchEnabled c) v;
    Some {| UserSecret := UserSecret c; IsEnabled := IsEnabled c; DeviceId := DeviceId c;
            LastSavedHistoryLine := LastSavedHistoryLine c;
            HaveMissedUploads := HaveMissedUploads c;
            MissedUploadTimestamp := MissedUploadTimestamp c;
            HaveCompletedInitialImport := HaveCompletedInitialImport c;
            ControlRSearchEnabled := x;
            DisplayedColumns := DisplayedColumns c; CustomColumns := CustomColumns c;
            IsOffline := IsOffline c; FilterDuplicateCommands := FilterDuplicateCommands c;
            TimestampFormat := TimestampFormat c |}
  else if decide (k = "displayed_columns") then
    x ← the_slice (the_string "") v; Some (set_DisplayedColumns x c)
  else if decide (k = "custom_columns") then
    x ← the_slice the_column v;
    Some {| UserSecret := UserSecret c; IsEnabled := IsEnabled c; DeviceId := DeviceId c;
            LastSavedHistoryLine := LastSavedHistoryLine c;
            HaveMissedUploads := HaveMissedUploads c;
            MissedUploadTimestamp := MissedUploadTimestamp c;
            HaveCompletedInitialImport := HaveCompletedInitialImport c;
            ControlRSearchEnabled := ControlRSearchEnabled c;
            DisplayedColumns := DisplayedColumns c; CustomColumns := x;
            IsOffline := IsOffline c; FilterDuplicateCommands := FilterDuplicateCommands c;
            TimestampFormat := TimestampFormat c |}
  else if decide (k = "is_offline") then
    x ← the_bool (IsOffline c) v;
    Some {| UserSecret := UserSecret c; IsEnabled := IsEnabled c; DeviceId := DeviceId c;
            LastSavedHistoryLine := LastSavedHistoryLine c;
            HaveMissedUploads := HaveMissedUploads c;
            MissedUploadTimestamp := MissedUploadTimestamp c;
            HaveCompletedInitialImport := HaveCompletedInitialImport c;
            ControlRSearchEnabled := ControlRSearchEnabled c;
            DisplayedColumns := DisplayedColumns c; CustomColumns := CustomColumns c;
            IsOffline := x; FilterDuplicateCommands := FilterDuplicateCommands c;
            TimestampFormat := TimestampFormat c |}
  else if decide (k = "filter_duplicate_commands") then
    x ← the_bool (FilterDuplicateCommands c) v;
    Some {| UserSecret := UserSecret c; IsEnabled := IsEnabled c; DeviceId := DeviceId c;
            LastSavedHistoryLine := LastSavedHistoryLine c;
            HaveMissedUploads := HaveMissedUploads c;
            MissedUploadTimestamp := MissedUploadTimestamp c;
            HaveCompletedInitialImport := HaveCompletedInitialImport c;
            ControlRSearchEnabled := ControlRSearchEnabled c;
            DisplayedColumns := DisplayedColumns c; CustomColumns := CustomColumns c;
            IsOffline := IsOffline c; FilterDuplicateCommands := x;
            TimestampFormat := TimestampFormat c |}
  else if decide (k = "timestamp_format") then
    x ← the_string (TimestampFormat c) v; Some (set_TimestampFormat x c)
  else Some c.

(** [json.Unmarshal(data, &config)]: on an error the record is returned as
    it was. *)
Definition Unmarshal (data : string) (config : ClientConfig) : ClientConfig * option error :=
  match parse data with
  | None => (config, Some (ErrorString "invalid character in JSON input"))
  | Some JNull => (config, None)
  | Some (JObject ms) =>
      match foldl (λ acc kv, acc ≫= bind_field kv) (Some config) ms with
      | Some c => (c, None)
      | None => (config, Some (ErrorString "json: cannot unmarshal value into Go struct field"))
      end
  | Some _ =>
      (config, Some (ErrorString "json: cannot unmarshal value into Go value of type hctx.ClientConfig"))
  end.

End GoJSON.

(** ** A reference platform

    Concrete values for what the package imports, to run it on examples:
    the usual names of package [data], [path.Join] on clean elements (where
    [path.Clean] changes nothing), and [GoJSON]. *)
Definition reference_Join (elem : list string) : string :=
  GoJSON.join "/" (filter (λ e, e ≠ "") elem).

Definition reference_HistoryEntry : Schema := {|
  sch_table := "history_entries";
  sch_columns := ["local_username"; "hostname"; "command"; "current_working_directory";
                  "home_directory"; "exit_code"; "start_time"; "end_time"; "device_id";
                  "custom_columns"];
  sch_indexes := [];
|}.

#[export] Instance reference_Platform : Platform := {|
  path_Join := reference_Join;
  data_GetHishtoryPath := ".hishtory";
  data_CONFIG_PATH := ".hishtory.config";
  data_DB_PATH := ".hishtory.db";
  data_HistoryEntry := reference_HistoryEntry;
  json_Marshal := GoJSON.Marshal;
  json_Unmarshal := GoJSON.Unmarshal;
|}.

(** A machine with home directory [/home/u], an empty disk and no faults. *)
Definition fresh_World : World := {|
  w_home := "/home/u";
  w_fs := {| files := ∅; dirs := ∅ |};
  w_dbs := ∅;
  w_rand := [1; 2; 3; 4; 5; 6; 7; 8; 9; 10; 11; 12; 13; 14; 15; 16]%N;
  w_faults := [];
  w_once := false;
  w_logger := None;
|}.

Local Close Scope Z_scope.

(** ** Notions used in the statements *)

Definition same_disk (w w' : World) : Prop :=
  w_home w' = w_home w ∧ files (w_fs w') = files (w_fs w).

Fixpoint strip_dashes (s : string) : string :=
  match s with
  | EmptyString => ""
  | String c rest => if decide (c = "-"%char) then strip_dashes rest else String c (strip_dashes rest)
  end.

(** The value of a lower-case hexadecimal digit. *)
Definition unhex (c : ascii) : N :=
  let n := N_of_ascii c in
  if (n <? 58)%N then (n - 48)%N else (n - 87)%N.

Definition add_dir (p : string) (w : World) : World :=
  set_fs {| files := files (w_fs w); dirs := {[p]} ∪ dirs (w_fs w) |} w.

(** An index over the end-time column of the history entries. *)
Definition on_end_time (i : Index) : Prop :=
  idx_table i = "history_entries" ∧ idx_columns i = ["end_time"].

#[export] Instance on_end_time_dec i : Decision (on_end_time i).
Proof. unfold on_end_time. apply _. Defined.

Definition end_time_indexes (c : Catalog) : gmap string Index :=
  filter (λ ni, on_end_time ni.2) (indexes c).

(** The name [end_time_index] is used for the index over the end-time
    column and for no other. *)
Definition end_time_named (n : string) (i : Index) : Prop :=
  n = "end_time_index" ↔ on_end_time i.

Definition end_time_index : Index :=
  {| idx_table := "history_entries"; idx_columns := ["end_time"] |}.

(** What [CREATE INDEX IF NOT EXISTS end_time_index ON history_entries(end_time)]
    does to a catalog. *)
Definition create_end_time_index (c : Catalog) : Catalog :=
  match indexes c !! "end_time_index" with
  | Some _ => c
  | None =>
      match tables c !! "history_entries" with
      | None => c
      | Some cols =>
          if decide (["end_time"] ⊆ cols) then add_index ("end_time_index", end_time_index) c
          else c
      end
  end.

(** The datastore after the bootstrap statements. *)
Definition bootstrap_catalog (s : Schema) (c : Catalog) : Catalog :=
  create_end_time_index (migrate s c).

(** The fresh machine with a configuration file holding [data]. *)
Definition world_with_config (data : string) : World :=
  set_fs {| files := {[ configPath "/home/u" := data ]}; dirs := {[ "/home/u/.hishtory" ]} |}
         fresh_World.

Definition sample_config : ClientConfig := {|
  UserSecret := "shhhh";
  IsEnabled := true;
  DeviceId := "some-id";
  LastSavedHistoryLine := "ls -l <dir>";
  HaveMissedUploads := false;
  MissedUploadTimestamp := 1700000000;
  HaveCompletedInitialImport := true;
  ControlRSearchEnabled := false;
  DisplayedColumns := Some [];
  CustomColumns := Some [{| ColumnName := "git"; ColumnCommand := "git branch" |}];
  IsOffline := false;
  FilterDuplicateCommands := false;
  TimestampFormat := "";
|}.

(** The machine on which the sixth fallible call of [OpenLocalSqliteDb],
    the migration, fails with an input/output error. *)
Definition world_migration_fails : World :=
  set_faults [Pass; Pass; Pass; Pass; Pass; Fail EIO] fresh_World.

Definition world_index_fails : World :=
  set_faults [Pass; Pass; Pass; Pass; Pass; Pass; Pass; Fail EIO] fresh_World.

(** ** GetLogger under concurrent callers

    Every thread runs [GetLogger]; the threads interleave at the accesses to
    what they share: the [done] word and the mutex of [getLoggerOnce], the
    package variable [hishtoryLogger], and the logger object it points to.
    [sync.Once.Do] is its two-step implementation: an atomic load of
    [done], and under the mutex a second load, the function, the deferred
    store of [done] and the deferred unlock. The two deferred calls run also
    when the function panics; the panic then leaves [GetLogger] in the
    thread that ran the function, and the other threads go on. A panic that
    nobody recovers ends the process some time after the deferred calls:
    that cuts an execution short and adds no state, so the states of such a
    process are states of this machine too. *)
Module Concurrent.

(** What a panic of [GetLogger] carries: the error of the home directory or
    of the tool's directory, or the run-time error of a call through a nil
    pointer. *)
Inductive panic_value :=
| EnvironmentError
| NilDereference.

(** Where a thread is in [GetLogger]. *)
Inductive pc :=
| Call                       (* getLoggerOnce.Do: o.done.Load() *)
| Lock                       (* doSlow: o.m.Lock() *)
| Check                      (* doSlow, mutex held: o.done.Load() *)
| Resolve                    (* the function: os.UserHomeDir, MakeHishtoryDir *)
| Alloc                      (* hishtoryLogger = logrus.New() *)
| Format                     (* hishtoryLogger.SetFormatter(logFormatter) *)
| Levelled                   (* hishtoryLogger.SetLevel(logrus.InfoLevel) *)
| Output                     (* hishtoryLogger.SetOutput(lumberjackLogger) *)
| Store                      (* deferred: o.done.Store(1) *)
| Unlock                     (* deferred: o.m.Unlock() *)
| Load                       (* return hishtoryLogger *)
| Returned (handle : option nat)
| PanicStore (v : panic_value)    (* panicking, deferred: o.done.Store(1) *)
| PanicUnlock (v : panic_value)   (* panicking, deferred: o.m.Unlock() *)
| Panicked (v : panic_value).     (* the panic has left GetLogger *)

Record Machine := {
  m_done : bool;                        (* getLoggerOnce.done *)
  m_mutex : bool;                       (* getLoggerOnce.m is held *)
  m_global : option nat;                (* hishtoryLogger: nil or an address *)
  m_heap : list logrus_Logger;          (* the logger objects, by address *)
  m_runs : nat;                         (* how often the function was entered *)
  m_threads : list pc;
}.

Definition set_pc (t : nat) (p : pc) (m : Machine) : Machine :=
  {| m_done := m_done m; m_mutex := m_mutex m; m_global := m_global m; m_heap := m_heap m;
     m_runs := m_runs m; m_threads := <[t := p]> (m_threads m) |}.
Definition set_done (b : bool) (m : Machine) : Machine :=
  {| m_done := b; m_mutex := m_mutex m; m_global := m_global m; m_heap := m_heap m;
     m_runs := m_runs m; m_threads := m_threads m |}.
Definition set_mutex (b : bool) (m : Machine) : Machine :=
  {| m_done := m_done m; m_mutex := b; m_global := m_global m; m_heap := m_heap m;
     m_runs := m_runs m; m_threads := m_threads m |}.
Definition set_global (g : option nat) (m : Machine) : Machine :=
  {| m_done := m_done m; m_mutex := m_mutex m; m_global := g; m_heap := m_heap m;
     m_runs := m_runs m; m_threads := m_threads m |}.
Definition set_heap (h : list logrus_Logger) (m : Machine) : Machine :=
  {| m_done := m_done m; m_mutex := m_mutex m; m_global := m_global m; m_heap := h;
     m_runs := m_runs m; m_threads := m_threads m |}.
Definition set_runs (n : nat) (m : Machine) : Machine :=
  {| m_done := m_done m; m_mutex := m_mutex m; m_global := m_global m; m_heap := m_heap m;
     m_runs := n; m_threads := m_threads m |}.

(** The object a method call through [hishtoryLogger] updates; there is
    none when the pointer is nil. *)
Definition update_logger (f : logrus_Logger → logrus_Logger) (m : Machine) : option Machine :=
  match m_global m with
  | Some l =>
      match m_heap m !! l with
      | Some o => Some (set_heap (<[l := f o]> (m_heap m)) m)
      | None => None
      end
  | None => None
  end.

(** Thread [t] calls a method through [hishtoryLogger] and goes on to
    [next]; on a nil pointer it panics inside the function of the once. *)
Definition method_call (t : nat) (next : pc) (f : logrus_Logger → logrus_Logger)
    (m : Machine) : Machine :=
  match update_logger f m with
  | Some m' => set_pc t next m'
  | None => set_pc t (PanicStore NilDereference) m
  end.

(** Holding the mutex of the once; inside the function of the once. *)
Definition critical (p : pc) : bool :=
  match p with
  | Check | Resolve | Alloc | Format | Levelled | Output | Store | Unlock
  | PanicStore _ | PanicUnlock _ => true
  | _ => false
  end.

Definition initialising (p : pc) : bool :=
  match p with
  | Resolve | Alloc | Format | Levelled | Output | Store | PanicStore _ => true
  | _ => false
  end.

(** [hishtoryLogger] points to an object whose state is [o]. *)
Definition points_to (m : Machine) (o : logrus_Logger) : Prop :=
  ∃ l, m_global m = Some l ∧ m_heap m !! l = Some o.




Section machine.
(** Whether the home directory resolves and the directory can be made, and
    the formatter and the writer the function builds. *)
Variable env_ok : bool.
Variable logFormatter : TextFormatter.
Variable lumberjackLogger : lumberjack_Logger.

(** One step of thread [t], when it can take one. *)
Definition thread_step (t : nat) (m : Machine) : option Machine :=
  p ← m_threads m !! t;
  match p with
  | Call => Some (set_pc t (if m_done m then Load else Lock) m)
  | Lock => if m_mutex m then None else Some (set_pc t Check (set_mutex true m))
  | Check =>
      if m_done m then Some (set_pc t Unlock m)
      else Some (set_pc t Resolve (set_runs (S (m_runs m)) m))
  | Resolve => Some (set_pc t (if env_ok then Alloc else PanicStore EnvironmentError) m)
  | Alloc =>
      Some (set_pc t Format
              (set_global (Some (length (m_heap m)))
                 (set_heap (m_heap m ++ [logrus_New]) m)))
  | Format => Some (method_call t Levelled (SetFormatter logFormatter) m)
  | Levelled => Some (method_call t Output (SetLevel InfoLevel) m)
  | Output => Some (method_call t Store (SetOutput (Lumberjack lumberjackLogger)) m)
  | Store => Some (set_pc t Unlock (set_done true m))
  | Unlock => Some (set_pc t Load (set_mutex false m))
  | Load => Some (set_pc t (Returned (m_global m)) m)
  | PanicStore v => Some (set_pc t (PanicUnlock v) (set_done true m))
  | PanicUnlock v => Some (set_pc t (Panicked v) (set_mutex false m))
  | Returned _ | Panicked _ => None
  end.

Definition step (m m' : Machine) : Prop := ∃ t, thread_step t m = Some m'.

(** [n] threads about to call [GetLogger] in a fresh process. *)
Definition start (n : nat) : Machine :=
  {| m_done := false; m_mutex := false; m_global := None; m_heap := []; m_runs := 0%nat;
     m_threads := replicate n Call |}.

(** The logger once the function has run to its end. *)
Definition constructed : logrus_Logger :=
  SetOutput (Lumberjack lumberjackLogger) (SetLevel InfoLevel (SetFormatter logFormatter logrus_New)).

(** What the function of the once leaves behind: the constructed logger
    when the environment is in order, a nil [hishtoryLogger] when it is
    not. *)
Definition outcome (m : Machine) : Prop :=
  if env_ok then points_to m constructed else m_global m = None.

(** What a thread at [p] knows about the shared state. *)
Definition knows (m : Machine) (p : pc) : Prop :=
  match p with
  | Call | Lock | Check => True
  | Resolve => m_done m = false ∧ m_runs m = 1%nat ∧ m_global m = None
  | Alloc => m_done m = false ∧ m_runs m = 1%nat ∧ env_ok = true ∧ m_global m = None
  | Format => m_done m = false ∧ m_runs m = 1%nat ∧ env_ok = true ∧ points_to m logrus_New
  | Levelled =>
      m_done m = false ∧ m_runs m = 1%nat ∧ env_ok = true ∧
      points_to m (SetFormatter logFormatter logrus_New)
  | Output =>
      m_done m = false ∧ m_runs m = 1%nat ∧ env_ok = true ∧
      points_to m (SetLevel InfoLevel (SetFormatter logFormatter logrus_New))
  | Store => m_done m = false ∧ m_runs m = 1%nat ∧ env_ok = true ∧ points_to m constructed
  | Unlock | Load => m_done m = true
  | Returned v => m_done m = true ∧ v = m_global m
  | PanicStore v =>
      m_done m = false ∧ m_runs m = 1%nat ∧ m_global m = None ∧
      env_ok = false ∧ v = EnvironmentError
  | PanicUnlock v | Panicked v => m_done m = true ∧ env_ok = false ∧ v = EnvironmentError
  end.

Record Inv (m : Machine) : Prop := {
  inv_excl : ∀ t1 t2 p1 p2,
    m_threads m !! t1 = Some p1 → m_threads m !! t2 = Some p2 →
    critical p1 = true → critical p2 = true → t1 = t2;
  inv_held : m_mutex m = true ↔ ∃ t p, m_threads m !! t = Some p ∧ critical p = true;
  inv_knows : ∀ t p, m_threads m !! t = Some p → knows m p;
  inv_done : m_done m = true → m_runs m = 1%nat ∧ outcome m;
  inv_idle : m_done m = false →
    (∀ t p, m_threads m !! t = Some p → initialising p = false) →
    m_runs m = 0%nat ∧ m_global m = None;
}.

(** Running the threads in the order of a schedule. *)
Fixpoint run (schedule : list nat) (m : Machine) : Machine :=
  match schedule with
  | [] => m
  | t :: rest =>
      match thread_step t m with
      | Some m' => run rest m'
      | None => run rest m
      end
  end.

End machine.
End Concurrent.

(** ** Notions used in the further properties *)

(** Carriers made from the background context by this package's functions. *)
Inductive from_With : Context → Prop :=
| from_Background : from_With Background
| from_WithConf ctx config : from_With ctx → from_With (WithConf ctx config)
| from_WithDb ctx db : from_With ctx → from_With (WithDb ctx db)
| from_WithHome ctx homedir : from_With ctx → from_With (WithHome ctx homedir).

(** Nothing but the fault plan differs between two worlds. *)
Definition only_faults (w w' : World) : Prop :=
  w_home w' = w_home w ∧ w_fs w' = w_fs w ∧ w_dbs w' = w_dbs w ∧
  w_rand w' = w_rand w ∧ w_once w' = w_once w ∧ w_logger w' = w_logger w.

(** The listing [GetConfigContents] puts in its message. *)
Definition listing (names : list string) : string :=
  foldl (λ acc file, acc +:+ file +:+ ", ") "" names.

(** From [w] to [w'] only files at paths in [P] were written and no
    directory disappeared; the home directory, the databases and the logger
    are the same. *)
Definition frame (P : string → Prop) (w w' : World) : Prop :=
  w_home w' = w_home w ∧ w_dbs w' = w_dbs w ∧
  w_once w' = w_once w ∧ w_logger w' = w_logger w ∧
  (∀ k, ¬ P k → files (w_fs w') !! k = files (w_fs w) !! k) ∧
  (∀ d, d ∈ dirs (w_fs w) → d ∈ dirs (w_fs w')).

(** The token [uuid.NewRandom] makes of the next 16 random bytes. *)
Definition next_uuid (rand : list N) : UUID :=
  alter (λ b, N.lor (N.land b 63) 128) 8%nat
    (alter (λ b, N.lor (N.land b 15) 64) 6%nat (take 16 rand)).

(** The first [n] entries of the fault plan, if there are that many, let
    the call through. *)
Definition passes (n : nat) (w : World) : Prop :=
  Forall (λ f, f = Pass) (take n (w_faults w)).

(** The fresh machine without $HOME. *)
Definition homeless_World : World :=
  {| w_home := ""; w_fs := w_fs fresh_World; w_dbs := w_dbs fresh_World;
     w_rand := w_rand fresh_World; w_faults := w_faults fresh_World;
     w_once := w_once fresh_World; w_logger := w_logger fresh_World |}.

(** The fresh machine with a regular file where the tool's directory goes. *)
Definition world_with_blocker : World :=
  set_fs {| files := {[ "/home/u/.hishtory" := "not a directory" ]}; dirs := ∅ |} fresh_World.

(** The run-time panic of a method call through a nil pointer. *)
Definition nil_dereference : error :=
  ErrorString "invalid memory address or nil pointer dereference".

(** Catalog [c'] has everything catalog [c] has: each table of [c] with its
    columns in their places (new columns come after them), and each index
    of [c] as it was. *)
Definition catalog_le (c c' : Catalog) : Prop :=
  (∀ t cols, tables c !! t = Some cols →
     ∃ cols', tables c' !! t = Some cols' ∧ cols `prefix_of` cols') ∧
  (∀ n i, indexes c !! n = Some i → indexes c' !! n = Some i).

(** From [w] to [w'] no directory disappeared, a logger that was built
    stayed, the databases other than [dsn] are the same and the one at [dsn]
    lost nothing. *)
Definition keeps (dsn : string) (w w' : World) : Prop :=
  w_home w' = w_home w ∧
  dirs (w_fs w) ⊆ dirs (w_fs w') ∧
  (w_once w = true → w_once w' = true ∧ w_logger w' = w_logger w) ∧
  (∀ k, k ≠ dsn → w_dbs w' !! k = w_dbs w !! k) ∧
  (∀ c, w_dbs w !! dsn = Some c → ∃ c', w_dbs w' !! dsn = Some c' ∧ catalog_le c c').

Section more_names.
Context `{Platform}.

(** The paths [SetConfig] may write for a home directory. *)
Definition config_paths (home : string) (k : string) : Prop :=
  k = configPath home ∨ ∃ u, k = stagedConfigPath home u.

End more_names.

(** * Theorems *)

(** * Facts about strings and paths *)

Lemma app_cons (c : ascii) (s t : string) : String c s +:+ t = String c (s +:+ t).
Proof. reflexivity. Qed.

Lemma app_nil (t : string) : "" +:+ t = t.
Proof. reflexivity. Qed.

Lemma app_empty_r (s : string) : s +:+ "" = s.
Proof. induction s as [|c s IH]; [done|]. by rewrite app_cons, IH. Qed.

Lemma app_ne_self (p s : string) : s ≠ "" → p +:+ s ≠ p.
Proof.
  intros Hs Heq. apply Hs. apply (inj (String.app p)). by rewrite app_empty_r.
Qed.

Lemma has_slash_app (a b : string) :
  has_slash (a +:+ b) = has_slash a || has_slash b.
Proof.
  induction a as [|c a IH]; [done|]. rewrite app_cons. cbn [has_slash].
  case_decide; [done|]. apply IH.
Qed.

Lemma path_Split_no_slash (s : string) :
  has_slash s = false → path_Split s = ("", s).
Proof.
  induction s as [|c s IH]; [done|]. cbn [has_slash path_Split].
  destruct (decide (c = "/"%char)) as [->|Hc]; [done|].
  intros Hs. rewrite (IH Hs). cbn. by rewrite decide_True.
Qed.

Lemma path_Split_app_no_slash (p s : string) :
  has_slash s = false →
  path_Split (p +:+ s) = ((path_Split p).1, (path_Split p).2 +:+ s).
Proof.
  intros Hs. induction p as [|c p IH].
  - rewrite app_nil. by rewrite (path_Split_no_slash s Hs).
  - rewrite app_cons. cbn [path_Split].
    rewrite IH. destruct (path_Split p) as [d f]. cbn.
    destruct (decide (d = "")); [destruct (decide (c = "/"%char))|]; done.
Qed.

Lemma hexdigit_not_slash (n : N) : hexdigit n ≠ "/"%char.
Proof.
  destruct n as [|p]; [done|].
  do 5 (try destruct p as [p|p|]); done.
Qed.

Lemma encodeHex_no_slash (bs : list N) : has_slash (encodeHex bs) = false.
Proof.
  induction bs as [|b bs IH]; [done|]. cbn.
  rewrite !decide_False by apply hexdigit_not_slash. done.
Qed.

Lemma UUID_String_no_slash (u : UUID) : has_slash (UUID_String u) = false.
Proof.
  unfold UUID_String. rewrite !has_slash_app, !encodeHex_no_slash. done.
Qed.

Lemma staged_same_dir (p : string) (u : UUID) :
  dir_of (p +:+ ".tmp-" +:+ UUID_String u) = dir_of p.
Proof.
  unfold dir_of. rewrite path_Split_app_no_slash; [done|].
  rewrite has_slash_app, UUID_String_no_slash. done.
Qed.

Lemma staged_ne (p : string) (u : UUID) : p +:+ ".tmp-" +:+ UUID_String u ≠ p.
Proof. apply app_ne_self. done. Qed.

(** ** One staged name per token *)

Lemma unhex_hexdigit (n : N) : (n < 16)%N → unhex (hexdigit n) = n.
Proof.
  intros Hn. destruct n as [|p]; [done|].
  do 4 (try destruct p as [p|p|]); try done; lia.
Qed.

Lemma hexdigit_not_dash (n : N) : hexdigit n ≠ "-"%char.
Proof.
  destruct n as [|p]; [done|].
  do 5 (try destruct p as [p|p|]); done.
Qed.

Lemma strip_dashes_app (a b : string) :
  strip_dashes (a +:+ b) = strip_dashes a +:+ strip_dashes b.
Proof.
  induction a as [|c a IH]; [done|]. rewrite app_cons. cbn [strip_dashes].
  case_decide; [done|]. by rewrite app_cons, IH.
Qed.

Lemma strip_dashes_encodeHex (bs : list N) : strip_dashes (encodeHex bs) = encodeHex bs.
Proof.
  induction bs as [|b bs IH]; [done|]. cbn.
  rewrite !decide_False by apply hexdigit_not_dash. by rewrite IH.
Qed.

Lemma encodeHex_app (a b : list N) : encodeHex (a ++ b) = encodeHex a +:+ encodeHex b.
Proof. induction a as [|x a IH]; [done|]. cbn. by rewrite IH. Qed.

Lemma byte_of_nibbles (b : N) : (b < 256)%N → (N.shiftr b 4 * 16 + N.land b 15 = b)%N.
Proof.
  intros Hb. rewrite N.shiftr_div_pow2. change 15%N with (N.ones 4).
  rewrite N.land_ones. change (2 ^ 4)%N with 16%N.
  pose proof (N.div_mod b 16). lia.
Qed.

Lemma nibbles_lt (b : N) : (b < 256)%N → (N.shiftr b 4 < 16)%N ∧ (N.land b 15 < 16)%N.
Proof.
  intros Hb. rewrite N.shiftr_div_pow2. change 15%N with (N.ones 4).
  rewrite N.land_ones. change (2 ^ 4)%N with 16%N. split.
  - apply N.Div0.div_lt_upper_bound. lia.
  - apply N.mod_lt. lia.
Qed.

Lemma encodeHex_inj (a b : list N) :
  Forall (λ x, (x < 256)%N) a → Forall (λ x, (x < 256)%N) b →
  encodeHex a = encodeHex b → a = b.
Proof.
  intros Ha. revert b. induction Ha as [|x a Hx Ha IH]; intros b Hb.
  - destruct b; [done|]. discriminate.
  - destruct Hb as [|y b Hy Hb]; [discriminate|]. cbn. intros [= H1 H2 H3].
    destruct (nibbles_lt x Hx) as [Hx1 Hx2]. destruct (nibbles_lt y Hy) as [Hy1 Hy2].
    apply (f_equal unhex) in H1, H2. rewrite !unhex_hexdigit in H1, H2 by done.
    f_equal; [|by apply IH].
    rewrite <-(byte_of_nibbles x Hx), <-(byte_of_nibbles y Hy). congruence.
Qed.

Lemma strip_dashes_UUID_String (u : UUID) :
  length u = 16%nat → strip_dashes (UUID_String u) = encodeHex u.
Proof.
  intros Hlen. unfold UUID_String.
  rewrite !strip_dashes_app, !strip_dashes_encodeHex.
  change (strip_dashes "-") with "". rewrite !app_nil, <-!encodeHex_app.
  f_equal. do 17 (destruct u as [|? u]; try done).
Qed.

(** Two tokens give two names. *)
Lemma UUID_String_inj (u1 u2 : UUID) :
  length u1 = 16%nat → length u2 = 16%nat →
  Forall (λ x, (x < 256)%N) u1 → Forall (λ x, (x < 256)%N) u2 →
  UUID_String u1 = UUID_String u2 → u1 = u2.
Proof.
  intros Hl1 Hl2 Hb1 Hb2 Heq. apply encodeHex_inj; [done..|].
  by rewrite <-!strip_dashes_UUID_String, Heq.
Qed.

(** * Facts about the system calls *)

Ltac go_unfold := unfold mbind, Go_bind, mret, Go_ret, panic in *.

Lemma next_fault_frame (w : World) :
  let w1 := (next_fault w).2 in
  w_home w1 = w_home w ∧ w_fs w1 = w_fs w ∧ w_dbs w1 = w_dbs w ∧
  w_rand w1 = w_rand w ∧ w_once w1 = w_once w ∧ w_logger w1 = w_logger w.
Proof. unfold next_fault. destruct (w_faults w); done. Qed.

(** A system call whose semantics keeps [P] keeps it whatever the plan says. *)
Lemma syscall_keeps {A} (P : World → Prop) (failed : error → A) sem (w : World) r w' :
  (∀ w0, P w0 → P (next_fault w0).2) →
  (∀ w0, P w0 → P (sem w0).2) →
  P w → syscall failed sem w = (r, w') → P w'.
Proof.
  intros Hn Hsem HP. unfold syscall.
  specialize (Hn w HP). destruct (next_fault w) as [f w1]. cbn in Hn.
  destruct (verdict_of f).
  - specialize (Hsem w1 Hn). destruct (sem w1) as [r2 w2]. by intros [= _ <-].
  - by intros [= _ <-].
  - by intros [= _ <-].
Qed.

Lemma same_disk_refl w : same_disk w w.
Proof. done. Qed.

Lemma same_disk_trans w1 w2 w3 : same_disk w1 w2 → same_disk w2 w3 → same_disk w1 w3.
Proof. intros [? ?] [? ?]. split; congruence. Qed.

Lemma same_disk_next_fault w0 w : same_disk w0 w → same_disk w0 (next_fault w).2.
Proof.
  intros [? ?]. destruct (next_fault_frame w) as (?&Hfs&_). split; [congruence|].
  by rewrite Hfs.
Qed.

Lemma os_UserHomeDir_frame w r w' : os_UserHomeDir w = (r, w') → w' = w.
Proof. unfold os_UserHomeDir. case_decide; by intros [= _ <-]. Qed.

Lemma os_UserHomeDir_ok w : w_home w ≠ "" → os_UserHomeDir w = (Ret (w_home w, None), w).
Proof. intros. unfold os_UserHomeDir. by rewrite decide_False. Qed.

Lemma os_UserHomeDir_unset w :
  w_home w = "" → os_UserHomeDir w = (Ret ("", Some (ErrorString "$HOME is not defined")), w).
Proof. intros. unfold os_UserHomeDir. by rewrite decide_True. Qed.

Lemma os_MkdirAll_same_disk p w r w' : os_MkdirAll p w = (r, w') → same_disk w w'.
Proof.
  apply (syscall_keeps (same_disk w)); [apply same_disk_next_fault| |done].
  intros w0 Hw0. cbv beta zeta. case_decide; [done|]. apply Hw0.
Qed.

Lemma uuid_NewRandom_same_disk w r w' : uuid_NewRandom w = (r, w') → same_disk w w'.
Proof.
  apply (syscall_keeps (same_disk w)); [apply same_disk_next_fault| |done].
  intros w0 Hw0. cbv beta zeta. case_decide; apply Hw0.
Qed.

Lemma uuid_Must_frame x w r w' : uuid_Must x w = (r, w') → w' = w.
Proof. unfold uuid_Must. destruct x.2; by intros [= _ <-]. Qed.

Lemma os_WriteFile_other name data w r w' k :
  os_WriteFile name data w = (r, w') → k ≠ name →
  w_home w' = w_home w ∧ files (w_fs w') !! k = files (w_fs w) !! k.
Proof.
  unfold os_WriteFile. destruct (next_fault_frame w) as (Hh&Hfs&_).
  destruct (next_fault w) as [f w1]. cbn in Hh, Hfs. intros Hr Hk.
  destruct f; [case_decide|..]; injection Hr as <- <-; cbn;
    rewrite ?lookup_insert_ne by done; rewrite ?Hfs; done.
Qed.

Lemma os_WriteFile_done name data w w' :
  os_WriteFile name data w = (Ret None, w') → files (w_fs w') !! name = Some data.
Proof.
  unfold os_WriteFile. destruct (next_fault w) as [f w1].
  destruct f; [case_decide|..]; intros [= <-]. cbn. apply lookup_insert_eq.
Qed.

Lemma os_Rename_spec o n w r w' :
  os_Rename o n w = (r, w') →
  w_home w' = w_home w ∧
  ((r = Ret None ∧ ∃ c, files (w_fs w) !! o = Some c ∧
      files (w_fs w') = <[n := c]> (delete o (files (w_fs w))))
   ∨ (r ≠ Ret None ∧ files (w_fs w') = files (w_fs w))).
Proof.
  unfold os_Rename, syscall. destruct (next_fault_frame w) as (Hh&Hfs&_).
  destruct (next_fault w) as [f w1]. cbn in Hh, Hfs.
  destruct (verdict_of f).
  - destruct (files (w_fs w1) !! o) as [c|] eqn:Ho.
    + case_decide; intros [= <- <-]; (split; [done|]).
      * right. by rewrite Hfs.
      * left. split; [done|]. exists c. rewrite <-Hfs. done.
    + case_decide; intros [= <- <-]; (split; [done|]); right; by rewrite Hfs.
  - intros [= <- <-]. split; [done|]. right. by rewrite Hfs.
  - intros [= <- <-]. split; [done|]. right. by rewrite Hfs.
Qed.

Section config_facts.
Context `{Platform}.

Lemma MakeHishtoryDir_same_disk w r w' : MakeHishtoryDir w = (r, w') → same_disk w w'.
Proof.
  unfold MakeHishtoryDir. go_unfold.
  destruct (os_UserHomeDir w) as [[[h [e|]]|e|] w1] eqn:E1;
    apply os_UserHomeDir_frame in E1 as ->; try by intros [= _ <-].
  destruct (os_MkdirAll _ w) as [[[e|]|e|] w2] eqn:E2;
    apply os_MkdirAll_same_disk in E2; by intros [= _ <-].
Qed.

Local Ltac set_config_done :=
  repeat split; intros; try done; try congruence; auto.

(** The two ways [SetConfig] can end: it returned nil after the rename, or
    the target was not touched. *)
Lemma SetConfig_cases (config : ClientConfig) (w : World) r w' :
  SetConfig config w = (r, w') →
  w_home w' = w_home w ∧
  ((r = Ret None ∧ (json_Marshal config).2 = None ∧ w_home w ≠ "" ∧
    ∃ u, files (w_fs w') =
           <[configPath (w_home w) := (json_Marshal config).1]>
             (delete (stagedConfigPath (w_home w) u) (files (w_fs w))))
   ∨ (r ≠ Ret None ∧
      files (w_fs w') !! configPath (w_home w) = files (w_fs w) !! configPath (w_home w))).
Proof.
  unfold SetConfig.
  destruct (json_Marshal config) as [ser [e0|]] eqn:EM; cbn [fst snd].
  { go_unfold. intros [= <- <-]. by set_config_done. }
  go_unfold.
  destruct (decide (w_home w = "")) as [Hh|Hh].
  { rewrite (os_UserHomeDir_unset w Hh). intros [= <- <-]. by set_config_done. }
  rewrite (os_UserHomeDir_ok w Hh). fold (configPath (w_home w)).
  destruct (MakeHishtoryDir w) as [r1 w1] eqn:E1.
  pose proof (MakeHishtoryDir_same_disk _ _ _ E1) as [Hh1 Hf1].
  destruct r1 as [[e1|]|e1|];
    try (intros [= <- <-]; rewrite Hf1; split; [congruence|by right]).
  destruct (uuid_NewRandom w1) as [r2 w2] eqn:E2.
  pose proof (uuid_NewRandom_same_disk _ _ _ E2) as [Hh2 Hf2].
  destruct r2 as [[u eu]|e2|];
    try (intros [= <- <-]; rewrite Hf2, Hf1; split; [congruence|by right]).
  unfold uuid_Must, panic, mret, Go_ret. cbn [fst snd]. destruct eu as [e2|];
    try (intros [= <- <-]; rewrite Hf2, Hf1; split; [congruence|by right]).
  fold (stagedConfigPath (w_home w) u).
  destruct (os_WriteFile (stagedConfigPath (w_home w) u) ser w2) as [r3 w3] eqn:E3.
  pose proof (os_WriteFile_other _ _ _ _ _ (configPath (w_home w)) E3) as [Hh3 Hf3].
  { intros Heq. symmetry in Heq. by apply staged_ne in Heq. }
  destruct r3 as [[e3|]|e3|];
    try (intros [= <- <-]; rewrite Hf3, Hf2, Hf1; split; [congruence|by right]).
  pose proof (os_WriteFile_done _ _ _ _ E3) as Hst.
  destruct (os_Rename (stagedConfigPath (w_home w) u) (configPath (w_home w)) w3)
    as [r4 w4] eqn:E4.
  pose proof (os_Rename_spec _ _ _ _ _ E4) as [Hh4 [(-> & c & Hc & Hf4)|(Hne & Hf4)]].
  - rewrite Hst in Hc. injection Hc as <-. intros [= <- <-].
    split; [congruence|]. left. repeat split; try done. exists u.
    rewrite Hf4. f_equal. apply map_eq. intros k.
    destruct (decide (k = stagedConfigPath (w_home w) u)) as [->|Hk].
    + by rewrite !lookup_delete_eq.
    + rewrite !lookup_delete_ne by done.
      destruct (os_WriteFile_other _ _ _ _ _ k E3 Hk) as [_ ->].
      by rewrite Hf2, Hf1.
  - destruct r4 as [[e4|]|e4|]; try done;
      intros [= <- <-]; rewrite Hf4, Hf3, Hf2, Hf1; (split; [congruence|by right]).
Qed.

Lemma stagedConfigPath_inj (home : string) (u1 u2 : UUID) :
  length u1 = 16%nat → length u2 = 16%nat →
  Forall (λ x, (x < 256)%N) u1 → Forall (λ x, (x < 256)%N) u2 →
  stagedConfigPath home u1 = stagedConfigPath home u2 → u1 = u2.
Proof.
  intros Hl1 Hl2 Hb1 Hb2 Heq. apply UUID_String_inj; [done..|].
  unfold stagedConfigPath in Heq. by do 2 apply (inj (String.app _)) in Heq.
Qed.

Lemma SetConfig_write_fails (config : ClientConfig) (w w1 w2 w3 : World) (u : UUID) (e : error) :
  (json_Marshal config).2 = None → w_home w ≠ "" →
  MakeHishtoryDir w = (Ret None, w1) →
  uuid_NewRandom w1 = (Ret (u, None), w2) →
  os_WriteFile (stagedConfigPath (w_home w) u) (json_Marshal config).1 w2 = (Ret (Some e), w3) →
  SetConfig config w = (Ret (Some (Errorf "failed to write config" (Some e))), w3).
Proof.
  intros EM Hh E1 E2 E3. unfold SetConfig.
  destruct (json_Marshal config) as [ser [e0|]]; [done|]. go_unfold.
  rewrite (os_UserHomeDir_ok w Hh), E1, E2. unfold uuid_Must; cbn [fst snd]. go_unfold.
  fold (configPath (w_home w)). fold (stagedConfigPath (w_home w) u).
  cbn [fst snd] in E3. by rewrite E3.
Qed.

Lemma SetConfig_rename_fails (config : ClientConfig) (w w1 w2 w3 w4 : World) (u : UUID) (e : error) :
  (json_Marshal config).2 = None → w_home w ≠ "" →
  MakeHishtoryDir w = (Ret None, w1) →
  uuid_NewRandom w1 = (Ret (u, None), w2) →
  os_WriteFile (stagedConfigPath (w_home w) u) (json_Marshal config).1 w2 = (Ret None, w3) →
  os_Rename (stagedConfigPath (w_home w) u) (configPath (w_home w)) w3 = (Ret (Some e), w4) →
  SetConfig config w =
    (Ret (Some (Errorf "failed to replace config file with the updated version" (Some e))), w4).
Proof.
  intros EM Hh E1 E2 E3 E4. unfold SetConfig.
  destruct (json_Marshal config) as [ser [e0|]]; [done|]. go_unfold.
  rewrite (os_UserHomeDir_ok w Hh), E1, E2. unfold uuid_Must; cbn [fst snd]. go_unfold.
  fold (configPath (w_home w)). fold (stagedConfigPath (w_home w) u).
  cbn [fst snd] in E3. by rewrite E3, E4.
Qed.

(** C1. [SetConfig] stages the serialized record in a file next to the
    target and renames it over the target. Whatever happens on the way (an
    error, a panic, the process dying at or inside any system call), the
    target holds either what it held before or the whole new record; when
    [SetConfig] returns an error the target is as it was; when it returns
    nil the target holds the new record, moved there from a staged file of
    the same directory; a failing write or rename makes it return an error;
    and two different random tokens give two different staged names. *)
Theorem SetConfig_atomic_replace (config : ClientConfig) (w : World) :
  let target := configPath (w_home w) in
  let serialized := (json_Marshal config).1 in
  let prior := files (w_fs w) !! target in
  let r := (SetConfig config w).1 in
  let w' := (SetConfig config w).2 in
  let now := files (w_fs w') !! target in
  (now = prior ∨ now = Some serialized) ∧
  (∀ e, r = Ret (Some e) → now = prior) ∧
  (r = Ret None →
     ∃ u, let staged := stagedConfigPath (w_home w) u in
       dir_of staged = dir_of target ∧ staged ≠ target ∧
       files (w_fs w') = <[target := serialized]> (delete staged (files (w_fs w)))) ∧
  (∀ w1 u w2 e w3,
     (json_Marshal config).2 = None → w_home w ≠ "" →
     MakeHishtoryDir w = (Ret None, w1) →
     uuid_NewRandom w1 = (Ret (u, None), w2) →
     os_WriteFile (stagedConfigPath (w_home w) u) serialized w2 = (Ret (Some e), w3) →
     SetConfig config w = (Ret (Some (Errorf "failed to write config" (Some e))), w3)) ∧
  (∀ w1 u w2 w3 e w4,
     (json_Marshal config).2 = None → w_home w ≠ "" →
     MakeHishtoryDir w = (Ret None, w1) →
     uuid_NewRandom w1 = (Ret (u, None), w2) →
     os_WriteFile (stagedConfigPath (w_home w) u) serialized w2 = (Ret None, w3) →
     os_Rename (stagedConfigPath (w_home w) u) target w3 = (Ret (Some e), w4) →
     SetConfig config w =
       (Ret (Some (Errorf "failed to replace config file with the updated version" (Some e))), w4)) ∧
  (∀ u1 u2 : UUID,
     length u1 = 16%nat → length u2 = 16%nat →
     Forall (λ x, (x < 256)%N) u1 → Forall (λ x, (x < 256)%N) u2 →
     stagedConfigPath (w_home w) u1 = stagedConfigPath (w_home w) u2 → u1 = u2).
Proof.
  cbv zeta.
  assert (Hfail : (∀ w1 u w2 e w3,
     (json_Marshal config).2 = None → w_home w ≠ "" →
     MakeHishtoryDir w = (Ret None, w1) →
     uuid_NewRandom w1 = (Ret (u, None), w2) →
     os_WriteFile (stagedConfigPath (w_home w) u) (json_Marshal config).1 w2
       = (Ret (Some e), w3) →
     SetConfig config w = (Ret (Some (Errorf "failed to write config" (Some e))), w3)) ∧
  (∀ w1 u w2 w3 e w4,
     (json_Marshal config).2 = None → w_home w ≠ "" →
     MakeHishtoryDir w = (Ret None, w1) →
     uuid_NewRandom w1 = (Ret (u, None), w2) →
     os_WriteFile (stagedConfigPath (w_home w) u) (json_Marshal config).1 w2 = (Ret None, w3) →
     os_Rename (stagedConfigPath (w_home w) u) (configPath (w_home w)) w3
       = (Ret (Some e), w4) →
     SetConfig config w =
       (Ret (Some (Errorf "failed to replace config file with the updated version" (Some e))), w4)) ∧
  (∀ u1 u2 : UUID,
     length u1 = 16%nat → length u2 = 16%nat →
     Forall (λ x, (x < 256)%N) u1 → Forall (λ x, (x < 256)%N) u2 →
     stagedConfigPath (w_home w) u1 = stagedConfigPath (w_home w) u2 → u1 = u2)).
  { split; [|split].
    - intros *. apply SetConfig_write_fails.
    - intros *. apply SetConfig_rename_fails.
    - intros *. apply stagedConfigPath_inj. }
  destruct (SetConfig config w) as [r w'] eqn:E. cbn [fst snd].
  destruct (SetConfig_cases _ _ _ _ E) as [_ [(-> & _ & _ & u & Hf)|(Hne & Hf)]].
  - rewrite Hf, lookup_insert_eq. split; [by right|]. split; [done|]. split; [|done].
    intros _. exists u. cbv zeta. split; [apply staged_same_dir|]. split; [apply staged_ne|done].
  - rewrite Hf. split; [by left|]. split; [done|]. split; [done|]. done.
Qed.

Lemma os_ReadFile_present p w data :
  files (w_fs w) !! p = Some data →
  verdict_of (next_fault w).1 = Proceed →
  os_ReadFile p w = (Ret (data, None), (next_fault w).2).
Proof.
  intros Hp Hv. unfold os_ReadFile, syscall.
  destruct (next_fault_frame w) as (_&Hfs&_).
  destruct (next_fault w) as [f w1]. cbn in *. rewrite Hv, Hfs, Hp. done.
Qed.

Lemma GetConfigContents_present w data :
  w_home w ≠ "" →
  files (w_fs w) !! configPath (w_home w) = Some data →
  verdict_of (next_fault w).1 = Proceed →
  GetConfigContents w = (Ret (data, None), (next_fault w).2).
Proof.
  intros Hh Hp Hv. unfold GetConfigContents. go_unfold.
  rewrite (os_UserHomeDir_ok w Hh). fold (configPath (w_home w)).
  by rewrite (os_ReadFile_present _ _ _ Hp Hv).
Qed.

(** What [GetConfig] makes of the record that [json.Unmarshal] produced. *)
Lemma GetConfig_present w data stored :
  w_home w ≠ "" →
  files (w_fs w) !! configPath (w_home w) = Some data →
  verdict_of (next_fault w).1 = Proceed →
  json_Unmarshal data ClientConfig_zero = (stored, None) →
  GetConfig w =
    (Ret (set_TimestampFormat
            (if bool_decide (TimestampFormat stored = "")
             then default_TimestampFormat else TimestampFormat stored)
            (set_DisplayedColumns
               (if bool_decide (len (DisplayedColumns stored) = 0%nat)
                then Some default_DisplayedColumns else DisplayedColumns stored)
               stored), None),
     (next_fault w).2).
Proof.
  intros Hh Hp Hv Hj. unfold GetConfig. go_unfold.
  rewrite (GetConfigContents_present _ _ Hh Hp Hv), Hj.
  f_equal. f_equal. f_equal.
  destruct stored as [? ? ? ? ? ? ? ? dc ? ? ? tf]. cbn.
  destruct dc as [[|x l]|]; cbn; repeat (case_bool_decide; cbn in *; try done).
Qed.

(** C2 (amended). When the configuration file is there, reads, and parses
    into a record [stored], [GetConfig] returns without error a record whose
    [DisplayedColumns] and [TimestampFormat] are not empty: an absent or
    empty stored [DisplayedColumns] becomes the six columns Hostname, CWD,
    Timestamp, Runtime, Exit Code, Command; an empty stored
    [TimestampFormat] becomes the default pattern; non-empty stored values
    and all the other fields are returned as stored. *)
Theorem GetConfig_fills_defaults (w : World) (data : string) (stored : ClientConfig) :
  w_home w ≠ "" →
  files (w_fs w) !! configPath (w_home w) = Some data →
  verdict_of (next_fault w).1 = Proceed →
  json_Unmarshal data ClientConfig_zero = (stored, None) →
  ∃ config,
    GetConfig w = (Ret (config, None), (next_fault w).2) ∧
    len (DisplayedColumns config) ≠ 0%nat ∧
    TimestampFormat config ≠ "" ∧
    (len (DisplayedColumns stored) = 0%nat →
       DisplayedColumns config =
         Some ["Hostname"; "CWD"; "Timestamp"; "Runtime"; "Exit Code"; "Command"]) ∧
    (len (DisplayedColumns stored) ≠ 0%nat →
       DisplayedColumns config = DisplayedColumns stored) ∧
    (TimestampFormat stored = "" → TimestampFormat config = "Jan 2 2006 15:04:05 MST") ∧
    (TimestampFormat stored ≠ "" → TimestampFormat config = TimestampFormat stored) ∧
    UserSecret config = UserSecret stored ∧
    IsEnabled config = IsEnabled stored ∧
    DeviceId config = DeviceId stored ∧
    LastSavedHistoryLine config = LastSavedHistoryLine stored ∧
    HaveMissedUploads config = HaveMissedUploads stored ∧
    MissedUploadTimestamp config = MissedUploadTimestamp stored ∧
    HaveCompletedInitialImport config = HaveCompletedInitialImport stored ∧
    ControlRSearchEnabled config = ControlRSearchEnabled stored ∧
    CustomColumns config = CustomColumns stored ∧
    IsOffline config = IsOffline stored ∧
    FilterDuplicateCommands config = FilterDuplicateCommands stored.
Proof.
  intros Hh Hp Hv Hj. eexists. split; [by apply (GetConfig_present _ data)|].
  cbn. repeat case_bool_decide; repeat split; try done; intros; congruence.
Qed.

(** C9. Whenever [GetConfig] returns an error, the record next to it is the
    zero [ClientConfig]: no default has been filled in. *)
Theorem GetConfig_error_zero (w : World) (config : ClientConfig) (e : error) (w' : World) :
  GetConfig w = (Ret (config, Some e), w') →
  config = ClientConfig_zero ∧ DisplayedColumns config = None ∧ TimestampFormat config = "".
Proof.
  unfold GetConfig. go_unfold.
  destruct (GetConfigContents w) as [[[d [e'|]]|e'|] w1]; try congruence.
  - by intros [= <- _ _].
  - destruct (json_Unmarshal d ClientConfig_zero) as [c [e'|]]; [|congruence].
    by intros [= <- _ _].
Qed.

(** C4. A record that [encoding/json] writes and reads back unchanged
    survives [SetConfig] followed by [GetConfig]: once the save has returned
    nil, the next load (its read not failing) returns the record, equal in
    every field, except that an empty [DisplayedColumns] has become the six
    default columns and an empty [TimestampFormat] the default pattern. *)
Theorem SetConfig_GetConfig_roundtrip (r : ClientConfig) (w w1 : World) :
  json_Unmarshal (json_Marshal r).1 ClientConfig_zero = (r, None) →
  SetConfig r w = (Ret None, w1) →
  verdict_of (next_fault w1).1 = Proceed →
  ∃ config,
    GetConfig w1 = (Ret (config, None), (next_fault w1).2) ∧
    DisplayedColumns config =
      (if bool_decide (len (DisplayedColumns r) = 0%nat)
       then Some ["Hostname"; "CWD"; "Timestamp"; "Runtime"; "Exit Code"; "Command"]
       else DisplayedColumns r) ∧
    TimestampFormat config =
      (if bool_decide (TimestampFormat r = "")
       then "Jan 2 2006 15:04:05 MST" else TimestampFormat r) ∧
    UserSecret config = UserSecret r ∧
    IsEnabled config = IsEnabled r ∧
    DeviceId config = DeviceId r ∧
    LastSavedHistoryLine config = LastSavedHistoryLine r ∧
    HaveMissedUploads config = HaveMissedUploads r ∧
    MissedUploadTimestamp config = MissedUploadTimestamp r ∧
    HaveCompletedInitialImport config = HaveCompletedInitialImport r ∧
    ControlRSearchEnabled config = ControlRSearchEnabled r ∧
    CustomColumns config = CustomColumns r ∧
    IsOffline config = IsOffline r ∧
    FilterDuplicateCommands config = FilterDuplicateCommands r.
Proof.
  intros Hj Hs Hv.
  destruct (SetConfig_cases _ _ _ _ Hs) as [Hh [(_ & _ & Hne & u & Hf)|(? & _)]]; [|done].
  eexists. split.
  - apply (GetConfig_present w1 (json_Marshal r).1 r); [congruence| |done|done].
    rewrite Hh, Hf. apply lookup_insert_eq.
  - cbn. done.
Qed.

(** C7. [InitConfig] looks the configuration file up. When it is not there,
    [InitConfig] is [SetConfig] of the zero record: it returns what the save
    returns, and after a save that returned nil the file holds the
    serialized zero record. When the file is there, [InitConfig] returns nil
    and the disk is as it was. When the look-up fails for another reason,
    that error is returned as it is and the disk is as it was. *)
Theorem InitConfig_cases (w : World) :
  w_home w ≠ "" →
  let target := configPath (w_home w) in
  let w0 := (next_fault w).2 in
  (verdict_of (next_fault w).1 = Proceed → fs_exists target (w_fs w) = false →
     InitConfig w = SetConfig ClientConfig_zero w0 ∧
     ((InitConfig w).1 = Ret None →
        files (w_fs (InitConfig w).2) !! target = Some (json_Marshal ClientConfig_zero).1)) ∧
  (verdict_of (next_fault w).1 = Proceed → fs_exists target (w_fs w) = true →
     InitConfig w = (Ret None, w0) ∧ w_fs w0 = w_fs w) ∧
  (∀ e, verdict_of (next_fault w).1 = Refuse e →
     InitConfig w = (Ret (Some (Errno e)), w0) ∧ w_fs w0 = w_fs w).
Proof.
  intros Hh. cbv zeta. unfold InitConfig. go_unfold.
  rewrite (os_UserHomeDir_ok w Hh). fold (configPath (w_home w)).
  unfold os_Stat, syscall.
  destruct (next_fault_frame w) as (Hh0 & Hfs & _).
  destruct (next_fault w) as [f w0]. cbn [fst snd] in *.
  destruct (verdict_of f) as [|e0|]; rewrite ?Hfs; (split; [|split]); try done.
  - intros _ Hex. rewrite Hex. cbn. split; [done|].
    destruct (SetConfig ClientConfig_zero w0) as [r w'] eqn:E. cbn. intros ->.
    destruct (SetConfig_cases _ _ _ _ E) as [_ [(_ & _ & _ & u & Hf)|(? & _)]]; [|done].
    rewrite Hf, Hh0. apply lookup_insert_eq.
  - intros _ Hex. rewrite Hex. done.
  - by intros e [= <-].
Qed.

End config_facts.

(** * The package on the reference platform *)

Lemma SetConfig_atomic_replace_witness :
  let w := world_with_config "{}" in
  (SetConfig ClientConfig_zero w).1 = Ret None ∧
  files (w_fs (SetConfig ClientConfig_zero w).2) !! configPath (w_home w) =
    Some (json_Marshal ClientConfig_zero).1.
Proof.
  cbv zeta.
  destruct (SetConfig_atomic_replace ClientConfig_zero (world_with_config "{}"))
    as (_ & _ & Hok & _).
  assert (Hr : (SetConfig ClientConfig_zero (world_with_config "{}")).1 = Ret None)
    by (vm_compute; reflexivity).
  split; [exact Hr|].
  destruct (Hok Hr) as (u & _ & _ & ->). apply lookup_insert_eq.
Defined.

Lemma GetConfig_fills_defaults_witness :
  let w := world_with_config "{}" in
  w_home w ≠ "" ∧
  files (w_fs w) !! configPath (w_home w) = Some "{}" ∧
  verdict_of (next_fault w).1 = Proceed ∧
  json_Unmarshal "{}" ClientConfig_zero = (ClientConfig_zero, None) ∧
  ∃ config, GetConfig w = (Ret (config, None), (next_fault w).2) ∧
    DisplayedColumns config =
      Some ["Hostname"; "CWD"; "Timestamp"; "Runtime"; "Exit Code"; "Command"] ∧
    TimestampFormat config = "Jan 2 2006 15:04:05 MST".
Proof.
  cbv zeta.
  assert (H1 : w_home (world_with_config "{}") ≠ "") by done.
  assert (H2 : files (w_fs (world_with_config "{}")) !! configPath (w_home (world_with_config "{}"))
               = Some "{}") by (vm_compute; reflexivity).
  assert (H3 : verdict_of (next_fault (world_with_config "{}")).1 = Proceed) by reflexivity.
  assert (H4 : json_Unmarshal "{}" ClientConfig_zero = (ClientConfig_zero, None))
    by (vm_compute; reflexivity).
  repeat (split; [assumption|]).
  destruct (GetConfig_fills_defaults _ _ _ H1 H2 H3 H4) as (config & Hg & _ & _ & Hd & _ & Ht & _).
  exists config. split; [exact Hg|]. split; [by apply Hd|by apply Ht].
Defined.

(** The claim with the column named ExitCode fails: loading a stored record
    without displayed columns gives a list that is not the one of the claim. *)
Lemma GetConfig_default_columns_counterexample :
  let w := world_with_config "{}" in
  json_Unmarshal "{}" ClientConfig_zero = (ClientConfig_zero, None) ∧
  DisplayedColumns ClientConfig_zero = None ∧
  ∃ config w', GetConfig w = (Ret (config, None), w') ∧
    DisplayedColumns config ≠
      Some ["Hostname"; "CWD"; "Timestamp"; "Runtime"; "ExitCode"; "Command"].
Proof.
  cbv zeta. split; [vm_compute; reflexivity|]. split; [reflexivity|].
  eexists _, _. split; [vm_compute; reflexivity|]. cbn. discriminate.
Qed.

Lemma GetConfig_error_zero_witness :
  ∃ e w', GetConfig fresh_World = (Ret (ClientConfig_zero, Some e), w') ∧
    ClientConfig_zero = ClientConfig_zero ∧
    DisplayedColumns ClientConfig_zero = None ∧ TimestampFormat ClientConfig_zero = "".
Proof.
  eexists _, _.
  assert (Hg : GetConfig fresh_World =
    (Ret (ClientConfig_zero,
          Some (Errorf "failed to read config file (and failed to list too)"
                  (Some (PathError "open" "/home/u/.hishtory" ErrNotExist)))), fresh_World))
    by (vm_compute; reflexivity).
  split; [exact Hg|]. exact (GetConfig_error_zero _ _ _ _ Hg).
Defined.

Lemma SetConfig_GetConfig_roundtrip_witness :
  let w1 := (SetConfig sample_config fresh_World).2 in
  json_Unmarshal (json_Marshal sample_config).1 ClientConfig_zero = (sample_config, None) ∧
  SetConfig sample_config fresh_World = (Ret None, w1) ∧
  verdict_of (next_fault w1).1 = Proceed ∧
  ∃ config, GetConfig w1 = (Ret (config, None), (next_fault w1).2) ∧
    DisplayedColumns config =
      Some ["Hostname"; "CWD"; "Timestamp"; "Runtime"; "Exit Code"; "Command"] ∧
    TimestampFormat config = "Jan 2 2006 15:04:05 MST" ∧
    UserSecret config = "shhhh" ∧
    CustomColumns config = Some [{| ColumnName := "git"; ColumnCommand := "git branch" |}].
Proof.
  cbv zeta.
  assert (H1 : json_Unmarshal (json_Marshal sample_config).1 ClientConfig_zero
               = (sample_config, None)) by (vm_compute; reflexivity).
  assert (H2 : SetConfig sample_config fresh_World
               = (Ret None, (SetConfig sample_config fresh_World).2))
    by (vm_compute; reflexivity).
  assert (H3 : verdict_of (next_fault (SetConfig sample_config fresh_World).2).1 = Proceed)
    by (vm_compute; reflexivity).
  repeat (split; [assumption|]).
  destruct (SetConfig_GetConfig_roundtrip _ _ _ H1 H2 H3)
    as (config & Hg & Hd & Ht & Hu & _ & _ & _ & _ & _ & _ & _ & Hc & _).
  exists config. repeat split; assumption.
Defined.

Lemma InitConfig_cases_witness :
  w_home fresh_World ≠ "" ∧
  verdict_of (next_fault fresh_World).1 = Proceed ∧
  fs_exists (configPath (w_home fresh_World)) (w_fs fresh_World) = false ∧
  (InitConfig fresh_World).1 = Ret None ∧
  files (w_fs (InitConfig fresh_World).2) !! configPath (w_home fresh_World) =
    Some (json_Marshal ClientConfig_zero).1.
Proof.
  assert (H1 : w_home fresh_World ≠ "") by done.
  assert (H2 : verdict_of (next_fault fresh_World).1 = Proceed) by reflexivity.
  assert (H3 : fs_exists (configPath (w_home fresh_World)) (w_fs fresh_World) = false)
    by (vm_compute; reflexivity).
  assert (H4 : (InitConfig fresh_World).1 = Ret None) by (vm_compute; reflexivity).
  repeat (split; [assumption|]).
  destruct (InitConfig_cases fresh_World H1) as [Hnew _].
  destruct (Hnew H2 H3) as [_ Hfile]. exact (Hfile H4).
Defined.

(** * ContextCarrier *)

Lemma Value_WithValue_eq c k v : Value (context_WithValue c k v) k = v.
Proof. cbn. by rewrite decide_True. Qed.

Lemma Value_WithValue_ne c k k' v : k ≠ k' → Value (context_WithValue c k v) k' = Value c k'.
Proof. intros. cbn. by rewrite decide_False. Qed.

(** C5. A carrier [c0] without a binding for a kind stays without it when
    frames for that kind are layered on it: each new carrier returns its own
    value, [c0] still makes the getter panic, and the bindings of the other
    keys are seen through the new frame. This holds for the configuration,
    the datastore handle and the home directory. *)
Theorem carrier_isolation (c0 : Context) (w : World) :
  (Value c0 contextConfigKey = None →
   ∀ v1 v2 : ClientConfig,
     GetConf (WithConf c0 v1) w = (Ret v1, w) ∧
     GetConf (WithConf c0 v2) w = (Ret v2, w) ∧
     GetConf c0 w = (Panic (ErrorString "failed to find config in ctx"), w) ∧
     ∀ k, k ≠ contextConfigKey → Value (WithConf c0 v1) k = Value c0 k) ∧
  (Value c0 contextDBKey = None →
   ∀ v1 v2 : option gorm_DB,
     GetDb (WithDb c0 v1) w = (Ret v1, w) ∧
     GetDb (WithDb c0 v2) w = (Ret v2, w) ∧
     GetDb c0 w = (Panic (ErrorString "failed to find db in ctx"), w) ∧
     ∀ k, k ≠ contextDBKey → Value (WithDb c0 v1) k = Value c0 k) ∧
  (Value c0 contextHomedirKey = None →
   ∀ v1 v2 : string,
     GetHome (WithHome c0 v1) w = (Ret v1, w) ∧
     GetHome (WithHome c0 v2) w = (Ret v2, w) ∧
     GetHome c0 w = (Panic (ErrorString "failed to find homedir in ctx"), w) ∧
     ∀ k, k ≠ contextHomedirKey → Value (WithHome c0 v1) k = Value c0 k).
Proof.
  split; [|split]; intros Hnone v1 v2.
  - unfold GetConf, WithConf. rewrite !Value_WithValue_eq, Hnone.
    repeat split. intros k Hk. by apply Value_WithValue_ne.
  - unfold GetDb, WithDb. rewrite !Value_WithValue_eq, Hnone.
    repeat split. intros k Hk. by apply Value_WithValue_ne.
  - unfold GetHome, WithHome. rewrite !Value_WithValue_eq, Hnone.
    repeat split. intros k Hk. by apply Value_WithValue_ne.
Qed.

(** The package's own test: a configuration stored in a context comes back. *)
Lemma TestCtxConfig (w : World) :
  let config := {|
    UserSecret := "shhhh"; IsEnabled := false; DeviceId := "some-id";
    LastSavedHistoryLine := ""; HaveMissedUploads := false; MissedUploadTimestamp := 0;
    HaveCompletedInitialImport := false; ControlRSearchEnabled := false;
    DisplayedColumns := None; CustomColumns := None; IsOffline := false;
    FilterDuplicateCommands := false; TimestampFormat := "" |} in
  ∃ ctxConfig, GetConf (WithConf Background config) w = (Ret ctxConfig, w) ∧
    UserSecret ctxConfig = UserSecret config ∧ DeviceId ctxConfig = DeviceId config.
Proof. cbv zeta. eexists. split; [reflexivity|]. done. Qed.

Lemma carrier_isolation_witness :
  let c0 := WithHome Background "/home/u" in
  Value c0 contextConfigKey = None ∧
  GetConf (WithConf c0 sample_config) fresh_World = (Ret sample_config, fresh_World) ∧
  GetConf (WithConf c0 ClientConfig_zero) fresh_World = (Ret ClientConfig_zero, fresh_World) ∧
  GetConf c0 fresh_World = (Panic (ErrorString "failed to find config in ctx"), fresh_World).
Proof.
  cbv zeta.
  assert (H0 : Value (WithHome Background "/home/u") contextConfigKey = None) by reflexivity.
  split; [exact H0|].
  destruct (carrier_isolation (WithHome Background "/home/u") fresh_World) as (Hc & _ & _).
  destruct (Hc H0 sample_config ClientConfig_zero) as (? & ? & ? & _). done.
Defined.

(** * LogSink and ResourceBootstrapper *)

Section bootstrap_facts.
Context `{Platform}.

Lemma MakeHishtoryDir_ok w :
  w_home w ≠ "" →
  verdict_of (next_fault w).1 = Proceed →
  files (w_fs w) !! hishtoryDir (w_home w) = None →
  MakeHishtoryDir w = (Ret None, add_dir (hishtoryDir (w_home w)) (next_fault w).2).
Proof.
  intros Hh Hv Hf. unfold MakeHishtoryDir. go_unfold.
  rewrite (os_UserHomeDir_ok w Hh). fold (hishtoryDir (w_home w)).
  unfold os_MkdirAll, syscall.
  destruct (next_fault_frame w) as (_ & Hfs & _).
  destruct (next_fault w) as [f w1]. cbn [fst snd] in *. rewrite Hv. cbv zeta.
  rewrite decide_False; [done|]. rewrite Hfs, Hf. by intros [? ?].
Qed.

(** C10. The first [GetLogger] of a process, on a machine where the home
    directory resolves and the tool's directory can be made, builds a logger
    that writes through lumberjack to [hishtory.log] in the tool's directory
    under the home directory, rotating at 1 megabyte, keeping 10 backups for
    30 days, with a text formatter of full RFC 3339 timestamps, at Info
    level; it is stored in the package variable and every later call
    returns it again. *)
Theorem GetLogger_sink (w : World) :
  w_once w = false →
  w_home w ≠ "" →
  verdict_of (next_fault w).1 = Proceed →
  files (w_fs w) !! hishtoryDir (w_home w) = None →
  ∃ lg w',
    GetLogger w = (Ret (Some lg), w') ∧
    lg_Out lg = Lumberjack {|
      Filename := path_Join [w_home w; data_GetHishtoryPath; "hishtory.log"];
      MaxSize := 1; MaxBackups := 10; MaxAge := 30 |} ∧
    lg_Formatter lg =
      {| tf_TimestampFormat := "2006-01-02T15:04:05Z07:00"; tf_FullTimestamp := true |} ∧
    lg_Level lg = InfoLevel ∧
    w_once w' = true ∧
    w_logger w' = Some lg ∧
    GetLogger w' = (Ret (Some lg), w').
Proof.
  intros Ho Hh Hv Hf.
  unfold GetLogger, Once_Do. go_unfold. rewrite Ho.
  rewrite (os_UserHomeDir_ok w Hh), (MakeHishtoryDir_ok w Hh Hv Hf).
  unfold store_hishtoryLogger, modify_logger, load_hishtoryLogger. cbn.
  eexists _, _. split; [reflexivity|]. cbn. repeat split.
Qed.

Lemma GetLogger_again w :
  w_once w = true → GetLogger w = (Ret (w_logger w), w).
Proof. intros Ho. unfold GetLogger, Once_Do. go_unfold. by rewrite Ho. Qed.

(** Every error [OpenLocalSqliteDb] returns comes from resolving the home
    directory, making the directory, opening, or pinging: the migration and
    the statements after it never contribute one. *)
Lemma OpenLocalSqliteDb_errors w db e w' :
  OpenLocalSqliteDb w = (Ret (db, Some e), w') →
  db = None ∧ ∃ cause,
    e = Errorf "failed to get user's home directory" (Some cause) ∨
    e = Errorf "failed to make hishtory dir" (Some cause) ∨
    e = Errorf "failed to connect to the DB" (Some cause) ∨
    e = Errorf "failed to get DB from gorm" (Some cause) ∨
    e = Errorf "failed to ping DB" (Some cause).
Proof.
  unfold OpenLocalSqliteDb. go_unfold.
  destruct (os_UserHomeDir w) as [[[h [e1|]]|?|] w1]; try done.
  { intros [= <- <- _]. eauto 10. }
  destruct (MakeHishtoryDir w1) as [[[e2|]|?|] w2]; try done.
  { intros [= <- <- _]. eauto 10. }
  destruct (GetLogger w2) as [[[lg|]|?|] w3]; try done.
  destruct (gorm_Open _ _ _ w3) as [[[[d|] [e4|]]|?|] w4]; try done;
    try (intros [= <- <- _]; by eauto 10).
  destruct (gorm_DB_DB d w4) as [[[[] [e5|]]|?|] w5]; try done.
  { intros [= <- <- _]. eauto 10. }
  destruct (sql_Ping d w5) as [[[e6|]|?|] w6]; try done.
  { intros [= <- <- _]. eauto 10. }
  destruct (gorm_AutoMigrate d data_HistoryEntry w6) as [[?|?|] w7]; try done.
  destruct (gorm_Exec d _ w7) as [[?|?|] w8]; try done.
  destruct (gorm_Exec d _ w8) as [[?|?|] w9]; done.
Qed.

End bootstrap_facts.

(** C3 on the code: the migration fails, so does the index creation (there
    is no table), and [OpenLocalSqliteDb] returns the handle with a nil
    error; the database is left without table and without index. *)
Lemma OpenLocalSqliteDb_swallows_migration_failure :
  ∃ db w',
    OpenLocalSqliteDb world_migration_fails = (Ret (Some db, None), w') ∧
    w_faults w' = [] ∧
    w_dbs w' !! db_dsn db = Some empty_Catalog.
Proof. eexists _, _. split; [vm_compute; reflexivity|]. split; vm_compute; reflexivity. Qed.

Lemma OpenLocalSqliteDb_swallows_index_failure :
  ∃ db w' c,
    OpenLocalSqliteDb world_index_fails = (Ret (Some db, None), w') ∧
    w_faults w' = [] ∧
    w_dbs w' !! db_dsn db = Some c ∧ indexes c = ∅.
Proof.
  eexists _, _, _. split; [vm_compute; reflexivity|].
  split; [vm_compute; reflexivity|]. split; vm_compute; reflexivity.
Qed.

Lemma GetLogger_sink_witness :
  w_once fresh_World = false ∧
  w_home fresh_World ≠ "" ∧
  verdict_of (next_fault fresh_World).1 = Proceed ∧
  files (w_fs fresh_World) !! hishtoryDir (w_home fresh_World) = None ∧
  ∃ lg w', GetLogger fresh_World = (Ret (Some lg), w') ∧
    lg_Out lg = Lumberjack {|
      Filename := "/home/u/.hishtory/hishtory.log";
      MaxSize := 1; MaxBackups := 10; MaxAge := 30 |}.
Proof.
  assert (H1 : w_once fresh_World = false) by reflexivity.
  assert (H2 : w_home fresh_World ≠ "") by done.
  assert (H3 : verdict_of (next_fault fresh_World).1 = Proceed) by reflexivity.
  assert (H4 : files (w_fs fresh_World) !! hishtoryDir (w_home fresh_World) = None)
    by reflexivity.
  repeat (split; [assumption|]).
  destruct (GetLogger_sink fresh_World H1 H2 H3 H4) as (lg & w' & Hg & Ho & _).
  exists lg, w'. split; [exact Hg|]. exact Ho.
Defined.

(** * Idempotent bootstrap *)

Lemma syscall_no_fault {A} (failed : error → A) sem w :
  w_faults w = [] → syscall failed sem w = (Ret (sem w).1, (sem w).2).
Proof.
  intros Hf. unfold syscall, next_fault. rewrite Hf. cbn. by destruct (sem w).
Qed.

Lemma add_index_tables i c : tables (add_index i c) = tables c.
Proof. unfold add_index. by destruct (indexes c !! i.1). Qed.

Lemma foldr_add_index_tables l c : tables (foldr add_index c l) = tables c.
Proof. induction l as [|i l IH]; [done|]. cbn. by rewrite add_index_tables. Qed.

Lemma add_index_lookup i c n :
  indexes (add_index i c) !! n =
    match indexes c !! n with
    | Some x => Some x
    | None => if decide (n = i.1) then Some i.2 else None
    end.
Proof.
  unfold add_index. destruct (indexes c !! i.1) eqn:E.
  - destruct (indexes c !! n) eqn:E'; [done|]. case_decide; [congruence|done].
  - cbn. destruct (decide (n = i.1)) as [->|Hn].
    + by rewrite lookup_insert_eq, E.
    + rewrite lookup_insert_ne by done. by destruct (indexes c !! n).
Qed.

Lemma add_index_present i c : is_Some (indexes c !! i.1) → add_index i c = c.
Proof. unfold add_index. by intros [x ->]. Qed.

Lemma add_index_keeps i c n : is_Some (indexes c !! n) → is_Some (indexes (add_index i c) !! n).
Proof. rewrite add_index_lookup. by intros [x ->]. Qed.

Lemma add_index_named i c :
  end_time_named i.1 i.2 → map_Forall end_time_named (indexes c) →
  map_Forall end_time_named (indexes (add_index i c)).
Proof.
  intros Hi Hc n x. rewrite add_index_lookup.
  destruct (indexes c !! n) eqn:E.
  - intros [= <-]. by apply (Hc n).
  - case_decide; [|done]. intros [= <-]. by subst.
Qed.

Lemma foldr_add_index_present l c :
  (∀ i, i ∈ l → is_Some (indexes c !! i.1)) → foldr add_index c l = c.
Proof.
  induction l as [|i l IH]; [done|]. intros Hl. cbn.
  rewrite IH by (intros; apply Hl; by right).
  apply add_index_present, Hl. by left.
Qed.

Lemma foldr_add_index_has l c i :
  i ∈ l → is_Some (indexes (foldr add_index c l) !! i.1).
Proof.
  induction l as [|j l IH]; [by intros ?%elem_of_nil|].
  intros [->|Hi]%elem_of_cons; cbn.
  - rewrite add_index_lookup.
    destruct (indexes (foldr add_index c l) !! j.1); [done|]. by rewrite decide_True.
  - by apply add_index_keeps, IH.
Qed.

Lemma foldr_add_index_named l c :
  Forall (λ ni, end_time_named ni.1 ni.2) l → map_Forall end_time_named (indexes c) →
  map_Forall end_time_named (indexes (foldr add_index c l)).
Proof.
  induction 1 as [|i l Hi Hl IH]; [done|]. intros Hc. cbn. by apply add_index_named, IH.
Qed.

Lemma migrate_tables s c :
  tables (migrate s c) =
    <[sch_table s := (default [] (tables c !! sch_table s)
                      ++ filter (λ x, x ∉ default [] (tables c !! sch_table s)) (sch_columns s))%list]>
      (tables c).
Proof. unfold migrate. by rewrite foldr_add_index_tables. Qed.

Lemma filter_none {A} (P : A → Prop) `{∀ x, Decision (P x)} (l : list A) :
  (∀ x, x ∈ l → ¬ P x) → filter P l = [].
Proof.
  induction l as [|x l IH]; [done|]. intros Hl.
  rewrite filter_cons, decide_False by (apply Hl; by left).
  apply IH. intros y Hy. apply Hl. by right.
Qed.

(** Migrating a migrated catalog changes nothing. *)
Lemma migrate_idempotent s c : migrate s (migrate s c) = migrate s c.
Proof.
  set (c1 := migrate s c).
  assert (Hcols : ∃ cols, tables c1 !! sch_table s = Some cols ∧ sch_columns s ⊆ cols).
  { unfold c1. rewrite migrate_tables, lookup_insert_eq. eexists. split; [done|].
    intros x Hx. apply elem_of_app.
    destruct (decide (x ∈ default [] (tables c !! sch_table s))); [by left|right].
    by apply list_elem_of_filter. }
  destruct Hcols as (cols & Ht & Hsub).
  unfold migrate at 1. rewrite Ht. cbn [default].
  rewrite (filter_none (λ x, x ∉ cols)) by (intros x Hx Hn; by apply Hn, Hsub).
  rewrite app_nil_r, (insert_id _ _ _ Ht).
  replace {| tables := tables c1; indexes := indexes c1 |} with c1 by by destruct c1.
  apply foldr_add_index_present. intros i Hi. unfold c1, migrate.
  by apply foldr_add_index_has.
Qed.

Lemma migrate_named s c :
  Forall (λ ni, end_time_named ni.1 ni.2) (sch_indexes s) →
  map_Forall end_time_named (indexes c) →
  map_Forall end_time_named (indexes (migrate s c)).
Proof. intros Hs Hc. unfold migrate. by apply foldr_add_index_named. Qed.

Lemma migrate_has_table s c :
  ∃ cols, tables (migrate s c) !! sch_table s = Some cols ∧ sch_columns s ⊆ cols.
Proof.
  rewrite migrate_tables, lookup_insert_eq. eexists. split; [done|].
  intros x Hx. apply elem_of_app.
  destruct (decide (x ∈ default [] (tables c !! sch_table s))); [by left|right].
  by apply list_elem_of_filter.
Qed.

Lemma create_end_time_index_idempotent c :
  create_end_time_index (create_end_time_index c) = create_end_time_index c.
Proof.
  unfold create_end_time_index at 2.
  destruct (indexes c !! "end_time_index") eqn:E.
  { unfold create_end_time_index. by rewrite E. }
  destruct (tables c !! "history_entries") as [cols|] eqn:Et.
  2:{ unfold create_end_time_index. by rewrite E, Et. }
  case_decide.
  2:{ unfold create_end_time_index. rewrite E, Et. by rewrite decide_False. }
  unfold create_end_time_index. rewrite add_index_lookup, E, Et. cbn. rewrite !decide_True by done. done.
Qed.

Lemma migrate_after_create s c :
  migrate s (create_end_time_index (migrate s c)) = create_end_time_index (migrate s c).
Proof.
  set (c1 := migrate s c).
  assert (Hm : migrate s c1 = c1) by apply migrate_idempotent.
  unfold create_end_time_index.
  destruct (indexes c1 !! "end_time_index") eqn:E; [done|].
  destruct (tables c1 !! "history_entries") as [cols|] eqn:Et; [|done].
  case_decide; [|done].
  (* the catalog gained the index: the migration still finds all it needs *)
  destruct (migrate_has_table s c) as (cols' & Ht' & Hsub). fold c1 in Ht'.
  set (c2 := add_index ("end_time_index", end_time_index) c1).
  assert (Htab : tables c2 = tables c1) by apply add_index_tables.
  unfold migrate. rewrite Htab, Ht'. cbn [default].
  rewrite (filter_none (λ x, x ∉ cols')) by (intros x Hx Hn; by apply Hn, Hsub).
  rewrite app_nil_r, (insert_id _ _ _ Ht'), <-Htab.
  replace {| tables := tables c2; indexes := indexes c2 |} with c2 by by destruct c2.
  apply foldr_add_index_present. intros i Hi.
  apply add_index_keeps. unfold c1, migrate. by apply foldr_add_index_has.
Qed.

Lemma bootstrap_catalog_idempotent s c :
  bootstrap_catalog s (bootstrap_catalog s c) = bootstrap_catalog s c.
Proof.
  unfold bootstrap_catalog. rewrite migrate_after_create.
  apply create_end_time_index_idempotent.
Qed.

(** After the bootstrap exactly one index covers the end-time column. *)
Lemma bootstrap_catalog_one_index s c :
  sch_table s = "history_entries" →
  "end_time" ∈ sch_columns s →
  Forall (λ ni, end_time_named ni.1 ni.2) (sch_indexes s) →
  map_Forall end_time_named (indexes c) →
  end_time_indexes (bootstrap_catalog s c) = {[ "end_time_index" := end_time_index ]}.
Proof.
  intros Ht Hcol Hs Hc. unfold bootstrap_catalog.
  pose proof (migrate_named s c Hs Hc) as Hn.
  destruct (migrate_has_table s c) as (cols & Hcols & Hsub). rewrite Ht in Hcols.
  set (c1 := migrate s c) in *.
  assert (Hidx : ∃ i, indexes (create_end_time_index c1) !! "end_time_index" = Some i ∧
                      on_end_time i ∧
                      map_Forall end_time_named (indexes (create_end_time_index c1))).
  { unfold create_end_time_index.
    destruct (indexes c1 !! "end_time_index") as [i|] eqn:E.
    - exists i. split; [done|]. split; [|done]. by apply (Hn _ _ E).
    - rewrite Hcols. rewrite decide_True.
      2:{ intros x ->%list_elem_of_singleton. by apply Hsub. }
      exists end_time_index. rewrite add_index_lookup, E. cbn. split; [done|].
      split; [done|]. apply add_index_named; [|done]. done. }
  destruct Hidx as (i & Hi & Hon & Hall).
  apply map_eq. intros n. unfold end_time_indexes.
  destruct (decide (n = "end_time_index")) as [->|Hne].
  - rewrite lookup_singleton_eq. apply map_lookup_filter_Some. split; [|done].
    rewrite Hi. f_equal. destruct i as [t cs]. destruct Hon as [Ht' Hc']. cbn in *. by subst.
  - rewrite lookup_singleton_ne by done. apply map_lookup_filter_None. right.
    intros x Hx Hon'. apply Hne. by apply (Hall n x Hx).
Qed.

Section idempotent_bootstrap.
Context `{Platform}.

Lemma next_fault_none w : w_faults w = [] → next_fault w = (Pass, w).
Proof. intros Hf. unfold next_fault. by rewrite Hf. Qed.

Lemma MakeHishtoryDir_no_fault w :
  w_faults w = [] → w_home w ≠ "" →
  files (w_fs w) !! hishtoryDir (w_home w) = None →
  MakeHishtoryDir w = (Ret None, add_dir (hishtoryDir (w_home w)) w).
Proof.
  intros Hf Hh Hd. rewrite (MakeHishtoryDir_ok w Hh); rewrite ?(next_fault_none w Hf); done.
Qed.

Lemma GetLogger_no_fault w :
  w_faults w = [] → w_home w ≠ "" →
  files (w_fs w) !! hishtoryDir (w_home w) = None →
  (w_once w = true → is_Some (w_logger w)) →
  ∃ lg w1, GetLogger w = (Ret (Some lg), w1) ∧
    (w_once w = true → w_logger w = Some lg ∧ w1 = w) ∧
    w_faults w1 = [] ∧ w_home w1 = w_home w ∧ files (w_fs w1) = files (w_fs w) ∧
    w_dbs w1 = w_dbs w ∧ w_once w1 = true ∧ w_logger w1 = Some lg.
Proof.
  intros Hf Hh Hd Hl. destruct (w_once w) eqn:Ho.
  - destruct (Hl eq_refl) as [lg Hlg]. exists lg, w.
    rewrite (GetLogger_again w Ho), Hlg. done.
  - destruct (GetLogger_sink w Ho Hh) as (lg & w1 & Hg & _ & _ & _ & Ho1 & Hl1 & _);
      [by rewrite (next_fault_none w Hf)|done|].
    exists lg, w1. split; [done|]. split; [done|].
    revert Hg. unfold GetLogger, Once_Do. go_unfold. rewrite Ho.
    rewrite (os_UserHomeDir_ok w Hh), (MakeHishtoryDir_no_fault w Hf Hh Hd).
    unfold store_hishtoryLogger, modify_logger, load_hishtoryLogger. cbn.
    intros [= <- <-]. cbn. done.
Qed.

Lemma with_catalog_no_fault db f w c :
  w_faults w = [] → w_dbs w !! db_dsn db = Some c →
  with_catalog db f w = (Ret (f c).2, set_dbs (<[db_dsn db := (f c).1]> (w_dbs w)) w).
Proof.
  intros Hf Hc. unfold with_catalog. rewrite syscall_no_fault by done.
  rewrite Hc. by destruct (f c).
Qed.

Lemma gorm_Open_no_fault dsn skip lg w :
  w_faults w = [] →
  gorm_Open dsn skip lg w =
    (Ret (Some {| db_dsn := dsn; db_SkipDefaultTransaction := skip; db_Logger := lg |}, None),
     set_dbs (<[dsn := default empty_Catalog (w_dbs w !! dsn)]> (w_dbs w)) w).
Proof.
  intros Hf. unfold gorm_Open. rewrite syscall_no_fault by done.
  destruct (w_dbs w !! dsn) as [c|] eqn:Ec; cbn; [|done].
  rewrite (insert_id _ _ _ Ec). by destruct w.
Qed.

Lemma gorm_DB_DB_no_fault db w : w_faults w = [] → gorm_DB_DB db w = (Ret (tt, None), w).
Proof. intros Hf. unfold gorm_DB_DB. by rewrite syscall_no_fault. Qed.

Lemma sql_Ping_no_fault db w : w_faults w = [] → sql_Ping db w = (Ret None, w).
Proof. intros Hf. unfold sql_Ping. by rewrite syscall_no_fault. Qed.

Lemma gorm_AutoMigrate_no_fault db s w c :
  w_faults w = [] → w_dbs w !! db_dsn db = Some c →
  gorm_AutoMigrate db s w = (Ret None, set_dbs (<[db_dsn db := migrate s c]> (w_dbs w)) w).
Proof. intros Hf Hc. unfold gorm_AutoMigrate. by rewrite (with_catalog_no_fault _ _ _ c). Qed.

Lemma gorm_Exec_pragma_no_fault db mode w c :
  w_faults w = [] → w_dbs w !! db_dsn db = Some c →
  ∃ r, gorm_Exec db (PragmaJournalMode mode) w = (Ret r, w).
Proof.
  intros Hf Hc. unfold gorm_Exec. rewrite (with_catalog_no_fault _ _ _ c) by done.
  cbn. rewrite (insert_id _ _ _ Hc). exists None. by destruct w.
Qed.

Lemma gorm_Exec_create_index_no_fault db w c :
  w_faults w = [] → w_dbs w !! db_dsn db = Some c →
  ∃ r, gorm_Exec db (CreateIndexIfNotExists "end_time_index" "history_entries" ["end_time"]) w =
    (Ret r, set_dbs (<[db_dsn db := create_end_time_index c]> (w_dbs w)) w).
Proof.
  intros Hf Hc. unfold gorm_Exec. rewrite (with_catalog_no_fault _ _ _ c) by done.
  unfold create_end_time_index.
  destruct (indexes c !! "end_time_index"); [by eexists|].
  destruct (tables c !! "history_entries"); [|by eexists].
  case_decide; by eexists.
Qed.

Lemma OpenLocalSqliteDb_run w :
  w_faults w = [] → w_home w ≠ "" →
  files (w_fs w) !! hishtoryDir (w_home w) = None →
  (w_once w = true → is_Some (w_logger w)) →
  ∃ lg w1,
    OpenLocalSqliteDb w = (Ret (Some (handle_of (w_home w) lg), None), w1) ∧
    (w_once w = true → w_logger w = Some lg) ∧
    w_faults w1 = [] ∧ w_home w1 = w_home w ∧ files (w_fs w1) = files (w_fs w) ∧
    w_once w1 = true ∧ w_logger w1 = Some lg ∧
    w_dbs w1 =
      <[dsn_of (w_home w) :=
          bootstrap_catalog data_HistoryEntry
            (default empty_Catalog (w_dbs w !! dsn_of (w_home w)))]> (w_dbs w).
Proof.
  intros Hf Hh Hd Hl. unfold OpenLocalSqliteDb. go_unfold.
  rewrite (os_UserHomeDir_ok w Hh), (MakeHishtoryDir_no_fault w Hf Hh Hd).
  set (wa := add_dir (hishtoryDir (w_home w)) w).
  destruct (GetLogger_no_fault wa) as (lg & w1 & -> & Hsame & Hf1 & Hh1 & Hfs1 & Hdb1 & Ho1 & Hl1);
    [done..|].
  exists lg. fold (dsn_of (w_home w)).
  rewrite (gorm_Open_no_fault _ _ _ w1 Hf1).
  fold (handle_of (w_home w) lg).
  set (db := handle_of (w_home w) lg). set (dsn := dsn_of (w_home w)).
  rewrite Hdb1. change (w_dbs wa) with (w_dbs w).
  set (c0 := default empty_Catalog (w_dbs w !! dsn)).
  set (w2 := set_dbs (<[dsn:=c0]> (w_dbs w)) w1).
  rewrite (gorm_DB_DB_no_fault db w2 Hf1), (sql_Ping_no_fault db w2 Hf1).
  rewrite (gorm_AutoMigrate_no_fault db _ w2 c0 Hf1) by apply lookup_insert_eq.
  set (w3 := set_dbs _ w2).
  destruct (gorm_Exec_pragma_no_fault db "WAL" w3 (migrate data_HistoryEntry c0) Hf1)
    as [r1 ->]; [apply lookup_insert_eq|].
  destruct (gorm_Exec_create_index_no_fault db w3 (migrate data_HistoryEntry c0) Hf1)
    as [r2 ->]; [apply lookup_insert_eq|].
  eexists. split; [reflexivity|]. cbn.
  repeat split; try done.
  - intros Ho. by destruct (Hsame Ho) as [? _].
  - by rewrite !insert_insert_eq.
Qed.

(** C6. On a machine without faults, where the home directory resolves and
    the tool's directory can be made, and where the name [end_time_index] is
    used for the index over the end-time column of the history entries and
    for no other (in the table declaration and in the database file, if
    there is one), [OpenLocalSqliteDb] called twice in a row returns the
    same handle with a nil error both times; the second call leaves every
    database as the first one left it, and the database then has exactly
    one index over the end-time column of the history entries. *)
Theorem OpenLocalSqliteDb_idempotent (w : World) :
  w_faults w = [] →
  w_home w ≠ "" →
  files (w_fs w) !! hishtoryDir (w_home w) = None →
  (w_once w = true → is_Some (w_logger w)) →
  sch_table data_HistoryEntry = "history_entries" →
  "end_time" ∈ sch_columns data_HistoryEntry →
  Forall (λ ni, end_time_named ni.1 ni.2) (sch_indexes data_HistoryEntry) →
  (∀ c, w_dbs w !! dsn_of (w_home w) = Some c → map_Forall end_time_named (indexes c)) →
  ∃ db w1 w2 c,
    OpenLocalSqliteDb w = (Ret (Some db, None), w1) ∧
    OpenLocalSqliteDb w1 = (Ret (Some db, None), w2) ∧
    w_dbs w2 = w_dbs w1 ∧
    w_dbs w2 !! db_dsn db = Some c ∧
    size (end_time_indexes c) = 1%nat.
Proof.
  intros Hf Hh Hd Hl Ht Hcol Hs Hc.
  destruct (OpenLocalSqliteDb_run w Hf Hh Hd Hl)
    as (lg & w1 & Hrun1 & _ & Hf1 & Hh1 & Hfs1 & Ho1 & Hl1 & Hdb1).
  destruct (OpenLocalSqliteDb_run w1) as (lg' & w2 & Hrun2 & Hlg & Hf2 & _ & _ & _ & _ & Hdb2);
    [done|congruence|by rewrite Hh1, Hfs1|by rewrite Hl1|].
  assert (lg' = lg) as -> by (specialize (Hlg Ho1); congruence).
  rewrite Hh1 in Hrun2, Hdb2.
  set (dsn := dsn_of (w_home w)) in *.
  set (c1 := bootstrap_catalog data_HistoryEntry (default empty_Catalog (w_dbs w !! dsn))) in *.
  assert (Hsame : w_dbs w2 = w_dbs w1).
  { rewrite Hdb2, Hdb1, lookup_insert_eq.
    change (default empty_Catalog (Some c1)) with c1.
    unfold c1. rewrite bootstrap_catalog_idempotent.
    by rewrite insert_insert_eq. }
  exists (handle_of (w_home w) lg), w1, w2, c1.
  split; [done|]. split; [done|]. split; [done|]. split.
  { rewrite Hsame, Hdb1. apply lookup_insert_eq. }
  unfold c1. rewrite bootstrap_catalog_one_index; [by rewrite map_size_singleton|done..|].
  destruct (w_dbs w !! dsn) as [c|] eqn:Ec; cbn; [by apply Hc|].
  apply map_Forall_empty.
Qed.

End idempotent_bootstrap.

Lemma OpenLocalSqliteDb_idempotent_witness :
  w_faults fresh_World = [] ∧
  w_home fresh_World ≠ "" ∧
  files (w_fs fresh_World) !! hishtoryDir (w_home fresh_World) = None ∧
  (w_once fresh_World = true → is_Some (w_logger fresh_World)) ∧
  sch_table data_HistoryEntry = "history_entries" ∧
  "end_time" ∈ sch_columns data_HistoryEntry ∧
  Forall (λ ni, end_time_named ni.1 ni.2) (sch_indexes data_HistoryEntry) ∧
  (∀ c, w_dbs fresh_World !! dsn_of (w_home fresh_World) = Some c →
        map_Forall end_time_named (indexes c)) ∧
  ∃ db w1 w2 c,
    OpenLocalSqliteDb fresh_World = (Ret (Some db, None), w1) ∧
    OpenLocalSqliteDb w1 = (Ret (Some db, None), w2) ∧
    w_dbs w2 = w_dbs w1 ∧
    w_dbs w2 !! db_dsn db = Some c ∧
    size (end_time_indexes c) = 1%nat.
Proof.
  assert (H1 : w_faults fresh_World = []) by reflexivity.
  assert (H2 : w_home fresh_World ≠ "") by done.
  assert (H3 : files (w_fs fresh_World) !! hishtoryDir (w_home fresh_World) = None)
    by reflexivity.
  assert (H4 : w_once fresh_World = true → is_Some (w_logger fresh_World)) by done.
  assert (H5 : sch_table data_HistoryEntry = "history_entries") by reflexivity.
  assert (H6 : "end_time" ∈ sch_columns data_HistoryEntry).
  { cbn. apply list_elem_of_In. cbn. tauto. }
  assert (H7 : Forall (λ ni, end_time_named ni.1 ni.2) (sch_indexes data_HistoryEntry))
    by apply Forall_nil_2.
  assert (H8 : ∀ c, w_dbs fresh_World !! dsn_of (w_home fresh_World) = Some c →
                    map_Forall end_time_named (indexes c)) by done.
  repeat (split; [assumption|]).
  exact (OpenLocalSqliteDb_idempotent fresh_World H1 H2 H3 H4 H5 H6 H7 H8).
Defined.

Module ConcurrentFacts.
Import Concurrent.

Section invariant.
Variable env_ok : bool.
Variable logFormatter : TextFormatter.
Variable lumberjackLogger : lumberjack_Logger.

Notation step := (step env_ok logFormatter lumberjackLogger).
Notation thread_step := (thread_step env_ok logFormatter lumberjackLogger).
Notation constructed := (constructed logFormatter lumberjackLogger).
Notation outcome := (outcome env_ok logFormatter lumberjackLogger).
Notation knows := (knows env_ok logFormatter lumberjackLogger).
Notation Inv := (Inv env_ok logFormatter lumberjackLogger).
Notation inv_excl := (inv_excl env_ok logFormatter lumberjackLogger).
Notation inv_held := (inv_held env_ok logFormatter lumberjackLogger).
Notation inv_knows := (inv_knows env_ok logFormatter lumberjackLogger).
Notation inv_done := (inv_done env_ok logFormatter lumberjackLogger).
Notation inv_idle := (inv_idle env_ok logFormatter lumberjackLogger).
Notation run := (run env_ok logFormatter lumberjackLogger).

Lemma Inv_start n : Inv (start n).
Proof.
  split; cbn.
  - intros t1 t2 p1 p2 [-> _]%lookup_replicate. done.
  - split; [done|]. intros (t & p & [-> _]%lookup_replicate & ?). done.
  - intros t p [-> _]%lookup_replicate. done.
  - done.
  - done.
Qed.

Lemma lookup_set_pc t p' (l : list pc) t' q :
  (t < length l)%nat →
  <[t := p']> l !! t' = Some q ↔ (t' = t ∧ q = p') ∨ (t' ≠ t ∧ l !! t' = Some q).
Proof.
  intros Hlen. destruct (decide (t' = t)) as [->|Hne].
  - rewrite list_lookup_insert_eq by done. naive_solver.
  - rewrite list_lookup_insert_ne by done. naive_solver.
Qed.

Lemma others_not_critical m t p t' q :
  Inv m → m_threads m !! t = Some p → critical p = true →
  m_threads m !! t' = Some q → t' ≠ t → critical q = false.
Proof.
  intros HI Ht Hp Ht' Hne. destruct (critical q) eqn:Hq; [|done].
  destruct Hne. by apply (inv_excl m HI t' t q p).
Qed.

(** A thread that is not in the critical section keeps what it knows as
    long as [done] is not reset and, once [done] is set, [hishtoryLogger]
    is not changed. *)
Lemma knows_stable m m1 q :
  critical q = false →
  (m_done m = true → m_done m1 = true ∧ m_global m1 = m_global m) →
  knows m q → knows m1 q.
Proof.
  intros Hq Hd. destruct q; cbn in *; try done.
  - intros Hk. by apply Hd.
  - intros [Hk ->]. destruct (Hd Hk) as [? ?]. by split.
  - intros (Hk & ? & ?). destruct (Hd Hk) as [? ?]. by split_and!.
Qed.

Lemma points_to_update m l o f :
  m_global m = Some l → m_heap m !! l = Some o →
  update_logger f m = Some (set_heap (<[l := f o]> (m_heap m)) m) ∧
  points_to (set_heap (<[l := f o]> (m_heap m)) m) (f o).
Proof.
  intros Hg Hl. unfold update_logger. rewrite Hg, Hl. split; [done|].
  exists l. split; [done|]. cbn. apply list_lookup_insert_eq. by eapply lookup_lt_Some.
Qed.

(** Thread [t] moves from [p] to [p'] while the shared state goes from [m]
    to [m1]: what is left to check for the invariant. *)
Lemma Inv_update m t p p' m1 :
  Inv m → m_threads m !! t = Some p →
  m_threads m1 = m_threads m →
  (critical p' = true → critical p = true ∨ m_mutex m = false) →
  (m_mutex m1 = true ↔ critical p' = true ∨ (critical p = false ∧ m_mutex m = true)) →
  knows m1 p' →
  (∀ q, (critical p = true → critical q = false) → knows m q → knows m1 q) →
  (m_done m1 = true → m_runs m1 = 1%nat ∧ outcome m1) →
  (m_done m1 = false → initialising p' = false →
     (initialising p = false → m_done m = true ∨ (m_runs m = 0%nat ∧ m_global m = None)) →
     m_runs m1 = 0%nat ∧ m_global m1 = None) →
  Inv (set_pc t p' m1).
Proof.
  intros HI Ht Hth Hex Hmu Hown Hoth Hdone Hidle.
  assert (Hlen : t < length (m_threads m)) by by eapply lookup_lt_Some.
  split; cbn; rewrite ?Hth.
  - intros t1 t2 p1 p2 H1 H2 Hc1 Hc2.
    apply (lookup_set_pc t p' _ _ _ Hlen) in H1 as [[-> ->]|[Hn1 H1]];
      apply (lookup_set_pc t p' _ _ _ Hlen) in H2 as [[-> ->]|[Hn2 H2]]; try done.
    + destruct (Hex Hc1) as [Hp|Hm].
      * destruct Hn2. by apply (inv_excl m HI t2 t p2 p).
      * assert (m_mutex m = true) by (apply (inv_held m HI); eauto). congruence.
    + destruct (Hex Hc2) as [Hp|Hm].
      * destruct Hn1. by apply (inv_excl m HI t1 t p1 p).
      * assert (m_mutex m = true) by (apply (inv_held m HI); eauto). congruence.
    + by apply (inv_excl m HI t1 t2 p1 p2).
  - rewrite Hmu. split.
    + intros [Hc|[Hp Hm]].
      * exists t, p'. split; [|done]. apply lookup_set_pc; auto.
      * apply (inv_held m HI) in Hm as (t' & q & Hq & Hcq).
        exists t', q. split; [|done]. apply lookup_set_pc; [done|]. right. split; [|done].
        intros ->. congruence.
    + intros (t' & q & Hq & Hcq).
      apply (lookup_set_pc t p' _ _ _ Hlen) in Hq as [[-> ->]|[Hn Hq]]; [by left|].
      destruct (critical p) eqn:Hp.
      * by rewrite (others_not_critical m t p t' q) in Hcq.
      * right. split; [done|]. apply (inv_held m HI). eauto.
  - intros t' q Hq.
    apply (lookup_set_pc t p' _ _ _ Hlen) in Hq as [[-> ->]|[Hn Hq]]; [done|].
    apply Hoth; [|by apply (inv_knows m HI t')].
    intros Hp. by apply (others_not_critical m t p t' q).
  - done.
  - intros Hd Hall. apply Hidle; [done| |].
    + apply (Hall t). apply lookup_set_pc; auto.
    + intros Hp. destruct (m_done m) eqn:Hdm; [by left|right].
      apply (inv_idle m HI Hdm). intros t' q Hq.
      destruct (decide (t' = t)) as [->|Hn]; [congruence|].
      apply (Hall t'). apply lookup_set_pc; auto.
Qed.

Lemma Resolve_cases :
  (env_ok = true ∧ (if env_ok then Alloc else PanicStore EnvironmentError) = Alloc) ∨
  (env_ok = false ∧
   (if env_ok then Alloc else PanicStore EnvironmentError) = PanicStore EnvironmentError).
Proof. destruct env_ok; auto. Qed.

Local Ltac inv_auto :=
  cbn in *; try done; try (by left); try (by right); try congruence;
  try (intuition (try done; try congruence); fail).

Lemma Inv_step m m' : Inv m → step m m' → Inv m'.
Proof.
  intros HI [t Hstep]. unfold Concurrent.thread_step in Hstep.
  destruct (m_threads m !! t) as [p|] eqn:Ht; [|done]. cbn in Hstep.
  pose proof (inv_knows m HI t p Ht) as Hk.
  pose proof (inv_done m HI) as Hdone. unfold outcome in *.
  assert (Hmu : critical p = true → m_mutex m = true).
  { intros Hp. apply (inv_held m HI). eauto. }
  assert (Hothers : ∀ m1, (m_done m = true → m_done m1 = true ∧ m_global m1 = m_global m) →
            ∀ q, (critical p = true → critical q = false) → critical p = true →
                 knows m q → knows m1 q).
  { intros m1 Hm1 q Hq Hp. apply knows_stable; [by apply Hq|done]. }
  assert (Hidle : critical p = true → initialising p = false → m_done m = false →
                  m_runs m = 0%nat ∧ m_global m = None).
  { intros Hp Hi Hd. apply (inv_idle m HI Hd).
    intros t' q Hq. destruct (decide (t' = t)) as [->|Hn]; [by simplify_eq|].
    destruct (initialising q) eqn:Hiq; [|done].
    assert (critical q = false) by by apply (others_not_critical m t p t' q).
    by destruct q. }
  destruct p; cbn in Hk.
  - (* Call *)
    injection Hstep as <-. apply (Inv_update m t Call); inv_auto.
    all: destruct (m_done m) eqn:E; inv_auto.
  - (* Lock *)
    destruct (m_mutex m) eqn:Hm; [done|]. injection Hstep as <-.
    apply (Inv_update m t Lock); inv_auto.
  - (* Check *)
    destruct (m_done m) eqn:Hd; injection Hstep as <-.
    + apply (Inv_update m t Check); inv_auto.
    + destruct (Hidle eq_refl eq_refl eq_refl) as [Hr Hg].
      apply (Inv_update m t Check); inv_auto.
      intros q Hq. apply Hothers; inv_auto.
  - (* Resolve *)
    injection Hstep as <-. destruct Hk as (Hd & Hr & Hg).
    destruct Resolve_cases as [[He ->]|[He ->]]; apply (Inv_update m t Resolve); inv_auto.
  - (* Alloc *)
    injection Hstep as <-. destruct Hk as (Hd & Hr & He & Hg).
    apply (Inv_update m t Alloc); inv_auto.
    + repeat split; try done. eexists. split; [done|]. cbn. by apply list_lookup_middle.
    + intros q Hq. apply Hothers; inv_auto.
  - (* Format *)
    destruct Hk as (Hd & Hr & He & l & Hg & Hl).
    destruct (points_to_update m l _ (SetFormatter logFormatter) Hg Hl) as [Hu Hp].
    unfold method_call in Hstep. rewrite Hu in Hstep. injection Hstep as <-.
    apply (Inv_update m t Format); inv_auto.
    intros q Hq. apply Hothers; inv_auto.
  - (* Levelled *)
    destruct Hk as (Hd & Hr & He & l & Hg & Hl).
    destruct (points_to_update m l _ (SetLevel InfoLevel) Hg Hl) as [Hu Hp].
    unfold method_call in Hstep. rewrite Hu in Hstep. injection Hstep as <-.
    apply (Inv_update m t Levelled); inv_auto.
    intros q Hq. apply Hothers; inv_auto.
  - (* Output *)
    destruct Hk as (Hd & Hr & He & l & Hg & Hl).
    destruct (points_to_update m l _ (SetOutput (Lumberjack lumberjackLogger)) Hg Hl) as [Hu Hp].
    unfold method_call in Hstep. rewrite Hu in Hstep. injection Hstep as <-.
    apply (Inv_update m t Output); inv_auto.
    intros q Hq. apply Hothers; inv_auto.
  - (* Store *)
    injection Hstep as <-. destruct Hk as (Hd & Hr & He & Hp).
    apply (Inv_update m t Store); inv_auto.
    + intros q Hq. apply Hothers; inv_auto.
    + intros _. split; [done|]. unfold outcome. by rewrite He.
  - (* Unlock *)
    injection Hstep as <-.
    apply (Inv_update m t Unlock); inv_auto.
  - (* Load *)
    injection Hstep as <-.
    apply (Inv_update m t Load); inv_auto.
  - done.
  - (* PanicStore *)
    injection Hstep as <-. destruct Hk as (Hd & Hr & Hg & He & Hv).
    apply (Inv_update m t (PanicStore v)); inv_auto.
    + intros q Hq. apply Hothers; inv_auto.
    + intros _. split; [done|]. unfold outcome. by rewrite He.
  - (* PanicUnlock *)
    injection Hstep as <-.
    apply (Inv_update m t (PanicUnlock v)); inv_auto.
  - done.
Qed.

Lemma Inv_reachable n m : rtc step (start n) m → Inv m.
Proof.
  revert m. apply rtc_ind_r; [apply Inv_start|].
  intros m1 m2 _ Hs HI. by apply (Inv_step m1).
Qed.





Lemma run_reachable schedule m : rtc step m (run schedule m).
Proof.
  revert m. induction schedule as [|t rest IH]; intros m; [done|]. cbn.
  destruct (Concurrent.thread_step env_ok logFormatter lumberjackLogger t m) as [m'|] eqn:E;
    [|apply IH].
  eapply rtc_l; [by exists t|apply IH].
Qed.

End invariant.



End ConcurrentFacts.

(** The machine and [GetLogger]: with one thread the machine does what the
    function does. *)
Module ConcurrentLink.
Import Concurrent ConcurrentFacts.

Section link.
Context `{Platform}.

(** One thread runs the machine to its end in eleven steps. Whatever
    [MakeHishtoryDir] returns, [GetLogger] and the machine agree: on whether
    the call returns or panics, on the once, on [hishtoryLogger] and on the
    logger it points to. The environment of the machine is in order exactly
    when [MakeHishtoryDir] returns nil. *)
Lemma GetLogger_single_thread (w : World) (r : option error) (w1 : World) :
  w_once w = false → w_logger w = None →
  MakeHishtoryDir w = (Ret r, w1) →
  let fmt := {| tf_TimestampFormat := time_RFC3339; tf_FullTimestamp := true |} in
  let lj := {| Filename := path_Join [w_home w; data_GetHishtoryPath; "hishtory.log"];
               MaxSize := 1; MaxBackups := 10; MaxAge := 30 |} in
  let m := run (bool_decide (r = None)) fmt lj (replicate 11 0%nat) (start 1) in
  w_once (GetLogger w).2 = m_done m ∧
  w_logger (GetLogger w).2 = (m_global m ≫= λ l, m_heap m !! l) ∧
  match (GetLogger w).1 with
  | Ret v => r = None ∧ v = w_logger (GetLogger w).2 ∧ m_threads m = [Returned (m_global m)]
  | Panic _ => r ≠ None ∧ m_threads m = [Panicked EnvironmentError]
  | Crashed => False
  end.
Proof.
  intros Ho Hl Hm. cbv zeta.
  unfold GetLogger, Once_Do. go_unfold. rewrite Ho.
  destruct (decide (w_home w = "")) as [Hh|Hh].
  { revert Hm. unfold MakeHishtoryDir. go_unfold.
    rewrite (os_UserHomeDir_unset w Hh). intros [= <- <-]. cbn. by rewrite Hl. }
  rewrite (os_UserHomeDir_ok w Hh), Hm.
  pose proof (MakeHishtoryDir_same_disk _ _ _ Hm) as [Hh1 _].
  assert (Hl1 : w_logger w1 = None).
  { revert Hm. unfold MakeHishtoryDir. go_unfold. rewrite (os_UserHomeDir_ok w Hh).
    unfold os_MkdirAll, syscall.
    destruct (next_fault_frame w) as (_ & _ & _ & _ & _ & Hlg).
    destruct (next_fault w) as [f w0]. cbn [snd] in Hlg.
    destruct (verdict_of f); [|by intros [= <- <-]; rewrite Hlg|done].
    cbv zeta. case_decide; intros [= <- <-]; cbn; congruence. }
  destruct r as [e|]; cbn.
  - by rewrite Hl1.
  - unfold store_hishtoryLogger, modify_logger, load_hishtoryLogger. cbn. done.
Qed.

End link.
End ConcurrentLink.

(** * Further properties *)

(** * More on the ContextCarrier *)

(** X1. A getter returns what the nearest frame of its kind holds: the value
    just stored, also over an older binding of the same kind (which the
    parent carrier keeps), and also a nil [*gorm.DB], which is stored as a
    non-nil interface value and so returned without a panic. *)
Theorem Get_after_With (ctx : Context) (w : World) :
  (∀ v1 v2 : ClientConfig,
     GetConf (WithConf ctx v1) w = (Ret v1, w) ∧
     GetConf (WithConf (WithConf ctx v1) v2) w = (Ret v2, w)) ∧
  (∀ v1 v2 : option gorm_DB,
     GetDb (WithDb ctx v1) w = (Ret v1, w) ∧
     GetDb (WithDb (WithDb ctx v1) v2) w = (Ret v2, w)) ∧
  GetDb (WithDb ctx None) w = (Ret None, w) ∧
  (∀ v1 v2 : string,
     GetHome (WithHome ctx v1) w = (Ret v1, w) ∧
     GetHome (WithHome (WithHome ctx v1) v2) w = (Ret v2, w)).
Proof.
  unfold GetConf, GetDb, GetHome, WithConf, WithDb, WithHome.
  repeat split; by rewrite Value_WithValue_eq.
Qed.

Lemma contextKeys_distinct :
  contextConfigKey ≠ contextDBKey ∧ contextConfigKey ≠ contextHomedirKey ∧
  contextDBKey ≠ contextHomedirKey.
Proof. repeat split; discriminate. Qed.

(** X2. The three kinds do not interfere: storing a value of one kind
    leaves the result of the getters of the two other kinds as it was, be
    it a value or a panic. *)
Theorem With_other_kind (ctx : Context) (w : World)
    (config : ClientConfig) (db : option gorm_DB) (homedir : string) :
  GetConf (WithDb ctx db) w = GetConf ctx w ∧
  GetConf (WithHome ctx homedir) w = GetConf ctx w ∧
  GetDb (WithConf ctx config) w = GetDb ctx w ∧
  GetDb (WithHome ctx homedir) w = GetDb ctx w ∧
  GetHome (WithConf ctx config) w = GetHome ctx w ∧
  GetHome (WithDb ctx db) w = GetHome ctx w.
Proof.
  destruct contextKeys_distinct as (H1 & H2 & H3).
  unfold GetConf, GetDb, GetHome, WithConf, WithDb, WithHome.
  repeat split; by rewrite Value_WithValue_ne.
Qed.

Lemma from_With_Value (ctx : Context) :
  from_With ctx →
  (Value ctx contextConfigKey = None ∨ ∃ c, Value ctx contextConfigKey = Some (AnyClientConfig c)) ∧
  (Value ctx contextDBKey = None ∨ ∃ db, Value ctx contextDBKey = Some (AnyGormDB db)) ∧
  (Value ctx contextHomedirKey = None ∨ ∃ h, Value ctx contextHomedirKey = Some (AnyString h)).
Proof.
  destruct contextKeys_distinct as (H1 & H2 & H3).
  induction 1 as [|ctx c _ IH|ctx db _ IH|ctx h _ IH]; [by repeat split; left|..];
    destruct IH as (IH1 & IH2 & IH3); unfold WithConf, WithDb, WithHome.
  - rewrite Value_WithValue_eq, !Value_WithValue_ne by done. eauto 10.
  - rewrite Value_WithValue_eq, !Value_WithValue_ne by done. eauto 10.
  - rewrite Value_WithValue_eq, !Value_WithValue_ne by done. eauto 10.
Qed.

(** X3. On a carrier made by this package's functions a getter never fails
    in its type assertion: it returns a value, or it panics for the one
    reason that no frame of its kind is there. *)
Theorem from_With_getters (ctx : Context) (w : World) :
  from_With ctx →
  ((∃ c, GetConf ctx w = (Ret c, w)) ∨
   GetConf ctx w = (Panic (ErrorString "failed to find config in ctx"), w)) ∧
  ((∃ db, GetDb ctx w = (Ret db, w)) ∨
   GetDb ctx w = (Panic (ErrorString "failed to find db in ctx"), w)) ∧
  ((∃ h, GetHome ctx w = (Ret h, w)) ∨
   GetHome ctx w = (Panic (ErrorString "failed to find homedir in ctx"), w)).
Proof.
  intros Hctx. destruct (from_With_Value ctx Hctx) as (H1 & H2 & H3).
  unfold GetConf, GetDb, GetHome. repeat split.
  - destruct H1 as [->|[c ->]]; [by right|left; by exists c].
  - destruct H2 as [->|[db ->]]; [by right|left; by exists db].
  - destruct H3 as [->|[h ->]]; [by right|left; by exists h].
Qed.

Lemma from_With_getters_witness :
  let ctx := WithDb (WithConf Background ClientConfig_zero) None in
  from_With ctx ∧
  GetConf ctx fresh_World = (Ret ClientConfig_zero, fresh_World) ∧
  GetDb ctx fresh_World = (Ret None, fresh_World) ∧
  GetHome ctx fresh_World = (Panic (ErrorString "failed to find homedir in ctx"), fresh_World).
Proof.
  cbv zeta.
  assert (Hctx : from_With (WithDb (WithConf Background ClientConfig_zero) None))
    by (apply from_WithDb, from_WithConf, from_Background).
  split; [exact Hctx|].
  destruct (from_With_getters _ fresh_World Hctx) as (_ & _ & [[h Hh]|Hp]).
  - discriminate Hh.
  - split; [reflexivity|]. split; [reflexivity|]. exact Hp.
Defined.

(** * More on loading the configuration *)

Lemma only_faults_refl w : only_faults w w.
Proof. done. Qed.

Lemma only_faults_trans w1 w2 w3 : only_faults w1 w2 → only_faults w2 w3 → only_faults w1 w3.
Proof. unfold only_faults. intros (?&?&?&?&?&?) (?&?&?&?&?&?). repeat split; congruence. Qed.

Lemma only_faults_next_fault w0 w : only_faults w0 w → only_faults w0 (next_fault w).2.
Proof.
  intros H. apply (only_faults_trans _ w); [done|].
  destruct (next_fault_frame w) as (?&?&?&?&?&?). done.
Qed.

Lemma os_ReadFile_only_faults p w r w' : os_ReadFile p w = (r, w') → only_faults w w'.
Proof.
  apply (syscall_keeps (only_faults w)); [apply only_faults_next_fault| |done].
  intros w0 H0. cbv beta. destruct (files (w_fs w0) !! p); [done|]. by case_decide.
Qed.

Lemma os_ReadDir_only_faults p w r w' : os_ReadDir p w = (r, w') → only_faults w w'.
Proof.
  apply (syscall_keeps (only_faults w)); [apply only_faults_next_fault| |done].
  intros w0 H0. cbv beta. repeat case_decide; done.
Qed.

Lemma os_Stat_only_faults p w r w' : os_Stat p w = (r, w') → only_faults w w'.
Proof.
  apply (syscall_keeps (only_faults w)); [apply only_faults_next_fault| |done].
  intros w0 H0. cbv beta. by destruct (fs_exists p (w_fs w0)).
Qed.

Section load_facts.
Context `{Platform}.

Lemma GetConfigContents_only_faults w r w' :
  GetConfigContents w = (r, w') → only_faults w w'.
Proof.
  unfold GetConfigContents. go_unfold.
  destruct (os_UserHomeDir w) as [[[h [e|]]|e|] w1] eqn:E1;
    apply os_UserHomeDir_frame in E1 as ->; try by intros [= _ <-].
  destruct (os_ReadFile _ w) as [r2 w2] eqn:E2. apply os_ReadFile_only_faults in E2.
  destruct r2 as [[d [e|]]|e|]; try by intros [= _ <-].
  destruct (os_ReadDir _ w2) as [r3 w3] eqn:E3. apply os_ReadDir_only_faults in E3.
  pose proof (only_faults_trans _ _ _ E2 E3).
  destruct r3 as [[names [e'|]]|e'|]; by intros [= _ <-].
Qed.

(** X4. [GetConfig] only reads: whatever it returns, the file system, the
    databases, the random source and the logger are as before. *)
Theorem GetConfig_read_only (w : World) :
  let w' := (GetConfig w).2 in
  w_home w' = w_home w ∧ w_fs w' = w_fs w ∧ w_dbs w' = w_dbs w ∧
  w_rand w' = w_rand w ∧ w_once w' = w_once w ∧ w_logger w' = w_logger w.
Proof.
  cbv zeta. unfold GetConfig. go_unfold.
  destruct (GetConfigContents w) as [r1 w1] eqn:E1.
  apply GetConfigContents_only_faults in E1.
  destruct r1 as [[d [e|]]|e|]; try done.
  destruct (json_Unmarshal d ClientConfig_zero) as [c [e|]]; done.
Qed.

(** X5. Without a configuration file [GetConfig] fails, and how depends on
    the tool's directory. When the directory is there, the error carries its
    listing but not the cause: the read error is shadowed by the nil error
    of the listing, so [errors.Is(err, os.ErrNotExist)] is false although
    the file does not exist. When the directory is missing as well, the
    error wraps the listing's failure, which is a not-exist error. *)
Theorem GetConfig_without_file (w : World) :
  w_home w ≠ "" →
  w_faults w = [] →
  files (w_fs w) !! configPath (w_home w) = None →
  (hishtoryDir (w_home w) ∈ dirs (w_fs w) →
     ∃ err, GetConfig w = (Ret (ClientConfig_zero, Some err), w) ∧
       err = Errorf ("failed to read config file (files in HISHTORY_PATH: "
                     +:+ listing (dir_entries (hishtoryDir (w_home w)) (w_fs w)) +:+ ")") None ∧
       errors_Is_ErrNotExist (Some err) = false) ∧
  (hishtoryDir (w_home w) ∉ dirs (w_fs w) →
   files (w_fs w) !! hishtoryDir (w_home w) = None →
     ∃ err, GetConfig w = (Ret (ClientConfig_zero, Some err), w) ∧
       err = Errorf "failed to read config file (and failed to list too)"
               (Some (PathError "open" (hishtoryDir (w_home w)) ErrNotExist)) ∧
       errors_Is_ErrNotExist (Some err) = true).
Proof.
  intros Hh Hf Hnone.
  assert (Hread : ∃ e, os_ReadFile (configPath (w_home w)) w = (Ret ("", Some e), w)).
  { unfold os_ReadFile. rewrite syscall_no_fault by done. rewrite Hnone.
    case_decide; eauto. }
  destruct Hread as [e Hread].
  split.
  - intros Hdir. eexists. split; [|split; [reflexivity|reflexivity]].
    unfold GetConfig, GetConfigContents. go_unfold.
    rewrite (os_UserHomeDir_ok w Hh). fold (configPath (w_home w)). rewrite Hread.
    fold (hishtoryDir (w_home w)).
    unfold os_ReadDir. rewrite syscall_no_fault by done.
    rewrite decide_True by done. reflexivity.
  - intros Hdir Hfile. eexists. split; [|split; [reflexivity|reflexivity]].
    unfold GetConfig, GetConfigContents. go_unfold.
    rewrite (os_UserHomeDir_ok w Hh). fold (configPath (w_home w)). rewrite Hread.
    fold (hishtoryDir (w_home w)).
    unfold os_ReadDir. rewrite syscall_no_fault by done.
    rewrite decide_False by done. rewrite decide_False by (rewrite Hfile; by intros [? ?]).
    reflexivity.
Qed.

(** X6. A configuration file that [json.Unmarshal] rejects makes
    [GetConfig] return the zero record with the cause wrapped under
    "failed to parse config file": never a success with a zero record. *)
Theorem GetConfig_parse_error (w : World) (data : string) (partial : ClientConfig) (e : error) :
  w_home w ≠ "" →
  files (w_fs w) !! configPath (w_home w) = Some data →
  verdict_of (next_fault w).1 = Proceed →
  json_Unmarshal data ClientConfig_zero = (partial, Some e) →
  GetConfig w =
    (Ret (ClientConfig_zero, Some (Errorf "failed to parse config file" (Some e))),
     (next_fault w).2) ∧
  ∀ config w', GetConfig w ≠ (Ret (config, None), w').
Proof.
  intros Hh Hp Hv Hj.
  assert (Hg : GetConfig w =
    (Ret (ClientConfig_zero, Some (Errorf "failed to parse config file" (Some e))),
     (next_fault w).2)).
  { unfold GetConfig. go_unfold.
    by rewrite (GetConfigContents_present _ _ Hh Hp Hv), Hj. }
  split; [done|]. intros config w'. rewrite Hg. discriminate.
Qed.

End load_facts.

Lemma GetConfig_without_file_witness :
  let w := add_dir "/home/u/.hishtory"
             (set_fs {| files := {[ "/home/u/.hishtory/.hishtory.db" := "" ]}; dirs := ∅ |}
                     fresh_World) in
  w_home w ≠ "" ∧ w_faults w = [] ∧
  files (w_fs w) !! configPath (w_home w) = None ∧
  hishtoryDir (w_home w) ∈ dirs (w_fs w) ∧
  ∃ err, GetConfig w = (Ret (ClientConfig_zero, Some err), w) ∧
    err = Errorf "failed to read config file (files in HISHTORY_PATH: .hishtory.db, )" None ∧
    errors_Is_ErrNotExist (Some err) = false.
Proof.
  cbv zeta.
  set (w := add_dir "/home/u/.hishtory"
             (set_fs {| files := {[ "/home/u/.hishtory/.hishtory.db" := "" ]}; dirs := ∅ |}
                     fresh_World)).
  assert (H1 : w_home w ≠ "") by done.
  assert (H2 : w_faults w = []) by reflexivity.
  assert (H3 : files (w_fs w) !! configPath (w_home w) = None) by (vm_compute; reflexivity).
  assert (H4 : hishtoryDir (w_home w) ∈ dirs (w_fs w)).
  { apply elem_of_union_l, elem_of_singleton. reflexivity. }
  repeat (split; [assumption|]).
  destruct (GetConfig_without_file w H1 H2 H3) as [Hdir _].
  destruct (Hdir H4) as (err & Hg & -> & Hn).
  eexists. split; [exact Hg|]. split; [|exact Hn].
  vm_compute. reflexivity.
Defined.

Lemma GetConfig_parse_error_witness :
  let w := world_with_config "{ broken" in
  w_home w ≠ "" ∧
  files (w_fs w) !! configPath (w_home w) = Some "{ broken" ∧
  verdict_of (next_fault w).1 = Proceed ∧
  json_Unmarshal "{ broken" ClientConfig_zero =
    (ClientConfig_zero, Some (ErrorString "invalid character in JSON input")) ∧
  GetConfig w =
    (Ret (ClientConfig_zero,
          Some (Errorf "failed to parse config file"
                  (Some (ErrorString "invalid character in JSON input")))),
     (next_fault w).2).
Proof.
  cbv zeta.
  assert (H1 : w_home (world_with_config "{ broken") ≠ "") by done.
  assert (H2 : files (w_fs (world_with_config "{ broken"))
                 !! configPath (w_home (world_with_config "{ broken")) = Some "{ broken")
    by (vm_compute; reflexivity).
  assert (H3 : verdict_of (next_fault (world_with_config "{ broken")).1 = Proceed)
    by reflexivity.
  assert (H4 : json_Unmarshal "{ broken" ClientConfig_zero =
               (ClientConfig_zero, Some (ErrorString "invalid character in JSON input")))
    by (vm_compute; reflexivity).
  repeat (split; [assumption|]).
  exact (proj1 (GetConfig_parse_error _ _ _ _ H1 H2 H3 H4)).
Defined.

(** * More on saving the configuration *)

Lemma frame_refl P w : frame P w w.
Proof. repeat split; auto. Qed.

Lemma frame_trans P w1 w2 w3 : frame P w1 w2 → frame P w2 w3 → frame P w1 w3.
Proof.
  intros (?&?&?&?&Hf1&Hd1) (?&?&?&?&Hf2&Hd2).
  split_and!; try congruence.
  - intros k Hk. by rewrite Hf2, Hf1.
  - auto.
Qed.

Lemma frame_weaken (P P' : string → Prop) w w' :
  (∀ k, P k → P' k) → frame P w w' → frame P' w w'.
Proof.
  intros HP (?&?&?&?&Hf&Hd). split_and!; try done.
  intros k Hk. apply Hf. auto.
Qed.

Lemma frame_next_fault P w0 w : frame P w0 w → frame P w0 (next_fault w).2.
Proof.
  intros Hw. apply (frame_trans _ _ w); [done|].
  destruct (next_fault_frame w) as (?&Hfs&?&?&?&?). unfold frame. rewrite Hfs.
  split_and!; auto.
Qed.

Lemma os_MkdirAll_frame p w r w' :
  os_MkdirAll p w = (r, w') → frame (λ _, False) w w'.
Proof.
  apply (syscall_keeps (frame _ w)); [apply frame_next_fault| |apply frame_refl].
  intros w0 H0. cbv beta zeta. case_decide; [done|].
  apply (frame_trans _ _ w0); [done|]. split_and!; cbn; auto; set_solver.
Qed.

Lemma uuid_NewRandom_frame w r w' :
  uuid_NewRandom w = (r, w') → frame (λ _, False) w w'.
Proof.
  apply (syscall_keeps (frame _ w)); [apply frame_next_fault| |apply frame_refl].
  intros w0 H0. cbv beta zeta. case_decide;
    (apply (frame_trans _ _ w0); [done|]; split_and!; cbn; auto).
Qed.

Lemma os_WriteFile_frame name data w r w' :
  os_WriteFile name data w = (r, w') → frame (λ k, k = name) w w'.
Proof.
  unfold os_WriteFile.
  pose proof (frame_next_fault _ w w (frame_refl (λ k, k = name) w)) as Hn.
  destruct (next_fault w) as [f w1]. cbn [snd] in Hn.
  assert (Hw : frame (λ k, k = name) w1 (set_fs (fs_write name data (w_fs w1)) w1)).
  { split_and!; cbn; auto. intros k Hk. by rewrite lookup_insert_ne by auto. }
  assert (Hw' : ∀ n, frame (λ k, k = name) w1
                 (set_fs (fs_write name (substring 0 n data) (w_fs w1)) w1)).
  { intros n. split_and!; cbn; auto. intros k Hk. by rewrite lookup_insert_ne by auto. }
  destruct f; [case_decide|..]; intros [= <- <-]; try done;
    by apply (frame_trans _ _ w1).
Qed.

Lemma os_Rename_frame o n w r w' :
  os_Rename o n w = (r, w') → frame (λ k, k = o ∨ k = n) w w'.
Proof.
  apply (syscall_keeps (frame _ w)); [apply frame_next_fault| |apply frame_refl].
  intros w0 H0. cbv beta zeta.
  destruct (files (w_fs w0) !! o) as [c|]; repeat case_decide; try done.
  apply (frame_trans _ _ w0); [done|]. split_and!; cbn; auto.
  intros k Hk. rewrite lookup_insert_ne, lookup_delete_ne by naive_solver. done.
Qed.

Section save_facts.
Context `{Platform}.

Lemma MakeHishtoryDir_frame w r w' :
  MakeHishtoryDir w = (r, w') → frame (λ _, False) w w'.
Proof.
  unfold MakeHishtoryDir. go_unfold.
  destruct (decide (w_home w = "")) as [Hh|Hh].
  { rewrite (os_UserHomeDir_unset w Hh). intros [= _ <-]. apply frame_refl. }
  rewrite (os_UserHomeDir_ok w Hh).
  destruct (os_MkdirAll _ w) as [[[e|]|e|] w2] eqn:E2;
    apply os_MkdirAll_frame in E2; by intros [= _ <-].
Qed.

(** X7. [SetConfig] keeps to its own paths: whatever it returns (or if it
    panics or the process dies), every file other than the configuration
    file and the staged files keeps its content, no directory disappears,
    and the databases and the logger are not touched. *)
Theorem SetConfig_touches_only (config : ClientConfig) (w : World) :
  let w' := (SetConfig config w).2 in
  w_home w' = w_home w ∧ w_dbs w' = w_dbs w ∧
  w_once w' = w_once w ∧ w_logger w' = w_logger w ∧
  (∀ k, k ≠ configPath (w_home w) → (∀ u, k ≠ stagedConfigPath (w_home w) u) →
        files (w_fs w') !! k = files (w_fs w) !! k) ∧
  (∀ d, d ∈ dirs (w_fs w) → d ∈ dirs (w_fs w')).
Proof.
  cbv zeta.
  assert (Hframe : frame (config_paths (w_home w)) w (SetConfig config w).2).
  { unfold SetConfig.
    destruct (json_Marshal config) as [ser [e0|]]; [apply frame_refl|]. go_unfold.
    destruct (decide (w_home w = "")) as [Hh|Hh].
    { rewrite (os_UserHomeDir_unset w Hh). apply frame_refl. }
    rewrite (os_UserHomeDir_ok w Hh). fold (configPath (w_home w)).
    destruct (MakeHishtoryDir w) as [r1 w1] eqn:E1.
    apply MakeHishtoryDir_frame in E1.
    apply (frame_weaken _ (config_paths (w_home w))) in E1; [|done].
    destruct r1 as [[e1|]|e1|]; try done.
    destruct (uuid_NewRandom w1) as [r2 w2] eqn:E2.
    apply uuid_NewRandom_frame in E2.
    apply (frame_weaken _ (config_paths (w_home w))) in E2; [|done].
    pose proof (frame_trans _ _ _ _ E1 E2) as E12.
    destruct r2 as [[u eu]|e2|]; try done.
    unfold uuid_Must, panic, mret, Go_ret. cbn [fst snd]. destruct eu as [e2|]; [done|].
    fold (stagedConfigPath (w_home w) u).
    destruct (os_WriteFile _ ser w2) as [r3 w3] eqn:E3.
    apply os_WriteFile_frame in E3.
    apply (frame_weaken _ (config_paths (w_home w))) in E3; [|intros k ->; right; by exists u].
    pose proof (frame_trans _ _ _ _ E12 E3) as E123.
    destruct r3 as [[e3|]|e3|]; try done.
    destruct (os_Rename _ _ w3) as [r4 w4] eqn:E4.
    apply os_Rename_frame in E4.
    apply (frame_weaken _ (config_paths (w_home w))) in E4;
      [|intros k [->| ->]; [right; by exists u|by left]].
    pose proof (frame_trans _ _ _ _ E123 E4).
    by destruct r4 as [[e4|]|e4|]. }
  destruct Hframe as (?&?&?&?&Hf&Hd). split_and!; try done.
  intros k Hk Hs. apply Hf. intros [?|[u ?]]; [done|by apply (Hs u)].
Qed.

Lemma passes_next n w :
  passes (S n) w →
  (next_fault w).1 = Pass ∧ passes n (next_fault w).2 ∧
  (next_fault w).2 = set_faults (tail (w_faults w)) w.
Proof.
  unfold passes, next_fault. destruct (w_faults w) as [|f rest] eqn:E.
  - intros _. cbn. rewrite E. repeat split; [by rewrite take_nil|]. destruct w; cbn in *; by subst.
  - cbn. intros [-> Hr]%Forall_cons. done.
Qed.

Lemma uuid_NewRandom_pass w :
  (next_fault w).1 = Pass → (16 ≤ length (w_rand w))%nat →
  uuid_NewRandom w =
    (Ret (next_uuid (w_rand w), None), set_rand (drop 16 (w_rand w)) (next_fault w).2).
Proof.
  intros Hp Hr. unfold uuid_NewRandom, syscall.
  destruct (next_fault_frame w) as (_&_&_&Hrand&_).
  destruct (next_fault w) as [f w1]. cbn [fst snd] in *. subst f. cbn [verdict_of].
  cbv zeta. rewrite Hrand, decide_True by (rewrite length_take; lia). done.
Qed.

Lemma os_WriteFile_pass name data w :
  (next_fault w).1 = Pass → name ∉ dirs (w_fs w) →
  os_WriteFile name data w =
    (Ret None, set_fs (fs_write name data (w_fs w)) (next_fault w).2).
Proof.
  intros Hp Hd. unfold os_WriteFile.
  destruct (next_fault_frame w) as (_&Hfs&_).
  destruct (next_fault w) as [f w1]. cbn [fst snd] in *. subst f.
  rewrite Hfs, decide_False by done. done.
Qed.

Lemma os_Rename_pass o n c w :
  (next_fault w).1 = Pass → files (w_fs w) !! o = Some c → n ∉ dirs (w_fs w) →
  os_Rename o n w =
    (Ret None, set_fs {| files := <[n := c]> (delete o (files (w_fs w)));
                         dirs := dirs (w_fs w) |} (next_fault w).2).
Proof.
  intros Hp Ho Hn. unfold os_Rename, syscall.
  destruct (next_fault_frame w) as (_&Hfs&_).
  destruct (next_fault w) as [f w1]. cbn [fst snd] in *. subst f. cbn [verdict_of].
  cbv zeta. rewrite Hfs, Ho, decide_False by done. done.
Qed.

(** X8. [SetConfig] returns nil on a machine where nothing stands in its
    way: the record serializes, the home directory resolves, the next four
    system calls are not made to fail, the random source has 16 bytes, the
    tool's directory is not a regular file, and no directory sits at the
    configuration path or at a staged path. The configuration file then
    holds the serialized record and the staged file is gone. *)
Theorem SetConfig_succeeds (config : ClientConfig) (w : World) :
  (json_Marshal config).2 = None →
  w_home w ≠ "" →
  passes 4 w →
  (16 ≤ length (w_rand w))%nat →
  files (w_fs w) !! hishtoryDir (w_home w) = None →
  (∀ k, config_paths (w_home w) k → k ∉ dirs (w_fs w) ∧ k ≠ hishtoryDir (w_home w)) →
  ∃ w', SetConfig config w = (Ret None, w') ∧
    files (w_fs w') !! configPath (w_home w) = Some (json_Marshal config).1 ∧
    files (w_fs w') !! stagedConfigPath (w_home w) (next_uuid (w_rand w)) = None ∧
    hishtoryDir (w_home w) ∈ dirs (w_fs w').
Proof.
  intros EM Hh Hp Hr Hd Hk. unfold SetConfig.
  destruct (json_Marshal config) as [ser [e0|]]; [done|]. cbn [fst snd]. go_unfold.
  rewrite (os_UserHomeDir_ok w Hh). fold (configPath (w_home w)).
  destruct (passes_next _ _ Hp) as (Hp0 & Hp1 & Hw0).
  rewrite (MakeHishtoryDir_ok w Hh) by (by rewrite ?Hp0).
  set (w1 := add_dir (hishtoryDir (w_home w)) (next_fault w).2).
  assert (Hfs1 : w_fs w1 = {| files := files (w_fs w);
                              dirs := {[hishtoryDir (w_home w)]} ∪ dirs (w_fs w) |}).
  { unfold w1. rewrite Hw0. done. }
  assert (Hp1' : passes 3 w1) by done.
  destruct (passes_next _ _ Hp1') as (Hp2 & Hp3 & Hw1).
  rewrite (uuid_NewRandom_pass w1 Hp2) by (unfold w1; rewrite Hw0; done).
  unfold uuid_Must. cbn [fst snd]. go_unfold.
  replace (w_rand w1) with (w_rand w) by (unfold w1; rewrite Hw0; done).
  set (u := next_uuid (w_rand w)). fold (stagedConfigPath (w_home w) u).
  set (w2 := set_rand _ _).
  assert (Hfs2 : w_fs w2 = w_fs w1) by (unfold w2; rewrite Hw1; done).
  assert (Hp2' : passes 2 w2) by done.
  destruct (passes_next _ _ Hp2') as (Hp4 & Hp5 & Hw2).
  destruct (Hk (stagedConfigPath (w_home w) u)) as [Hs1 Hs2]; [right; by exists u|].
  destruct (Hk (configPath (w_home w))) as [Ht1 Ht2]; [by left|].
  rewrite (os_WriteFile_pass _ _ w2 Hp4) by (rewrite Hfs2, Hfs1; cbn; set_solver).
  set (w3 := set_fs _ _).
  assert (Hfs3 : w_fs w3 = fs_write (stagedConfigPath (w_home w) u) ser (w_fs w1)).
  { unfold w3. by rewrite Hfs2. }
  assert (Hp3' : passes 1 w3) by done.
  destruct (passes_next _ _ Hp3') as (Hp6 & _ & Hw3).
  assert (Hst : files (w_fs w3) !! stagedConfigPath (w_home w) u = Some ser).
  { rewrite Hfs3. cbn. apply lookup_insert_eq. }
  assert (Hnd : configPath (w_home w) ∉ dirs (w_fs w3)).
  { rewrite Hfs3, Hfs1. cbn. set_solver. }
  rewrite (os_Rename_pass _ _ ser w3 Hp6 Hst Hnd).
  eexists. split; [reflexivity|]. cbn [w_fs set_fs files dirs]. rewrite Hfs3, Hfs1. cbn.
  split; [apply lookup_insert_eq|]. split; [|set_solver].
  rewrite lookup_insert_ne by (intros Heq; symmetry in Heq; by apply staged_ne in Heq).
  rewrite lookup_delete_eq. done.
Qed.

(** X9. The last save wins: after two saves that returned nil the
    configuration file holds the second record. *)
Theorem SetConfig_last_writer_wins (r1 r2 : ClientConfig) (w w1 w2 : World) :
  SetConfig r1 w = (Ret None, w1) →
  SetConfig r2 w1 = (Ret None, w2) →
  files (w_fs w1) !! configPath (w_home w) = Some (json_Marshal r1).1 ∧
  files (w_fs w2) !! configPath (w_home w) = Some (json_Marshal r2).1.
Proof.
  intros H1 H2.
  destruct (SetConfig_cases _ _ _ _ H1) as [Hh1 [(_ & _ & _ & u1 & Hf1)|(? & _)]]; [|done].
  destruct (SetConfig_cases _ _ _ _ H2) as [Hh2 [(_ & _ & _ & u2 & Hf2)|(? & _)]]; [|done].
  rewrite Hf1, Hf2, Hh1, !lookup_insert_eq. done.
Qed.

(** X10. [SetConfig] panics for one reason only, a failing random source
    ([uuid.Must]); no file has been written when it does. *)
Theorem SetConfig_panics_only_without_randomness (config : ClientConfig) (w : World)
    (e : error) (w' : World) :
  SetConfig config w = (Panic e, w') →
  (∃ w1 u, MakeHishtoryDir w = (Ret None, w1) ∧ uuid_NewRandom w1 = (Ret (u, Some e), w')) ∧
  files (w_fs w') = files (w_fs w).
Proof.
  unfold SetConfig.
  destruct (json_Marshal config) as [ser [e0|]]; [by unfold mret, Go_ret|]. go_unfold.
  destruct (decide (w_home w = "")) as [Hh|Hh].
  { by rewrite (os_UserHomeDir_unset w Hh). }
  rewrite (os_UserHomeDir_ok w Hh).
  destruct (MakeHishtoryDir w) as [r1 w1] eqn:E1.
  assert (Hnp : ∀ e1, r1 ≠ Panic e1).
  { intros e1 ->. revert E1. unfold MakeHishtoryDir. go_unfold.
    rewrite (os_UserHomeDir_ok w Hh).
    unfold os_MkdirAll, syscall. destruct (next_fault _) as [f ?].
    destruct (verdict_of f); [|done..]. cbv zeta. by case_decide. }
  pose proof (MakeHishtoryDir_same_disk _ _ _ E1) as [_ Hf1].
  destruct r1 as [[e1|]|e1|]; try done; [|by destruct (Hnp e1)].
  destruct (uuid_NewRandom w1) as [r2 w2] eqn:E2.
  pose proof (uuid_NewRandom_same_disk _ _ _ E2) as [_ Hf2].
  assert (Hnp2 : ∀ e2, r2 ≠ Panic e2).
  { intros e2 ->. revert E2. unfold uuid_NewRandom, syscall.
    destruct (next_fault _) as [f ?]. destruct (verdict_of f); [|done..].
    cbv zeta. by case_decide. }
  destruct r2 as [[u eu]|e2|]; try done; [|by destruct (Hnp2 e2)].
  unfold uuid_Must, panic, mret, Go_ret. cbn [fst snd]. destruct eu as [e2|].
  { intros [= <- <-]. split; [by exists w1, u|congruence]. }
  destruct (os_WriteFile _ ser w2) as [r3 w3] eqn:E3.
  assert (Hnp3 : ∀ e3, r3 ≠ Panic e3).
  { intros e3 ->. revert E3. unfold os_WriteFile.
    destruct (next_fault _) as [f ?]. destruct f; [case_decide|..]; done. }
  destruct r3 as [[e3|]|e3|]; try done; [|by destruct (Hnp3 e3)].
  destruct (os_Rename _ _ w3) as [r4 w4] eqn:E4.
  assert (Hnp4 : ∀ e4, r4 ≠ Panic e4).
  { intros e4 ->. revert E4. unfold os_Rename, syscall.
    destruct (next_fault _) as [f ?]. destruct (verdict_of f); [|done..].
    cbv zeta. destruct (files _ !! _); repeat case_decide; done. }
  destruct r4 as [[e4|]|e4|]; try done. by destruct (Hnp4 e4).
Qed.

End save_facts.

Lemma SetConfig_succeeds_witness :
  (json_Marshal sample_config).2 = None ∧
  w_home fresh_World ≠ "" ∧
  passes 4 fresh_World ∧
  (16 ≤ length (w_rand fresh_World))%nat ∧
  files (w_fs fresh_World) !! hishtoryDir (w_home fresh_World) = None ∧
  ∃ w', SetConfig sample_config fresh_World = (Ret None, w') ∧
    files (w_fs w') !! configPath (w_home fresh_World) = Some (json_Marshal sample_config).1 ∧
    files (w_fs w') !! stagedConfigPath (w_home fresh_World) (next_uuid (w_rand fresh_World))
      = None ∧
    hishtoryDir (w_home fresh_World) ∈ dirs (w_fs w').
Proof.
  assert (H1 : (json_Marshal sample_config).2 = None) by (vm_compute; reflexivity).
  assert (H2 : w_home fresh_World ≠ "") by done.
  assert (H3 : passes 4 fresh_World) by apply Forall_nil_2.
  assert (H4 : (16 ≤ length (w_rand fresh_World))%nat) by (vm_compute; lia).
  assert (H5 : files (w_fs fresh_World) !! hishtoryDir (w_home fresh_World) = None)
    by (vm_compute; reflexivity).
  assert (H6 : ∀ k, config_paths (w_home fresh_World) k →
                 k ∉ dirs (w_fs fresh_World) ∧ k ≠ hishtoryDir (w_home fresh_World)).
  { intros k Hk. split; [apply not_elem_of_empty|].
    destruct Hk as [->|[u ->]]; [by vm_compute|].
    unfold stagedConfigPath.
    change (configPath (w_home fresh_World)) with "/home/u/.hishtory/.hishtory.config".
    change (hishtoryDir (w_home fresh_World)) with "/home/u/.hishtory".
    rewrite !app_cons. congruence. }
  repeat (split; [assumption|]).
  exact (SetConfig_succeeds sample_config fresh_World H1 H2 H3 H4 H5 H6).
Defined.

Lemma SetConfig_last_writer_wins_witness :
  let w := set_rand (replicate 32 7%N) fresh_World in
  let w1 := (SetConfig sample_config w).2 in
  let w2 := (SetConfig ClientConfig_zero w1).2 in
  SetConfig sample_config w = (Ret None, w1) ∧
  SetConfig ClientConfig_zero w1 = (Ret None, w2) ∧
  files (w_fs w1) !! configPath (w_home w) = Some (json_Marshal sample_config).1 ∧
  files (w_fs w2) !! configPath (w_home w) = Some (json_Marshal ClientConfig_zero).1.
Proof.
  cbv zeta. set (w := set_rand (replicate 32 7%N) fresh_World).
  assert (H1 : SetConfig sample_config w = (Ret None, (SetConfig sample_config w).2))
    by (vm_compute; reflexivity).
  assert (H2 : SetConfig ClientConfig_zero (SetConfig sample_config w).2
               = (Ret None, (SetConfig ClientConfig_zero (SetConfig sample_config w).2).2))
    by (vm_compute; reflexivity).
  repeat (split; [assumption|]).
  exact (SetConfig_last_writer_wins _ _ _ _ _ H1 H2).
Defined.

Lemma SetConfig_panics_only_without_randomness_witness :
  let w := set_rand [1; 2; 3]%N fresh_World in
  SetConfig sample_config w =
    (Panic (ErrorString "unexpected EOF"), (SetConfig sample_config w).2) ∧
  files (w_fs (SetConfig sample_config w).2) = files (w_fs w).
Proof.
  cbv zeta.
  assert (H1 : SetConfig sample_config (set_rand [1; 2; 3]%N fresh_World) =
               (Panic (ErrorString "unexpected EOF"),
                (SetConfig sample_config (set_rand [1; 2; 3]%N fresh_World)).2))
    by (vm_compute; reflexivity).
  split; [assumption|].
  exact (proj2 (SetConfig_panics_only_without_randomness _ _ _ _ H1)).
Defined.

(** * What a failed save leaves behind *)

Lemma os_WriteFile_cases name data w r w' :
  os_WriteFile name data w = (Ret r, w') →
  (r = None ∧ files (w_fs w') = <[name := data]> (files (w_fs w))) ∨
  (∃ e, r = Some e ∧
     (files (w_fs w') = files (w_fs w) ∨
      ∃ n, files (w_fs w') = <[name := substring 0 n data]> (files (w_fs w)))).
Proof.
  unfold os_WriteFile. destruct (next_fault_frame w) as (_ & Hfs & _).
  destruct (next_fault w) as [f w1]. cbn [snd] in Hfs.
  destruct f; [case_decide|..]; intros [= <- <-]; cbn; rewrite Hfs; eauto 10.
Qed.

Section save_failures.
Context `{Platform}.

(** X11. [SetConfig] does not clean up after a failure. When it returns an
    error, either no file has changed, or the write failed part-way and a
    staged file holds a prefix of the serialized record, or the rename
    failed and a staged file holds all of it. *)
Theorem SetConfig_failure_litter (config : ClientConfig) (w : World) (e : error) (w' : World) :
  SetConfig config w = (Ret (Some e), w') →
  files (w_fs w') = files (w_fs w) ∨
  (∃ u n cause, e = Errorf "failed to write config" (Some cause) ∧
     files (w_fs w') =
       <[stagedConfigPath (w_home w) u := substring 0 n (json_Marshal config).1]>
         (files (w_fs w))) ∨
  (∃ u cause,
     e = Errorf "failed to replace config file with the updated version" (Some cause) ∧
     files (w_fs w') =
       <[stagedConfigPath (w_home w) u := (json_Marshal config).1]> (files (w_fs w))).
Proof.
  unfold SetConfig.
  destruct (json_Marshal config) as [ser [e0|]].
  { unfold mret, Go_ret. intros [= _ <-]. by left. }
  cbn [fst]. go_unfold.
  destruct (decide (w_home w = "")) as [Hh|Hh].
  { rewrite (os_UserHomeDir_unset w Hh). intros [= _ <-]. by left. }
  rewrite (os_UserHomeDir_ok w Hh). fold (configPath (w_home w)).
  destruct (MakeHishtoryDir w) as [r1 w1] eqn:E1.
  pose proof (MakeHishtoryDir_same_disk _ _ _ E1) as [_ Hf1].
  destruct r1 as [[e1|]|e1|]; try done.
  { intros [= _ <-]. by left. }
  destruct (uuid_NewRandom w1) as [r2 w2] eqn:E2.
  pose proof (uuid_NewRandom_same_disk _ _ _ E2) as [_ Hf2].
  destruct r2 as [[u eu]|e2|]; try done.
  unfold uuid_Must, panic, mret, Go_ret. cbn [fst snd]. destruct eu as [e2|]; [done|].
  fold (stagedConfigPath (w_home w) u).
  destruct (os_WriteFile _ ser w2) as [r3 w3] eqn:E3.
  destruct r3 as [r3|e3|]; try done.
  destruct (os_WriteFile_cases _ _ _ _ _ E3) as [[-> Hf3]|(e3 & -> & Hf3)].
  - destruct (os_Rename _ _ w3) as [r4 w4] eqn:E4.
    destruct (os_Rename_spec _ _ _ _ _ E4) as [_ [(-> & _)|(Hr & Hf4)]]; [done|].
    destruct r4 as [[e4|]|e4|]; try done.
    intros [= <- <-]. right; right. exists u, e4. split; [done|]. congruence.
  - intros [= <- <-]. destruct Hf3 as [Hf3|[n Hf3]].
    + left. congruence.
    + right; left. exists u, n, e3. split; [done|]. congruence.
Qed.

End save_failures.

Lemma SetConfig_failure_litter_witness :
  let w := set_faults [Pass; Pass; Torn 5 ENOSPC] fresh_World in
  let staged := "/home/u/.hishtory/.hishtory.config.tmp-01020304-0506-4708-890a-0b0c0d0e0f10" in
  let e := Errorf "failed to write config" (Some (PathError "write" staged (Errno ENOSPC))) in
  let w' := (SetConfig sample_config w).2 in
  SetConfig sample_config w = (Ret (Some e), w') ∧
  (files (w_fs w') = files (w_fs w) ∨
   (∃ u n cause, e = Errorf "failed to write config" (Some cause) ∧
      files (w_fs w') =
        <[stagedConfigPath (w_home w) u := substring 0 n (json_Marshal sample_config).1]>
          (files (w_fs w))) ∨
   (∃ u cause,
      e = Errorf "failed to replace config file with the updated version" (Some cause) ∧
      files (w_fs w') =
        <[stagedConfigPath (w_home w) u := (json_Marshal sample_config).1]> (files (w_fs w)))).
Proof.
  cbv zeta. set (w := set_faults [Pass; Pass; Torn 5 ENOSPC] fresh_World).
  assert (H1 : SetConfig sample_config w =
    (Ret (Some (Errorf "failed to write config"
       (Some (PathError "write"
          "/home/u/.hishtory/.hishtory.config.tmp-01020304-0506-4708-890a-0b0c0d0e0f10"
          (Errno ENOSPC))))),
     (SetConfig sample_config w).2)) by (vm_compute; reflexivity).
  split; [assumption|].
  exact (SetConfig_failure_litter _ _ _ _ H1).
Defined.

(** * Initialising twice, and reading after initialising *)

Section init_facts.
Context `{Platform}.

Lemma fs_exists_file p fs c : files fs !! p = Some c → fs_exists p fs = true.
Proof. intros Hc. unfold fs_exists. apply bool_decide_eq_true_2. left. by eexists. Qed.

Lemma InitConfig_present w :
  w_home w ≠ "" → verdict_of (next_fault w).1 = Proceed →
  fs_exists (configPath (w_home w)) (w_fs w) = true →
  InitConfig w = (Ret None, (next_fault w).2).
Proof.
  intros Hh Hv Hex. unfold InitConfig. go_unfold.
  rewrite (os_UserHomeDir_ok w Hh). fold (configPath (w_home w)).
  unfold os_Stat, syscall.
  destruct (next_fault_frame w) as (_ & Hfs & _).
  destruct (next_fault w) as [f w0]. cbn [fst snd] in *. rewrite Hv.
  cbv zeta. rewrite Hfs, Hex. done.
Qed.

(** After [InitConfig] returned nil something is at the configuration path:
    what was there before, or the file just written; in the second case the
    file holds the serialized zero record. *)
Lemma InitConfig_nil w w1 :
  InitConfig w = (Ret None, w1) →
  w_home w ≠ "" ∧ w_home w1 = w_home w ∧
  fs_exists (configPath (w_home w)) (w_fs w1) = true ∧
  (fs_exists (configPath (w_home w)) (w_fs w) = false →
   files (w_fs w1) !! configPath (w_home w) = Some (json_Marshal ClientConfig_zero).1).
Proof.
  unfold InitConfig. go_unfold.
  destruct (decide (w_home w = "")) as [Hh|Hh].
  { by rewrite (os_UserHomeDir_unset w Hh). }
  rewrite (os_UserHomeDir_ok w Hh). fold (configPath (w_home w)).
  unfold os_Stat, syscall.
  destruct (next_fault_frame w) as (Hh0 & Hfs & _).
  destruct (next_fault w) as [f w0]. cbn [fst snd] in *.
  destruct (verdict_of f) as [|e0|]; try done. cbv zeta. rewrite Hfs.
  destruct (fs_exists (configPath (w_home w)) (w_fs w)) eqn:Hex; cbn.
  - intros [= <-]. rewrite Hfs. done.
  - intros E.
    destruct (SetConfig_cases _ _ _ _ E) as [Hh1 [(_ & _ & _ & u & Hf)|(? & _)]]; [|done].
    assert (Hc : files (w_fs w1) !! configPath (w_home w) = Some (json_Marshal ClientConfig_zero).1).
    { rewrite Hf, Hh0. apply lookup_insert_eq. }
    repeat split; [done|congruence|by eapply fs_exists_file|done].
Qed.

(** X12. [InitConfig] is idempotent: once it has returned nil, a second call
    whose look-up is not made to fail returns nil and leaves the disk as it
    is; the stored configuration is not reset. *)
Theorem InitConfig_idempotent (w w1 : World) :
  InitConfig w = (Ret None, w1) →
  verdict_of (next_fault w1).1 = Proceed →
  ∃ w2, InitConfig w1 = (Ret None, w2) ∧ w_fs w2 = w_fs w1.
Proof.
  intros H1 Hv. destruct (InitConfig_nil _ _ H1) as (Hh & Hh1 & Hex & _).
  exists (next_fault w1).2. split.
  - apply InitConfig_present; [congruence|done|by rewrite Hh1].
  - by destruct (next_fault_frame w1) as (_ & ? & _).
Qed.

(** X13. Reading right after the first initialisation gives the defaults:
    when nothing was at the configuration path, [InitConfig] returned nil
    and the zero record survives serialisation, [GetConfig] returns the zero
    record with the six default columns and the default timestamp format. *)
Theorem InitConfig_then_GetConfig (w w1 : World) :
  json_Unmarshal (json_Marshal ClientConfig_zero).1 ClientConfig_zero
    = (ClientConfig_zero, None) →
  fs_exists (configPath (w_home w)) (w_fs w) = false →
  InitConfig w = (Ret None, w1) →
  verdict_of (next_fault w1).1 = Proceed →
  GetConfig w1 =
    (Ret (set_TimestampFormat "Jan 2 2006 15:04:05 MST"
            (set_DisplayedColumns
               (Some ["Hostname"; "CWD"; "Timestamp"; "Runtime"; "Exit Code"; "Command"])
               ClientConfig_zero), None),
     (next_fault w1).2).
Proof.
  intros Hcodec Hex H1 Hv. destruct (InitConfig_nil _ _ H1) as (Hh & Hh1 & _ & Hc).
  specialize (Hc Hex).
  rewrite (GetConfig_present w1 (json_Marshal ClientConfig_zero).1 ClientConfig_zero);
    [done|congruence| |done|done].
  by rewrite Hh1.
Qed.

End init_facts.

Lemma InitConfig_idempotent_witness :
  let w1 := (InitConfig fresh_World).2 in
  InitConfig fresh_World = (Ret None, w1) ∧
  verdict_of (next_fault w1).1 = Proceed ∧
  ∃ w2, InitConfig w1 = (Ret None, w2) ∧ w_fs w2 = w_fs w1.
Proof.
  cbv zeta.
  assert (H1 : InitConfig fresh_World = (Ret None, (InitConfig fresh_World).2))
    by (vm_compute; reflexivity).
  assert (H2 : verdict_of (next_fault (InitConfig fresh_World).2).1 = Proceed)
    by (vm_compute; reflexivity).
  repeat (split; [assumption|]).
  exact (InitConfig_idempotent _ _ H1 H2).
Defined.

Lemma InitConfig_then_GetConfig_witness :
  let w1 := (InitConfig fresh_World).2 in
  json_Unmarshal (json_Marshal ClientConfig_zero).1 ClientConfig_zero
    = (ClientConfig_zero, None) ∧
  fs_exists (configPath (w_home fresh_World)) (w_fs fresh_World) = false ∧
  InitConfig fresh_World = (Ret None, w1) ∧
  verdict_of (next_fault w1).1 = Proceed ∧
  GetConfig w1 =
    (Ret (set_TimestampFormat "Jan 2 2006 15:04:05 MST"
            (set_DisplayedColumns
               (Some ["Hostname"; "CWD"; "Timestamp"; "Runtime"; "Exit Code"; "Command"])
               ClientConfig_zero), None),
     (next_fault w1).2).
Proof.
  cbv zeta.
  assert (H0 : json_Unmarshal (json_Marshal ClientConfig_zero).1 ClientConfig_zero
               = (ClientConfig_zero, None)) by (vm_compute; reflexivity).
  assert (H1 : fs_exists (configPath (w_home fresh_World)) (w_fs fresh_World) = false)
    by (vm_compute; reflexivity).
  assert (H2 : InitConfig fresh_World = (Ret None, (InitConfig fresh_World).2))
    by (vm_compute; reflexivity).
  assert (H3 : verdict_of (next_fault (InitConfig fresh_World).2).1 = Proceed)
    by (vm_compute; reflexivity).
  repeat (split; [assumption|]).
  exact (InitConfig_then_GetConfig _ _ H0 H1 H2 H3).
Defined.

(** * The tool's directory and the home directory *)

Lemma add_dir_present p w : p ∈ dirs (w_fs w) → add_dir p w = w.
Proof.
  intros Hp. unfold add_dir, set_fs. destruct w as [h [fl ds] d r f o l]. cbn in *.
  f_equal. f_equal. set_solver.
Qed.

Section directory_facts.
Context `{Platform}.

(** X14. [MakeHishtoryDir] is idempotent: after it returned nil the tool's
    directory is there and no file has changed, and a second call that is
    not made to fail returns nil and changes nothing on disk. *)
Theorem MakeHishtoryDir_idempotent (w w1 : World) :
  MakeHishtoryDir w = (Ret None, w1) →
  hishtoryDir (w_home w) ∈ dirs (w_fs w1) ∧
  files (w_fs w1) = files (w_fs w) ∧
  (verdict_of (next_fault w1).1 = Proceed →
   ∃ w2, MakeHishtoryDir w1 = (Ret None, w2) ∧ w_fs w2 = w_fs w1).
Proof.
  intros E1.
  assert (Hh : w_home w ≠ "").
  { intros Hh. revert E1. unfold MakeHishtoryDir. go_unfold.
    by rewrite (os_UserHomeDir_unset w Hh). }
  pose proof (MakeHishtoryDir_same_disk _ _ _ E1) as [Hh1 Hf1].
  assert (Hd : hishtoryDir (w_home w) ∈ dirs (w_fs w1) ∧
               files (w_fs w) !! hishtoryDir (w_home w) = None).
  { revert E1. unfold MakeHishtoryDir. go_unfold.
    rewrite (os_UserHomeDir_ok w Hh). fold (hishtoryDir (w_home w)).
    unfold os_MkdirAll, syscall.
    destruct (next_fault_frame w) as (_ & Hfs & _).
    destruct (next_fault w) as [f w0]. cbn [fst snd] in *.
    destruct (verdict_of f); [|done..]. cbv zeta. rewrite Hfs.
    case_decide as Hfile; [done|]. intros [= <-]. cbn. split; [set_solver|].
    by apply eq_None_not_Some. }
  destruct Hd as [Hd Hnone]. repeat split; [done..|].
  intros Hv. exists (next_fault w1).2.
  destruct (next_fault_frame w1) as (_ & Hfs1 & _).
  rewrite (MakeHishtoryDir_ok w1) by (rewrite ?Hh1, ?Hf1; congruence).
  rewrite add_dir_present by (by rewrite Hfs1, Hh1). done.
Qed.

(** X15. A regular file where the tool's directory should be blocks the
    package: [MakeHishtoryDir] reports that the directory cannot be made,
    [SetConfig] and [OpenLocalSqliteDb] return that error wrapped, the first
    [GetLogger] panics with it; nothing is written. *)
Theorem regular_file_blocks (w : World) (c : string) :
  w_home w ≠ "" →
  verdict_of (next_fault w).1 = Proceed →
  files (w_fs w) !! hishtoryDir (w_home w) = Some c →
  let cause :=
    Errorf ("failed to create ~/" +:+ data_GetHishtoryPath +:+ " dir")
      (Some (PathError "mkdir" (hishtoryDir (w_home w)) (Errno ENOTDIR))) in
  let w0 := (next_fault w).2 in
  w_fs w0 = w_fs w ∧ w_dbs w0 = w_dbs w ∧
  MakeHishtoryDir w = (Ret (Some cause), w0) ∧
  (∀ config, (json_Marshal config).2 = None →
     SetConfig config w =
       (Ret (Some (Errorf "failed to create hishtory dir" (Some cause))), w0)) ∧
  OpenLocalSqliteDb w =
    (Ret (None, Some (Errorf "failed to make hishtory dir" (Some cause))), w0) ∧
  (w_once w = false → GetLogger w = (Panic cause, set_once true w0)).
Proof.
  intros Hh Hv Hc. cbv zeta.
  destruct (next_fault_frame w) as (_ & Hfs & Hdb & _).
  assert (Hm : MakeHishtoryDir w =
    (Ret (Some (Errorf ("failed to create ~/" +:+ data_GetHishtoryPath +:+ " dir")
       (Some (PathError "mkdir" (hishtoryDir (w_home w)) (Errno ENOTDIR))))),
     (next_fault w).2)).
  { unfold MakeHishtoryDir. go_unfold.
    rewrite (os_UserHomeDir_ok w Hh). fold (hishtoryDir (w_home w)).
    unfold os_MkdirAll, syscall.
    destruct (next_fault w) as [f w0]. cbn [fst snd] in *. rewrite Hv.
    cbv zeta. rewrite Hfs, Hc. rewrite decide_True by (by eexists). done. }
  repeat split; [done..| | |].
  - intros config Hser. unfold SetConfig.
    destruct (json_Marshal config) as [ser [e0|]]; [done|]. go_unfold.
    by rewrite (os_UserHomeDir_ok w Hh), Hm.
  - unfold OpenLocalSqliteDb. go_unfold.
    by rewrite (os_UserHomeDir_ok w Hh), Hm.
  - intros Ho. unfold GetLogger, Once_Do. go_unfold.
    by rewrite Ho, (os_UserHomeDir_ok w Hh), Hm.
Qed.

(** X16. Without a home directory nothing is touched: [MakeHishtoryDir],
    [GetConfig], [SetConfig] and [OpenLocalSqliteDb] return the error wrapped
    in their own message, [InitConfig] returns it as it is, [MakeContext]
    and the first [GetLogger] panic. *)
Theorem home_unset (w : World) :
  w_home w = "" →
  let cause := ErrorString "$HOME is not defined" in
  MakeHishtoryDir w =
    (Ret (Some (Errorf "failed to get user's home directory" (Some cause))), w) ∧
  GetConfig w =
    (Ret (ClientConfig_zero, Some (Errorf "failed to retrieve homedir" (Some cause))), w) ∧
  (∀ config, (json_Marshal config).2 = None →
     SetConfig config w = (Ret (Some (Errorf "failed to retrieve homedir" (Some cause))), w)) ∧
  InitConfig w = (Ret (Some cause), w) ∧
  OpenLocalSqliteDb w =
    (Ret (None, Some (Errorf "failed to get user's home directory" (Some cause))), w) ∧
  MakeContext w =
    (Panic (Errorf "failed to retrieve config"
              (Some (Errorf "failed to retrieve homedir" (Some cause)))), w) ∧
  (w_once w = false →
   GetLogger w =
     (Panic (Errorf_v "failed to get user's home directory" cause), set_once true w)).
Proof.
  intros Hh. cbv zeta.
  assert (Hg : GetConfig w =
    (Ret (ClientConfig_zero,
          Some (Errorf "failed to retrieve homedir" (Some (ErrorString "$HOME is not defined")))),
     w)).
  { unfold GetConfig, GetConfigContents. go_unfold. by rewrite (os_UserHomeDir_unset w Hh). }
  repeat split.
  - unfold MakeHishtoryDir. go_unfold. by rewrite (os_UserHomeDir_unset w Hh).
  - done.
  - intros config Hser. unfold SetConfig.
    destruct (json_Marshal config) as [ser [e0|]]; [done|]. go_unfold.
    by rewrite (os_UserHomeDir_unset w Hh).
  - unfold InitConfig. go_unfold. by rewrite (os_UserHomeDir_unset w Hh).
  - unfold OpenLocalSqliteDb. go_unfold. by rewrite (os_UserHomeDir_unset w Hh).
  - unfold MakeContext. go_unfold. by rewrite Hg.
  - intros Ho. unfold GetLogger, Once_Do. go_unfold.
    by rewrite Ho, (os_UserHomeDir_unset w Hh).
Qed.

End directory_facts.

Lemma MakeHishtoryDir_idempotent_witness :
  let w1 := (MakeHishtoryDir fresh_World).2 in
  MakeHishtoryDir fresh_World = (Ret None, w1) ∧
  hishtoryDir (w_home fresh_World) ∈ dirs (w_fs w1) ∧
  files (w_fs w1) = files (w_fs fresh_World).
Proof.
  cbv zeta.
  assert (H1 : MakeHishtoryDir fresh_World = (Ret None, (MakeHishtoryDir fresh_World).2))
    by (vm_compute; reflexivity).
  split; [assumption|].
  destruct (MakeHishtoryDir_idempotent _ _ H1) as (Hd & Hf & _). by split.
Defined.

Lemma regular_file_blocks_witness :
  let w := world_with_blocker in
  w_home w ≠ "" ∧
  verdict_of (next_fault w).1 = Proceed ∧
  files (w_fs w) !! hishtoryDir (w_home w) = Some "not a directory" ∧
  OpenLocalSqliteDb w =
    (Ret (None, Some (Errorf "failed to make hishtory dir"
       (Some (Errorf ("failed to create ~/" +:+ data_GetHishtoryPath +:+ " dir")
          (Some (PathError "mkdir" (hishtoryDir (w_home w)) (Errno ENOTDIR))))))),
     (next_fault w).2).
Proof.
  cbv zeta.
  assert (H1 : w_home world_with_blocker ≠ "") by done.
  assert (H2 : verdict_of (next_fault world_with_blocker).1 = Proceed) by reflexivity.
  assert (H3 : files (w_fs world_with_blocker) !! hishtoryDir (w_home world_with_blocker)
               = Some "not a directory") by (vm_compute; reflexivity).
  repeat (split; [assumption|]).
  exact (proj1 (proj2 (proj2 (proj2 (proj2
    (regular_file_blocks world_with_blocker "not a directory" H1 H2 H3)))))).
Defined.

Lemma home_unset_witness :
  w_home homeless_World = "" ∧
  InitConfig homeless_World = (Ret (Some (ErrorString "$HOME is not defined")), homeless_World) ∧
  MakeContext homeless_World =
    (Panic (Errorf "failed to retrieve config"
              (Some (Errorf "failed to retrieve homedir"
                       (Some (ErrorString "$HOME is not defined"))))), homeless_World).
Proof.
  assert (H1 : w_home homeless_World = "") by reflexivity.
  split; [assumption|].
  destruct (home_unset homeless_World H1) as (_ & _ & _ & Hi & _ & Hm & _).
  by split.
Defined.

(** * The errors of [GetConfig] *)

Lemma os_ReadFile_data p w d w' :
  os_ReadFile p w = (Ret (d, None), w') → files (w_fs w) !! p = Some d.
Proof.
  unfold os_ReadFile, syscall. destruct (next_fault_frame w) as (_ & Hfs & _).
  destruct (next_fault w) as [f w0]. cbn [snd] in Hfs.
  destruct (verdict_of f); [|done..]. cbv zeta. rewrite Hfs.
  destruct (files (w_fs w) !! p); [by intros [= <- _]|]. by case_decide.
Qed.

Section load_errors.
Context `{Platform}.

(** X17. The four errors of [GetConfig]: the home directory does not
    resolve; the read and the listing both failed, and the error wraps the
    listing's failure; the read failed and the listing worked, and the error
    wraps nothing; the file was read and does not parse. The cause of a
    failed read is in none of them. *)
Theorem GetConfig_errors (w : World) (c : ClientConfig) (e : error) (w' : World) :
  GetConfig w = (Ret (c, Some e), w') →
  (w_home w = "" ∧
   e = Errorf "failed to retrieve homedir" (Some (ErrorString "$HOME is not defined"))) ∨
  (∃ w1 w2 names cause,
     os_ReadDir (hishtoryDir (w_home w)) w1 = (Ret (names, Some cause), w2) ∧
     e = Errorf "failed to read config file (and failed to list too)" (Some cause)) ∨
  (∃ w1 w2 names,
     os_ReadDir (hishtoryDir (w_home w)) w1 = (Ret (names, None), w2) ∧
     e = Errorf ("failed to read config file (files in HISHTORY_PATH: "
                 +:+ listing names +:+ ")") None) ∨
  (∃ data partial cause,
     files (w_fs w) !! configPath (w_home w) = Some data ∧
     json_Unmarshal data ClientConfig_zero = (partial, Some cause) ∧
     e = Errorf "failed to parse config file" (Some cause)).
Proof.
  unfold GetConfig, GetConfigContents. go_unfold.
  destruct (decide (w_home w = "")) as [Hh|Hh].
  { rewrite (os_UserHomeDir_unset w Hh). intros [= _ <- _]. by left. }
  rewrite (os_UserHomeDir_ok w Hh).
  fold (configPath (w_home w)). fold (hishtoryDir (w_home w)).
  destruct (os_ReadFile _ w) as [[[d [e1|]]|e1|] w1] eqn:E1; try done.
  - destruct (os_ReadDir _ w1) as [[[names [e2|]]|e2|] w2] eqn:E2; try done.
    + intros [= _ <- _]. right; left. by exists w1, w2, names, e2.
    + intros [= _ <- _]. right; right; left. by exists w1, w2, names.
  - apply os_ReadFile_data in E1.
    destruct (json_Unmarshal d ClientConfig_zero) as [partial [e3|]] eqn:E3; [|done].
    intros [= _ <- _]. right; right; right. by exists d, partial, e3.
Qed.

End load_errors.

Lemma GetConfig_errors_witness :
  let w := set_faults [Fail EACCES] (world_with_config "{}") in
  let e := Errorf "failed to read config file (files in HISHTORY_PATH: .hishtory.config, )"
             None in
  GetConfig w = (Ret (ClientConfig_zero, Some e), (GetConfig w).2) ∧
  errors_Is_ErrNotExist (Some e) = false.
Proof.
  cbv zeta. set (w := set_faults [Fail EACCES] (world_with_config "{}")).
  assert (H1 : GetConfig w =
    (Ret (ClientConfig_zero,
          Some (Errorf "failed to read config file (files in HISHTORY_PATH: .hishtory.config, )"
                  None)), (GetConfig w).2)) by (vm_compute; reflexivity).
  split; [assumption|].
  destruct (GetConfig_errors _ _ _ _ H1)
    as [[_ He]|[(?&?&?&?&_&He)|[(?&?&?&_&He)|(?&?&?&_&_&He)]]]; try discriminate He.
  reflexivity.
Defined.

(** * A logger that could not be built *)

Section logger_facts.
Context `{Platform}.

Lemma MakeHishtoryDir_never_panics w e w' : MakeHishtoryDir w ≠ (Panic e, w').
Proof.
  unfold MakeHishtoryDir. go_unfold.
  destruct (decide (w_home w = "")) as [Hh|Hh].
  { by rewrite (os_UserHomeDir_unset w Hh). }
  rewrite (os_UserHomeDir_ok w Hh).
  unfold os_MkdirAll, syscall. destruct (next_fault _) as [f ?].
  destruct (verdict_of f); [|done..]. cbv zeta. by case_decide.
Qed.

(** X18. A failed construction of the logger is final. When the first
    [GetLogger] panics, the once is spent and the package variable is still
    nil: every later [GetLogger] returns nil without trying again, and
    [OpenLocalSqliteDb] then never returns a handle; it returns an error
    from its first two steps or panics on the nil logger. *)
Theorem GetLogger_failure_is_final (w : World) (e : error) (w1 : World) :
  w_once w = false →
  w_logger w = None →
  GetLogger w = (Panic e, w1) →
  w_once w1 = true ∧ w_logger w1 = None ∧
  GetLogger w1 = (Ret None, w1) ∧
  ∀ r w2, OpenLocalSqliteDb w1 = (r, w2) →
    (∃ e', r = Ret (None, Some e')) ∨ r = Panic nil_dereference ∨ r = Crashed.
Proof.
  intros Ho Hl E.
  assert (H1 : w_once w1 = true ∧ w_logger w1 = None).
  { revert E. unfold GetLogger, Once_Do. go_unfold. rewrite Ho.
    destruct (decide (w_home w = "")) as [Hh|Hh].
    { rewrite (os_UserHomeDir_unset w Hh). by intros [= _ <-]. }
    rewrite (os_UserHomeDir_ok w Hh).
    destruct (MakeHishtoryDir w) as [r0 w0] eqn:E0.
    pose proof (MakeHishtoryDir_frame _ _ _ E0) as (_ & _ & _ & Hl0 & _).
    destruct r0 as [[e0|]|e0|]; try done.
    - intros [= _ <-]. cbn. split; [done|congruence].
    - intros [= _ <-]. cbn. split; [done|congruence]. }
  destruct H1 as [Ho1 Hl1].
  assert (Hg : GetLogger w1 = (Ret None, w1)).
  { rewrite (GetLogger_again w1 Ho1). by rewrite Hl1. }
  repeat split; [done..|].
  intros r w2. unfold OpenLocalSqliteDb. go_unfold.
  destruct (decide (w_home w1 = "")) as [Hh|Hh].
  { rewrite (os_UserHomeDir_unset w1 Hh). intros [= <- _]. left. by eexists. }
  rewrite (os_UserHomeDir_ok w1 Hh).
  destruct (MakeHishtoryDir w1) as [r0 w0] eqn:E0.
  pose proof (MakeHishtoryDir_frame _ _ _ E0) as (_ & _ & Ho0 & Hl0 & _).
  destruct r0 as [[e0|]|e0|].
  - intros [= <- _]. left. by eexists.
  - rewrite (GetLogger_again w0) by congruence. rewrite Hl0, Hl1.
    intros [= <- _]. right. by left.
  - by destruct (MakeHishtoryDir_never_panics w1 e0 w0).
  - intros [= <- _]. right. by right.
Qed.

End logger_facts.

Lemma GetLogger_failure_is_final_witness :
  let w := set_faults [Fail EACCES] fresh_World in
  let w1 := (GetLogger w).2 in
  w_once w = false ∧ w_logger w = None ∧
  GetLogger w =
    (Panic (Errorf "failed to create ~/.hishtory dir" (Some (Errno EACCES))), w1) ∧
  GetLogger w1 = (Ret None, w1) ∧
  OpenLocalSqliteDb w1 = (Panic nil_dereference, (OpenLocalSqliteDb w1).2).
Proof.
  cbv zeta. set (w := set_faults [Fail EACCES] fresh_World).
  assert (H1 : w_once w = false) by reflexivity.
  assert (H2 : w_logger w = None) by reflexivity.
  assert (H3 : GetLogger w =
    (Panic (Errorf "failed to create ~/.hishtory dir" (Some (Errno EACCES))), (GetLogger w).2))
    by (vm_compute; reflexivity).
  repeat (split; [assumption|]).
  destruct (GetLogger_failure_is_final w _ _ H1 H2 H3) as (_ & _ & Hg & _).
  split; [exact Hg|]. vm_compute. reflexivity.
Defined.

(** * What opening the database keeps *)

Lemma catalog_le_refl c : catalog_le c c.
Proof. split; eauto. Qed.

Lemma catalog_le_trans c1 c2 c3 : catalog_le c1 c2 → catalog_le c2 c3 → catalog_le c1 c3.
Proof.
  intros [Ht1 Hi1] [Ht2 Hi2]. split; [|by auto].
  intros t cols Hc. destruct (Ht1 t cols Hc) as (cols2 & Hc2 & Hp2).
  destruct (Ht2 t cols2 Hc2) as (cols3 & Hc3 & Hp3).
  exists cols3. split; [done|]. by etrans.
Qed.

Lemma add_index_le i c : catalog_le c (add_index i c).
Proof.
  split.
  - intros t cols Hc. rewrite add_index_tables. eauto.
  - intros n x Hx. by rewrite add_index_lookup, Hx.
Qed.

Lemma foldr_add_index_le l c : catalog_le c (foldr add_index c l).
Proof.
  induction l as [|i l IH]; [apply catalog_le_refl|].
  cbn. eapply catalog_le_trans; [exact IH|apply add_index_le].
Qed.

Lemma migrate_le s c : catalog_le c (migrate s c).
Proof.
  unfold migrate. eapply catalog_le_trans; [|apply foldr_add_index_le].
  split; [|done]. cbn. intros t cols Hc.
  destruct (decide (t = sch_table s)) as [->|Hne].
  - rewrite lookup_insert_eq, Hc. cbn. eexists. split; [done|]. by apply prefix_app_r.
  - rewrite lookup_insert_ne by done. eauto.
Qed.

Lemma keeps_refl dsn w : keeps dsn w w.
Proof. split_and!; try done. intros c Hc. exists c. split; [done|apply catalog_le_refl]. Qed.

Lemma keeps_trans dsn w1 w2 w3 : keeps dsn w1 w2 → keeps dsn w2 w3 → keeps dsn w1 w3.
Proof.
  intros (Hh1 & Hd1 & Ho1 & Hk1 & Hc1) (Hh2 & Hd2 & Ho2 & Hk2 & Hc2).
  split_and!; try congruence.
  - set_solver.
  - intros Ho. destruct (Ho1 Ho) as [Ho' Hl]. destruct (Ho2 Ho') as [? Hl'].
    split; congruence.
  - intros k Hk. by rewrite Hk2, Hk1.
  - intros c Hc. destruct (Hc1 c Hc) as (c2 & Hc2' & Hle2).
    destruct (Hc2 c2 Hc2') as (c3 & Hc3 & Hle3).
    exists c3. split; [done|]. by eapply catalog_le_trans.
Qed.

Lemma keeps_next_fault dsn w0 w : keeps dsn w0 w → keeps dsn w0 (next_fault w).2.
Proof.
  intros Hk. apply (keeps_trans _ _ w); [done|].
  destruct (next_fault_frame w) as (Hh & Hfs & Hdb & _ & Ho & Hl).
  split_and!; rewrite ?Hfs, ?Hdb; try done.
  - intros Ho'. split; congruence.
  - intros c Hc. exists c. split; [done|apply catalog_le_refl].
Qed.

Lemma frame_keeps dsn w w' : frame (λ _, False) w w' → keeps dsn w w'.
Proof.
  intros (Hh & Hdb & Ho & Hl & Hf & Hd). split_and!; try done.
  - intros Ho'. split; congruence.
  - intros k _. by rewrite Hdb.
  - intros c Hc. exists c. rewrite Hdb. split; [done|apply catalog_le_refl].
Qed.

Lemma with_catalog_keeps db f w r w' :
  (∀ c, catalog_le c (f c).1) →
  with_catalog db f w = (r, w') → keeps (db_dsn db) w w'.
Proof.
  intros Hle.
  apply (syscall_keeps (keeps (db_dsn db) w)); [apply keeps_next_fault| |apply keeps_refl].
  intros w0 H0. cbv beta zeta.
  destruct (w_dbs w0 !! db_dsn db) as [c|] eqn:Ec; [|done].
  specialize (Hle c). destruct (f c) as [c' err]. cbn [fst snd] in *.
  apply (keeps_trans _ _ w0); [done|].
  split_and!; try done; cbn.
  - intros k Hk. by rewrite lookup_insert_ne.
  - intros c0 Hc0. exists c'. rewrite lookup_insert_eq. split; [done|]. congruence.
Qed.

Lemma gorm_Open_keeps dsn skip lg w r w' :
  gorm_Open dsn skip lg w = (r, w') → keeps dsn w w'.
Proof.
  apply (syscall_keeps (keeps dsn w)); [apply keeps_next_fault| |apply keeps_refl].
  intros w0 H0. cbv beta zeta.
  destruct (w_dbs w0 !! dsn) as [c|] eqn:Ec; [done|].
  apply (keeps_trans _ _ w0); [done|].
  split_and!; try done; cbn.
  - intros k Hk. by rewrite lookup_insert_ne.
  - intros c0 Hc0. congruence.
Qed.

Lemma gorm_DB_DB_keeps db w r w' : gorm_DB_DB db w = (r, w') → keeps (db_dsn db) w w'.
Proof.
  apply (syscall_keeps (keeps _ w)); [apply keeps_next_fault|done|apply keeps_refl].
Qed.

Lemma sql_Ping_keeps db w r w' : sql_Ping db w = (r, w') → keeps (db_dsn db) w w'.
Proof.
  apply (syscall_keeps (keeps _ w)); [apply keeps_next_fault|done|apply keeps_refl].
Qed.

Lemma gorm_AutoMigrate_keeps db s w r w' :
  gorm_AutoMigrate db s w = (r, w') → keeps (db_dsn db) w w'.
Proof. apply with_catalog_keeps. intros c. apply migrate_le. Qed.

Lemma gorm_Exec_keeps db q w r w' :
  gorm_Exec db q w = (r, w') → keeps (db_dsn db) w w'.
Proof.
  apply with_catalog_keeps. intros c. destruct q as [mode|name table columns].
  - apply catalog_le_refl.
  - destruct (indexes c !! name); [apply catalog_le_refl|].
    destruct (tables c !! table); [|apply catalog_le_refl].
    case_decide; [apply add_index_le|apply catalog_le_refl].
Qed.

Section open_facts.
Context `{Platform}.

Lemma MakeHishtoryDir_keeps dsn w r w' : MakeHishtoryDir w = (r, w') → keeps dsn w w'.
Proof. intros E. by apply MakeHishtoryDir_frame, (frame_keeps dsn) in E. Qed.

Lemma GetLogger_keeps dsn w r w' : GetLogger w = (r, w') → keeps dsn w w'.
Proof.
  unfold GetLogger, Once_Do, load_hishtoryLogger. go_unfold.
  destruct (w_once w) eqn:Ho.
  { intros [= _ <-]. apply keeps_refl. }
  assert (Hset : ∀ w0 b, keeps dsn w w0 → keeps dsn w (set_once b w0)).
  { intros w0 b (?&?&?&?&?). split_and!; try done. congruence. }
  destruct (decide (w_home w = "")) as [Hh|Hh].
  { rewrite (os_UserHomeDir_unset w Hh). intros [= _ <-]. apply Hset, keeps_refl. }
  rewrite (os_UserHomeDir_ok w Hh).
  destruct (MakeHishtoryDir w) as [r0 w0] eqn:E0.
  apply (MakeHishtoryDir_keeps dsn) in E0.
  destruct r0 as [[e0|]|e0|]; try (intros [= _ <-]; by apply Hset).
  unfold store_hishtoryLogger, modify_logger. cbn.
  intros [= _ <-]. destruct E0 as (?&?&?&?&?). split_and!; try done. congruence.
Qed.

Lemma OpenLocalSqliteDb_keeps w :
  keeps (dsn_of (w_home w)) w (OpenLocalSqliteDb w).2.
Proof.
  unfold OpenLocalSqliteDb. go_unfold.
  destruct (decide (w_home w = "")) as [Hh|Hh].
  { rewrite (os_UserHomeDir_unset w Hh). apply keeps_refl. }
  rewrite (os_UserHomeDir_ok w Hh). fold (dsn_of (w_home w)).
  set (dsn := dsn_of (w_home w)).
  destruct (MakeHishtoryDir w) as [r1 w1] eqn:E1.
  apply (MakeHishtoryDir_keeps dsn) in E1.
  destruct r1 as [[e1|]|e1|]; try done.
  destruct (GetLogger w1) as [r2 w2] eqn:E2.
  apply (GetLogger_keeps dsn) in E2. pose proof (keeps_trans _ _ _ _ E1 E2) as K2.
  destruct r2 as [[lg|]|e2|]; try done.
  destruct (gorm_Open dsn _ _ w2) as [r3 w3] eqn:E3.
  pose proof (gorm_Open_keeps _ _ _ _ _ _ E3) as K3'.
  pose proof (keeps_trans _ _ _ _ K2 K3') as K3.
  assert (Hdb : ∀ d e, r3 = Ret (Some d, e) → db_dsn d = dsn).
  { intros d e ->. revert E3. unfold gorm_Open, syscall.
    destruct (next_fault w2) as [f w2']. destruct (verdict_of f); [|done..].
    cbv zeta. destruct (w_dbs w2' !! dsn); by intros [= <- _]. }
  destruct r3 as [[[d|] [e3|]]|e3|]; try done.
  specialize (Hdb d None eq_refl).
  destruct (gorm_DB_DB d w3) as [r4 w4] eqn:E4.
  apply gorm_DB_DB_keeps in E4. rewrite Hdb in E4.
  pose proof (keeps_trans _ _ _ _ K3 E4) as K4.
  destruct r4 as [[[] [e4|]]|e4|]; try done.
  destruct (sql_Ping d w4) as [r5 w5] eqn:E5.
  apply sql_Ping_keeps in E5. rewrite Hdb in E5.
  pose proof (keeps_trans _ _ _ _ K4 E5) as K5.
  destruct r5 as [[e5|]|e5|]; try done.
  destruct (gorm_AutoMigrate d _ w5) as [r6 w6] eqn:E6.
  apply gorm_AutoMigrate_keeps in E6. rewrite Hdb in E6.
  pose proof (keeps_trans _ _ _ _ K5 E6) as K6.
  destruct r6 as [?|e6|]; try done.
  destruct (gorm_Exec d _ w6) as [r7 w7] eqn:E7.
  apply gorm_Exec_keeps in E7. rewrite Hdb in E7.
  pose proof (keeps_trans _ _ _ _ K6 E7) as K7.
  destruct r7 as [?|e7|]; try done.
  destruct (gorm_Exec d _ w7) as [r8 w8] eqn:E8.
  apply gorm_Exec_keeps in E8. rewrite Hdb in E8.
  pose proof (keeps_trans _ _ _ _ K7 E8) as K8.
  by destruct r8 as [?|e8|].
Qed.

(** X19. [OpenLocalSqliteDb] loses no stored data, whatever fails on the
    way and however it ends: every database other than the one it opens is
    as it was, and a database that was already there is still there and
    keeps each table with its columns in place and each index as it was. *)
Theorem OpenLocalSqliteDb_keeps_data (w : World) :
  let w' := (OpenLocalSqliteDb w).2 in
  let dsn := dsn_of (w_home w) in
  (∀ k, k ≠ dsn → w_dbs w' !! k = w_dbs w !! k) ∧
  (∀ c, w_dbs w !! dsn = Some c →
     ∃ c', w_dbs w' !! dsn = Some c' ∧
       (∀ t cols, tables c !! t = Some cols →
          ∃ cols', tables c' !! t = Some cols' ∧ cols `prefix_of` cols') ∧
       (∀ n i, indexes c !! n = Some i → indexes c' !! n = Some i)).
Proof.
  cbv zeta. destruct (OpenLocalSqliteDb_keeps w) as (_ & _ & _ & Hk & Hc).
  split; [done|].
  intros c Hc0. destruct (Hc c Hc0) as (c' & Hc' & Ht & Hi). by exists c'.
Qed.

Lemma MakeHishtoryDir_made w w1 :
  MakeHishtoryDir w = (Ret None, w1) →
  w_home w ≠ "" ∧ hishtoryDir (w_home w) ∈ dirs (w_fs w1).
Proof.
  unfold MakeHishtoryDir. go_unfold.
  destruct (decide (w_home w = "")) as [Hh|Hh].
  { by rewrite (os_UserHomeDir_unset w Hh). }
  rewrite (os_UserHomeDir_ok w Hh). fold (hishtoryDir (w_home w)).
  unfold os_MkdirAll, syscall.
  destruct (next_fault w) as [f w0]. destruct (verdict_of f); [|done..]. cbv zeta.
  case_decide; [done|]. intros [= <-]. cbn. split; [done|set_solver].
Qed.

Lemma GetLogger_returned w lg w' :
  GetLogger w = (Ret lg, w') → w_once w' = true ∧ w_logger w' = lg.
Proof.
  unfold GetLogger, Once_Do, load_hishtoryLogger. go_unfold.
  destruct (w_once w) eqn:Ho; [by intros [= <- <-]|].
  destruct (let '(r, w'0) := _ in (r, set_once true w'0)) as [r0 w0] eqn:E0.
  assert (Ho0 : w_once w0 = true).
  { revert E0. match goal with |- context [let '(_, _) := ?x in _] => destruct x end.
    by intros [= _ <-]. }
  destruct r0 as [[]|?|]; [|done..]. by intros [= <- <-].
Qed.

Lemma gorm_Open_returned dsn skip lg w d w' :
  gorm_Open dsn skip lg w = (Ret (Some d, None), w') →
  d = {| db_dsn := dsn; db_SkipDefaultTransaction := skip; db_Logger := lg |} ∧
  is_Some (w_dbs w' !! dsn).
Proof.
  unfold gorm_Open, syscall.
  destruct (next_fault w) as [f w0]. destruct (verdict_of f); [|done..]. cbv zeta.
  destruct (w_dbs w0 !! dsn) as [c|] eqn:Ec; intros [= <- <-]; (split; [done|]); cbn.
  - by rewrite Ec.
  - by rewrite lookup_insert_eq.
Qed.

(** X20. What [OpenLocalSqliteDb] returns: a nil handle with an error, or,
    with a nil error, the handle for the database file in the tool's
    directory under the home directory, with no default transaction and a
    logger on the package's logger that warns above 100 ms. In that case,
    also when the migration failed, the database file and the tool's
    directory exist and the package's logger is the one in the handle. *)
Theorem OpenLocalSqliteDb_returns (w : World) (db : option gorm_DB) (err : option error)
    (w' : World) :
  OpenLocalSqliteDb w = (Ret (db, err), w') →
  (db = None ∧ is_Some err) ∨
  (err = None ∧ ∃ lg,
     db = Some {| db_dsn := dsn_of (w_home w);
                  db_SkipDefaultTransaction := true;
                  db_Logger := {| gl_Writer := lg; gl_SlowThreshold := 100;
                                  gl_LogLevel := gorm_Warn;
                                  gl_IgnoreRecordNotFoundError := false;
                                  gl_Colorful := false |} |} ∧
     w_logger w' = Some lg ∧
     is_Some (w_dbs w' !! dsn_of (w_home w)) ∧
     hishtoryDir (w_home w) ∈ dirs (w_fs w')).
Proof.
  unfold OpenLocalSqliteDb. go_unfold.
  destruct (decide (w_home w = "")) as [Hh|Hh].
  { rewrite (os_UserHomeDir_unset w Hh). intros [= <- <- _]. left. by split. }
  rewrite (os_UserHomeDir_ok w Hh). fold (dsn_of (w_home w)).
  set (dsn := dsn_of (w_home w)).
  destruct (MakeHishtoryDir w) as [r1 w1] eqn:E1.
  destruct r1 as [[e1|]|e1|]; try done.
  { intros [= <- <- _]. left. by split. }
  apply MakeHishtoryDir_made in E1 as [_ Hdir].
  destruct (GetLogger w1) as [r2 w2] eqn:E2.
  pose proof (GetLogger_keeps dsn _ _ _ E2) as K2.
  destruct r2 as [[lg|]|e2|]; try done.
  apply GetLogger_returned in E2 as [Ho2 Hl2].
  destruct (gorm_Open dsn _ _ w2) as [r3 w3] eqn:E3.
  pose proof (gorm_Open_keeps _ _ _ _ _ _ E3) as K3.
  destruct r3 as [[[d|] [e3|]]|e3|]; try done;
    try (intros [= <- <- _]; left; by split).
  apply gorm_Open_returned in E3 as [Hd Hsome]. 
  assert (Hdb : db_dsn d = dsn) by (by rewrite Hd).
  destruct (gorm_DB_DB d w3) as [r4 w4] eqn:E4.
  apply gorm_DB_DB_keeps in E4. rewrite Hdb in E4.
  pose proof E4 as K4.
  destruct r4 as [[[] [e4|]]|e4|]; try done.
  { intros [= <- <- _]. left. by split. }
  destruct (sql_Ping d w4) as [r5 w5] eqn:E5.
  apply sql_Ping_keeps in E5. rewrite Hdb in E5.
  pose proof (keeps_trans _ _ _ _ K4 E5) as K5.
  destruct r5 as [[e5|]|e5|]; try done.
  { intros [= <- <- _]. left. by split. }
  destruct (gorm_AutoMigrate d _ w5) as [r6 w6] eqn:E6.
  apply gorm_AutoMigrate_keeps in E6. rewrite Hdb in E6.
  pose proof (keeps_trans _ _ _ _ K5 E6) as K6.
  destruct r6 as [?|e6|]; try done.
  destruct (gorm_Exec d _ w6) as [r7 w7] eqn:E7.
  apply gorm_Exec_keeps in E7. rewrite Hdb in E7.
  pose proof (keeps_trans _ _ _ _ K6 E7) as K7.
  destruct r7 as [?|e7|]; try done.
  destruct (gorm_Exec d _ w7) as [r8 w8] eqn:E8.
  apply gorm_Exec_keeps in E8. rewrite Hdb in E8.
  pose proof (keeps_trans _ _ _ _ K7 E8) as K8.
  destruct r8 as [?|e8|]; try done.
  intros [= <- <- <-]. right. split; [done|]. exists lg.
  destruct K2 as (_ & Hd2 & _).
  destruct K3 as (_ & Hd3 & Ho3 & _).
  destruct K8 as (_ & Hd8 & Ho8 & _ & Hc8).
  destruct (Ho3 Ho2) as [Ho3' Hl3]. destruct (Ho8 Ho3') as [_ Hl8].
  split_and!.
  - by rewrite Hd.
  - congruence.
  - destruct Hsome as [c Hc]. destruct (Hc8 c Hc) as (c' & -> & _). by eexists.
  - set_solver.
Qed.

End open_facts.

Lemma OpenLocalSqliteDb_returns_witness :
  let w := world_migration_fails in
  let w' := (OpenLocalSqliteDb w).2 in
  ∃ lg,
    OpenLocalSqliteDb w = (Ret (Some (handle_of (w_home w) lg), None), w') ∧
    w_logger w' = Some lg ∧
    is_Some (w_dbs w' !! dsn_of (w_home w)) ∧
    hishtoryDir (w_home w) ∈ dirs (w_fs w').
Proof.
  cbv zeta.
  assert (H1 : ∃ lg, OpenLocalSqliteDb world_migration_fails =
                 (Ret (Some (handle_of (w_home world_migration_fails) lg), None),
                  (OpenLocalSqliteDb world_migration_fails).2)).
  { eexists. vm_compute. reflexivity. }
  destruct H1 as [lg H1]. exists lg. split; [exact H1|].
  destruct (OpenLocalSqliteDb_returns _ _ _ _ H1) as [[Hn _]|(_ & lg' & Hdb & Hl & Hs & Hd)];
    [discriminate Hn|].
  assert (lg' = lg) as -> by (unfold handle_of in Hdb; congruence).
  by split_and!.
Defined.

(** * Building the context *)

Lemma os_ReadFile_never_panics p w e w' : os_ReadFile p w ≠ (Panic e, w').
Proof.
  unfold os_ReadFile, syscall. destruct (next_fault w) as [f w0].
  destruct (verdict_of f); [|done..]. cbv zeta.
  destruct (files (w_fs w0) !! p); [done|]. by case_decide.
Qed.

Lemma os_ReadDir_never_panics p w e w' : os_ReadDir p w ≠ (Panic e, w').
Proof.
  unfold os_ReadDir, syscall. destruct (next_fault w) as [f w0].
  destruct (verdict_of f); [|done..]. cbv zeta. by repeat case_decide.
Qed.

Section context_facts.
Context `{Platform}.

Lemma GetConfig_absent w :
  files (w_fs w) !! configPath (w_home w) = None →
  (GetConfig w).1 = Crashed ∨ ∃ e, (GetConfig w).1 = Ret (ClientConfig_zero, Some e).
Proof.
  intros Hnone. unfold GetConfig, GetConfigContents. go_unfold.
  destruct (decide (w_home w = "")) as [Hh|Hh].
  { rewrite (os_UserHomeDir_unset w Hh). right. by eexists. }
  rewrite (os_UserHomeDir_ok w Hh). fold (configPath (w_home w)).
  destruct (os_ReadFile _ w) as [[[d [e1|]]|e1|] w1] eqn:E1.
  - destruct (os_ReadDir _ w1) as [[[names [e2|]]|e2|] w2] eqn:E2.
    + right. by eexists.
    + right. by eexists.
    + by destruct (os_ReadDir_never_panics _ _ _ _ E2).
    + by left.
  - apply os_ReadFile_data in E1. congruence.
  - by destruct (os_ReadFile_never_panics _ _ _ _ E1).
  - by left.
Qed.

(** X21. [MakeContext] does not initialise the configuration. Without a
    configuration file it never returns a context: it panics with
    "failed to retrieve config" (or the process dies in a read), before it
    makes the directory, builds the logger or opens the database. *)
Theorem MakeContext_needs_config (w : World) :
  files (w_fs w) !! configPath (w_home w) = None →
  let r := (MakeContext w).1 in
  let w' := (MakeContext w).2 in
  (r = Crashed ∨ ∃ e, r = Panic (Errorf "failed to retrieve config" (Some e))) ∧
  w_fs w' = w_fs w ∧ w_dbs w' = w_dbs w ∧ w_once w' = w_once w ∧ w_logger w' = w_logger w.
Proof.
  intros Hnone. cbv zeta.
  pose proof (GetConfig_absent w Hnone) as Hg.
  pose proof (GetConfigContents_only_faults w) as Hro.
  unfold MakeContext. go_unfold.
  assert (Hro' : only_faults w (GetConfig w).2).
  { unfold GetConfig. go_unfold.
    destruct (GetConfigContents w) as [r1 w1] eqn:E1.
    specialize (Hro _ _ eq_refl).
    destruct r1 as [[d [e|]]|e|]; try done.
    destruct (json_Unmarshal d ClientConfig_zero) as [c [e|]]; done. }
  destruct (GetConfig w) as [r w1]. cbn [fst snd] in *.
  destruct Hro' as (_ & Hfs & Hdb & _ & Ho & Hl).
  destruct Hg as [->|[e ->]]; cbn.
  - split_and!; try done. by left.
  - split_and!; try done. right. by eexists.
Qed.

(** X22. [MakeContext] on a machine without faults, with a configuration
    file that parses and a home directory: the context it returns gives
    back, through the three getters, the configuration [GetConfig] loads,
    the database handle of this home directory and the home directory. *)
Theorem MakeContext_carrier (w : World) (data : string) (stored : ClientConfig) :
  w_faults w = [] →
  w_home w ≠ "" →
  files (w_fs w) !! configPath (w_home w) = Some data →
  json_Unmarshal data ClientConfig_zero = (stored, None) →
  files (w_fs w) !! hishtoryDir (w_home w) = None →
  (w_once w = true → is_Some (w_logger w)) →
  ∃ ctx w' config lg,
    MakeContext w = (Ret ctx, w') ∧
    GetConfig w = (Ret (config, None), w) ∧
    GetConf ctx w' = (Ret config, w') ∧
    GetDb ctx w' = (Ret (Some (handle_of (w_home w) lg)), w') ∧
    w_logger w' = Some lg ∧
    GetHome ctx w' = (Ret (w_home w), w').
Proof.
  intros Hf Hh Hdata Hjson Hdir Hlog.
  assert (Hv : verdict_of (next_fault w).1 = Proceed) by (by rewrite next_fault_none).
  pose proof (GetConfig_present w data stored Hh Hdata Hv Hjson) as Hg.
  rewrite next_fault_none in Hg by done. cbn [snd] in Hg.
  destruct (OpenLocalSqliteDb_run w Hf Hh Hdir Hlog)
    as (lg & w1 & Hrun & _ & _ & Hh1 & Hfs1 & _ & Hl1 & _).
  eexists _, w1, _, lg. split_and!; [|exact Hg| | |done|].
  - unfold MakeContext. go_unfold. rewrite Hg, Hrun.
    rewrite (os_UserHomeDir_ok w1) by congruence. by rewrite Hh1.
  - reflexivity.
  - reflexivity.
  - reflexivity.
Qed.

End context_facts.

Lemma MakeContext_needs_config_witness :
  files (w_fs fresh_World) !! configPath (w_home fresh_World) = None ∧
  (∃ e, (MakeContext fresh_World).1 = Panic (Errorf "failed to retrieve config" (Some e))) ∧
  w_fs (MakeContext fresh_World).2 = w_fs fresh_World ∧
  w_dbs (MakeContext fresh_World).2 = w_dbs fresh_World.
Proof.
  assert (H1 : files (w_fs fresh_World) !! configPath (w_home fresh_World) = None)
    by (vm_compute; reflexivity).
  split; [assumption|].
  destruct (MakeContext_needs_config fresh_World H1) as ([Hc|He] & Hfs & Hdb & _).
  - vm_compute in Hc. discriminate Hc.
  - by split_and!.
Defined.

Lemma MakeContext_carrier_witness :
  let w := world_with_config "{}" in
  w_faults w = [] ∧
  w_home w ≠ "" ∧
  files (w_fs w) !! configPath (w_home w) = Some "{}" ∧
  json_Unmarshal "{}" ClientConfig_zero = (ClientConfig_zero, None) ∧
  files (w_fs w) !! hishtoryDir (w_home w) = None ∧
  (w_once w = true → is_Some (w_logger w)) ∧
  ∃ ctx w' config lg,
    MakeContext w = (Ret ctx, w') ∧
    GetConfig w = (Ret (config, None), w) ∧
    GetConf ctx w' = (Ret config, w') ∧
    GetDb ctx w' = (Ret (Some (handle_of (w_home w) lg)), w') ∧
    w_logger w' = Some lg ∧
    GetHome ctx w' = (Ret "/home/u", w').
Proof.
  cbv zeta. set (w := world_with_config "{}").
  assert (H1 : w_faults w = []) by reflexivity.
  assert (H2 : w_home w ≠ "") by done.
  assert (H3 : files (w_fs w) !! configPath (w_home w) = Some "{}")
    by (vm_compute; reflexivity).
  assert (H4 : json_Unmarshal "{}" ClientConfig_zero = (ClientConfig_zero, None))
    by (vm_compute; reflexivity).
  assert (H5 : files (w_fs w) !! hishtoryDir (w_home w) = None) by (vm_compute; reflexivity).
  assert (H6 : w_once w = true → is_Some (w_logger w)) by (intros Ho; discriminate Ho).
  repeat (split; [assumption|]).
  destruct (MakeContext_carrier w "{}" ClientConfig_zero H1 H2 H3 H4 H5 H6)
    as (ctx & w' & config & lg & Hm & Hg & Hc & Hd & Hl & Hhome).
  exists ctx, w', config, lg. by split_and!.
Defined.

(** * Panics of concurrent callers of [GetLogger] *)

Module ConcurrentPanics.
Import Concurrent ConcurrentFacts.

Section panics.
Variable env_ok : bool.
Variable logFormatter : TextFormatter.
Variable lumberjackLogger : lumberjack_Logger.

Notation step := (step env_ok logFormatter lumberjackLogger).

(** X23. Under concurrent callers the only panic of [GetLogger] is the one
    of its environment. In every state the process can reach, a thread that
    is panicking (its deferred calls still to run) or whose panic has left
    [GetLogger] carries the error of the home directory or of the tool's
    directory, and [hishtoryLogger] is nil. The three method calls through
    the shared pointer never find it nil, however the threads interleave:
    when the environment is in order no caller panics. *)
Theorem GetLogger_panics_only_on_environment (n : nat) (m : Machine) (t : nat) (v : panic_value) :
  rtc step (start n) m →
  m_threads m !! t = Some (PanicStore v) ∨
  m_threads m !! t = Some (PanicUnlock v) ∨
  m_threads m !! t = Some (Panicked v) →
  v = EnvironmentError ∧ env_ok = false ∧ m_global m = None.
Proof.
  intros Hr Ht.
  pose proof (Inv_reachable env_ok logFormatter lumberjackLogger n m Hr) as HI.
  pose proof (inv_done env_ok logFormatter lumberjackLogger m HI) as Hdone.
  unfold outcome in Hdone.
  destruct Ht as [Ht|[Ht|Ht]];
    pose proof (inv_knows env_ok logFormatter lumberjackLogger m HI t _ Ht) as Hk;
    cbn in Hk.
  - by destruct Hk as (_ & _ & Hg & He & Hv).
  - destruct Hk as (Hd & He & Hv). destruct (Hdone Hd) as [_ Hg].
    rewrite He in Hg. done.
  - destruct Hk as (Hd & He & Hv). destruct (Hdone Hd) as [_ Hg].
    rewrite He in Hg. done.
Qed.

End panics.

Lemma GetLogger_panics_only_on_environment_witness :
  let fmt := {| tf_TimestampFormat := time_RFC3339; tf_FullTimestamp := true |} in
  let lj := {| Filename := "/home/u/.hishtory/hishtory.log";
               MaxSize := 1; MaxBackups := 10; MaxAge := 30 |} in
  let m := run false fmt lj [0; 1; 0; 0; 0; 0; 0; 1; 1] (start 2) in
  rtc (step false fmt lj) (start 2) m ∧
  m_threads m = [Panicked EnvironmentError; Unlock] ∧
  m_global m = None.
Proof.
  cbv zeta.
  set (fmt := {| tf_TimestampFormat := time_RFC3339; tf_FullTimestamp := true |}).
  set (lj := {| Filename := "/home/u/.hishtory/hishtory.log";
                MaxSize := 1; MaxBackups := 10; MaxAge := 30 |}).
  set (m := run false fmt lj [0; 1; 0; 0; 0; 0; 0; 1; 1] (start 2)).
  assert (Hr : rtc (step false fmt lj) (start 2) m) by apply run_reachable.
  assert (Ht : m_threads m = [Panicked EnvironmentError; Unlock]) by reflexivity.
  assert (H0 : m_threads m !! 0%nat = Some (PanicStore EnvironmentError) ∨
               m_threads m !! 0%nat = Some (PanicUnlock EnvironmentError) ∨
               m_threads m !! 0%nat = Some (Panicked EnvironmentError)).
  { right; right. by rewrite Ht. }
  repeat (split; [assumption|]).
  exact (proj2 (proj2
    (GetLogger_panics_only_on_environment false fmt lj 2 m 0 EnvironmentError Hr H0))).
Defined.

End ConcurrentPanics.
